(** * eCFR snapshot comparison engine: flattening, diffing, date utilities

    A shallow embedding of the comparison core of [build/index.js]:
    [collectSections] / [buildSectionMap] (structure flattener),
    [toDate] / [isWithinRange] / [rangesOverlap] (date utilities),
    [diffTitleStructures] (snapshot differ) and the two composite tool
    handlers [ecfr_compare_title_dates] and [ecfr_get_recent_changes];
    then of the retrieval adapter ([fetchJson], [fetchStructureJson],
    [fetchTitleMeta]), of the filters of [ecfr_get_corrections] and
    [ecfr_search_with_date_range], of the index resolution of
    [ecfr_get_section_content] and of [scripts/add-shebang.js].

    JavaScript values are modelled as parsed JSON, numbers by the text
    they print as and strings with their UTF-16 code units.  Thrown
    exceptions are modelled by an error monad that keeps the message, the
    TypeError of a conversion and the RangeError of an exhausted call
    stack included, so that "never raises" is a statement and not a
    consequence of the embedding. *)

From Stdlib Require Import List String Ascii ZArith Bool Lia Arith DecimalString.
From Stdlib Require Import Permutation DecimalZ.
Import ListNotations.
Local Open Scope string_scope.
Local Open Scope list_scope.

(** ** JavaScript values, as produced by [res.json()] *)

Module Js.

(** A parsed JSON payload, plus [undefined], which JSON itself never
    contains but which every absent property reads as.

    A number is given by the text [Number.prototype.toString] prints for
    it ([12], [1306.04], [1e+21]): the text determines the number but for
    the sign of zero, and [===], truthiness and [String] of a number
    depend on nothing else ([0] and [-0] both print [0], are [===] and
    falsy; no JSON text parses to [NaN]).

    A string is the UTF-8 text of the value; an object is its own
    enumerable properties in order, with unique keys as [JSON.parse]
    leaves them. *)
#[local] Unset Elimination Schemes.
Inductive JsVal : Type :=
| JUndef
| JNull
| JBool (b : bool)
| JNum (text : string)
| JStr (s : string)
| JArr (items : list JsVal)
| JObj (props : list (string * JsVal)).
#[local] Set Elimination Schemes.

(** Completion of an evaluation: a value, or a thrown exception, of which
    the message is kept as the handlers print it,
    [err?.message || String(err)]. *)
Inductive result (A : Type) : Type :=
| Ok (a : A)
| Throw (message : string).
Arguments Ok {A} a.
Arguments Throw {A} message.

Definition bind {A B : Type} (r : result A) (k : A -> result B) : result B :=
  match r with
  | Ok a => k a
  | Throw m => Throw m
  end.

Notation "x <- e ;; k" := (bind e (fun x => k))
  (at level 61, e at next level, right associativity).

(** [for (const x of items) body(x)] over mutable state [s]. *)
Fixpoint forOf {A S : Type} (items : list A) (body : A -> S -> result S) (s : S)
  : result S :=
  match items with
  | [] => Ok s
  | x :: rest => s' <- body x s ;; forOf rest body s'
  end.

(** ToBoolean. *)
Definition truthy (v : JsVal) : bool :=
  match v with
  | JUndef | JNull => false
  | JBool b => b
  | JNum text => negb (text =? "0")
  | JStr s => negb (s =? "")
  | JArr _ | JObj _ => true
  end.

Definition typeof (v : JsVal) : string :=
  match v with
  | JUndef => "undefined"
  | JNull => "object"
  | JBool _ => "boolean"
  | JNum _ => "number"
  | JStr _ => "string"
  | JArr _ | JObj _ => "object"
  end.

Definition isArray (v : JsVal) : bool :=
  match v with JArr _ => true | _ => false end.

Fixpoint lookup (k : string) (props : list (string * JsVal)) : JsVal :=
  match props with
  | [] => JUndef
  | (k', v) :: rest => if k' =? k then v else lookup k rest
  end.

(** [v.k] for the property names this program reads ([type],
    [identifier], [children], [hierarchy], [part], [label],
    [label_description], [reserved], [received_on], [size]): none of them
    is a built-in property of a string, number, boolean or array, so only
    an object can answer with something else than [undefined]; reading a
    property of [null] or [undefined] throws a TypeError. *)
Definition member (v : JsVal) (k : string) : result JsVal :=
  match v with
  | JUndef =>
      Throw ("Cannot read properties of undefined (reading '" ++ k ++ "')")%string
  | JNull =>
      Throw ("Cannot read properties of null (reading '" ++ k ++ "')")%string
  | JObj props => Ok (lookup k props)
  | _ => Ok JUndef
  end.

(** [v?.k]: short-circuits to [undefined] on [null] and [undefined], so
    it cannot throw. *)
Definition opt_member (v : JsVal) (k : string) : JsVal :=
  match v with
  | JObj props => lookup k props
  | _ => JUndef
  end.

(** [a ?? b]. *)
Definition nullish (a b : JsVal) : JsVal :=
  match a with
  | JUndef | JNull => b
  | _ => a
  end.

(** [String(n)] for an integer argument of a tool, which the parameter
    schemas keep far below the magnitude at which a number prints with
    an exponent. *)
Definition string_of_Z (n : Z) : string := NilZero.string_of_int (Z.to_int n).

(** [props] has an own property [k]. *)
Definition has_own (k : string) (props : list (string * JsVal)) : bool :=
  existsb (fun kv => fst kv =? k) props.

(** The message of the TypeError of a conversion that fails. *)
Definition conversion_error : string :=
  "Cannot convert object to primitive value".

(** [items.join()], given the conversion of an element: the strings of
    the elements with a comma in between, [null] and [undefined]
    elements printing as nothing. *)
Fixpoint join (conv : JsVal -> result string) (items : list JsVal)
  : result string :=
  match items with
  | [] => Ok ""
  | x :: rest =>
      sx <- match x with
            | JUndef | JNull => Ok ""
            | _ => conv x
            end ;;
      match rest with
      | [] => Ok sx
      | _ :: _ => sr <- join conv rest ;; Ok (sx ++ "," ++ sr)%string
      end
  end.

(** [String(v)].  An array is [join]ed.  A parsed object has no callable
    property, so an own [toString] hides the inherited one and no
    conversion is left: [String] throws a TypeError.  Any other object
    prints as [[object Object]]. *)
Fixpoint StringOf (v : JsVal) : result string :=
  match v with
  | JUndef => Ok "undefined"
  | JNull => Ok "null"
  | JBool true => Ok "true"
  | JBool false => Ok "false"
  | JNum text => Ok text
  | JStr s => Ok s
  | JArr items => join StringOf items
  | JObj props =>
      if has_own "toString" props
      then Throw conversion_error
      else Ok "[object Object]"
  end.

(** [a === b] where the two operands do not share an object: one is a
    literal, or they come from two different [res.json()] payloads.
    Primitives compare by value; an array or object is only ever equal to
    itself, hence to nothing on the other side. *)
Definition strict_eq (a b : JsVal) : bool :=
  match a, b with
  | JUndef, JUndef => true
  | JNull, JNull => true
  | JBool x, JBool y => Bool.eqb x y
  | JNum x, JNum y => x =? y
  | JStr x, JStr y => x =? y
  | _, _ => false
  end.

Definition strict_neq (a b : JsVal) : bool := negb (strict_eq a b).

(** *** Strings by code units *)

(** [length] and [slice] count the UTF-16 code units of a string.  A
    byte of the text, and the character of a byte. *)
Definition byte (c : ascii) : Z := Z.of_N (N_of_ascii c).

Definition char (b : Z) : ascii := ascii_of_N (Z.to_N b).

(** The code units of a text: one for a sequence of one, two or three
    bytes, the two surrogates for a sequence of four. *)
Fixpoint units (s : string) : list Z :=
  match s with
  | EmptyString => []
  | String c0 r =>
      let b0 := byte c0 in
      if (b0 <? 128)%Z then b0 :: units r
      else if (b0 <? 224)%Z then
        match r with
        | String c1 r1 => ((b0 mod 32) * 64 + byte c1 mod 64)%Z :: units r1
        | EmptyString => [b0]
        end
      else if (b0 <? 240)%Z then
        match r with
        | String c1 (String c2 r2) =>
            ((b0 mod 16) * 4096 + (byte c1 mod 64) * 64 + byte c2 mod 64)%Z
            :: units r2
        | _ => [b0]
        end
      else
        match r with
        | String c1 (String c2 (String c3 r3)) =>
            let point := ((b0 mod 8) * 262144 + (byte c1 mod 64) * 4096
                          + (byte c2 mod 64) * 64 + byte c3 mod 64)%Z in
            let v := ((point - 65536) mod 1048576)%Z in
            (55296 + v / 1024)%Z :: (56320 + v mod 1024)%Z :: units r3
        | _ => [b0]
        end
  end.

(** The three bytes of a code unit from [0x800] up that stands alone. *)
Definition three_bytes (u : Z) (rest : string) : string :=
  String (char (224 + u / 4096))
    (String (char (128 + (u / 64) mod 64))
       (String (char (128 + u mod 64)) rest)).

(** The text of a sequence of code units; a high surrogate followed by a
    low one is one character of four bytes. *)
Fixpoint text_of_units (l : list Z) : string :=
  match l with
  | [] => EmptyString
  | u :: r =>
      if (u <? 128)%Z then String (char u) (text_of_units r)
      else if (u <? 2048)%Z then
        String (char (192 + u / 64))
          (String (char (128 + u mod 64)) (text_of_units r))
      else if ((55296 <=? u) && (u <? 56320))%Z then
        match r with
        | low :: r' =>
            if ((56320 <=? low) && (low <? 57344))%Z then
              let point := (65536 + (u - 55296) * 1024 + (low - 56320))%Z in
              String (char (240 + point / 262144))
                (String (char (128 + (point / 4096) mod 64))
                   (String (char (128 + (point / 64) mod 64))
                      (String (char (128 + point mod 64)) (text_of_units r'))))
            else three_bytes u (text_of_units r)
        | [] => three_bytes u EmptyString
        end
      else three_bytes u (text_of_units r)
  end.

(** [s.slice(0, n)]. *)
Definition slice_to (n : nat) (s : string) : string :=
  text_of_units (firstn n (units s)).

(** Nesting depth of a value, the measure every recursive walk decreases. *)
Fixpoint depth (v : JsVal) : nat :=
  match v with
  | JArr items =>
      S ((fix go (l : list JsVal) : nat :=
            match l with
            | [] => 0
            | x :: rest => Nat.max (depth x) (go rest)
            end) items)
  | JObj props =>
      S ((fix go (l : list (string * JsVal)) : nat :=
            match l with
            | [] => 0
            | (_, x) :: rest => Nat.max (depth x) (go rest)
            end) props)
  | _ => 0
  end.

(** A [Map] with string keys: the entries in iteration order.  [set] on
    a key already present replaces the value and keeps the entry's place;
    a new key goes last. *)
Definition Map : Type := list (string * JsVal).

Definition new_Map : Map := [].

Fixpoint map_set (k : string) (v : JsVal) (m : Map) : Map :=
  match m with
  | [] => [(k, v)]
  | (k', v') :: rest =>
      if k' =? k then (k', v) :: rest else (k', v') :: map_set k v rest
  end.

Fixpoint map_has (k : string) (m : Map) : bool :=
  match m with
  | [] => false
  | (k', _) :: rest => (k' =? k) || map_has k rest
  end.

(** [m.get(k)], [undefined] when the key is absent. *)
Definition map_get (k : string) (m : Map) : JsVal := lookup k m.

Definition entries (m : Map) : list (string * JsVal) := m.

Definition keys (m : Map) : list string := List.map fst m.

End Js.

Import Js.

(** ** Structure flattener *)

(** The message of the RangeError of a call the stack has no room for. *)
Definition stack_error : string := "Maximum call stack size exceeded".

(** [String(v)] on a call stack with room for [frames] more nested
    calls: the conversion of an array calls [join], which converts the
    elements one call deeper. *)
Fixpoint StringOf_rec (frames : nat) (v : JsVal) : result string :=
  match v with
  | JArr items =>
      match frames with
      | O => Throw stack_error
      | S frames' => join (StringOf_rec frames') items
      end
  | _ => StringOf v
  end.

(** [collectSections(node, map)]; the [Map] it mutates is passed through.
    [frames] is the number of nested calls the call stack still has room
    for: a call of [collectSections] made when there is none throws a
    RangeError, and so does the conversion of an array. *)
Fixpoint collectSections_rec (frames : nat) (node : JsVal) (map : Map) : result Map :=
  match frames with
  | O => Throw stack_error
  | S frames' =>
      if truthy node && (typeof node =? "object") then
        ty <- member node "type" ;;
        map1 <- (if strict_eq ty (JStr "section") then
                   ident <- member node "identifier" ;;
                   if truthy ident then
                     key <- StringOf_rec frames' ident ;;
                     Ok (map_set key node map)
                   else Ok map
                 else Ok map) ;;
        children <- member node "children" ;;
        match children with
        | JArr items =>
            forOf items (fun child m => collectSections_rec frames' child m) map1
        | _ => Ok map1
        end
      else Ok map
  end.

(** The walk under a call stack with room for [frames] nested calls,
    [stack = Some frames], or under one that is deep enough for the
    payload at hand, [stack = None]. *)
Definition collectSections (stack : option nat) (node : JsVal) (map : Map)
  : result Map :=
  collectSections_rec
    (match stack with
     | Some frames => frames
     | None => S (depth node)
     end) node map.

Definition buildSectionMap (stack : option nat) (structure : JsVal) : result Map :=
  collectSections stack structure new_Map.

(** ** Snapshot differ *)

(** The [{received_on, reserved, size}] snapshot of one side. *)
Record Metadata : Type := {
  received_on : JsVal;
  reserved : JsVal;
  size : JsVal
}.

(** One entry of [changes].  [heading] is present on added and removed
    records only; [description] and the two snapshots on modified ones. *)
Record ChangeRecord : Type := {
  type : string;
  section : string;
  citation : string;
  part : JsVal;
  change_date : string;
  heading : option JsVal;
  description : option string;
  start_metadata : option Metadata;
  end_metadata : option Metadata
}.

Record Summary : Type := {
  total_changes : nat;
  sections_added : nat;
  sections_removed : nat;
  sections_modified : nat
}.

Record DiffResult : Type := {
  summary : Summary;
  changes : list ChangeRecord
}.

(** An optional string argument: [undefined] when the caller omits it. *)
Definition of_optional (o : option string) : JsVal :=
  match o with
  | Some s => JStr s
  | None => JUndef
  end.

(** [`${title} CFR ${id}`]. *)
Definition citation_of (title : Z) (id : string) : string :=
  (string_of_Z title ++ " CFR " ++ id)%string.

(** [node?.label_description ?? node?.label ?? null]. *)
Definition heading_of (node : JsVal) : JsVal :=
  nullish (nullish (opt_member node "label_description") (opt_member node "label")) JNull.

(** [a || b] on two conditions of which the second is only evaluated when
    the first is false. *)
Definition or_else (a b : result bool) : result bool :=
  x <- a ;; if x then Ok true else b.

(** [node?.k !== previous.k]. *)
Definition field_differs (node previous : JsVal) (k : string) : result bool :=
  p <- member previous k ;; Ok (strict_neq (opt_member node k) p).

(** First loop of [diffTitleStructures]: one pass over [endMap.entries()]. *)
Definition push_added (title : Z) (end_date : string) (part : option string)
    (startMap : Map) (entry : string * JsVal) (changes : list ChangeRecord)
  : result (list ChangeRecord) :=
  let '(id, node) := entry in
  if negb (map_has id startMap) then
    Ok (changes ++ [{|
      type := "added";
      section := id;
      citation := citation_of title id;
      part := nullish (nullish (of_optional part)
                               (opt_member (opt_member node "hierarchy") "part")) JNull;
      change_date := end_date;
      heading := Some (heading_of node);
      description := None;
      start_metadata := None;
      end_metadata := None |}])
  else Ok changes.

(** Second loop: one pass over [startMap.entries()]. *)
Definition push_removed (title : Z) (end_date : string) (part : option string)
    (endMap : Map) (entry : string * JsVal) (changes : list ChangeRecord)
  : result (list ChangeRecord) :=
  let '(id, node) := entry in
  if negb (map_has id endMap) then
    Ok (changes ++ [{|
      type := "removed";
      section := id;
      citation := citation_of title id;
      part := nullish (of_optional part) JNull;
      change_date := end_date;
      heading := Some (heading_of node);
      description := None;
      start_metadata := None;
      end_metadata := None |}])
  else Ok changes.

(** Third loop: one pass over [endMap.entries()] again. *)
Definition push_modified (title : Z) (end_date : string) (part : option string)
    (startMap : Map) (entry : string * JsVal) (changes : list ChangeRecord)
  : result (list ChangeRecord) :=
  let '(id, node) := entry in
  let previous := map_get id startMap in
  if truthy previous then
    differs <- or_else (field_differs node previous "label_description")
              (or_else (field_differs node previous "reserved")
              (or_else (field_differs node previous "received_on")
                       (field_differs node previous "size"))) ;;
    if differs then
      p_received_on <- member previous "received_on" ;;
      p_reserved <- member previous "reserved" ;;
      p_size <- member previous "size" ;;
      n_received_on <- member node "received_on" ;;
      n_reserved <- member node "reserved" ;;
      n_size <- member node "size" ;;
      Ok (changes ++ [{|
        type := "modified";
        section := id;
        citation := citation_of title id;
        part := nullish (of_optional part) JNull;
        change_date := end_date;
        heading := None;
        description := Some "Section metadata changed between snapshots.";
        start_metadata := Some {| received_on := nullish p_received_on JNull;
                                  reserved := nullish p_reserved JNull;
                                  size := nullish p_size JNull |};
        end_metadata := Some {| received_on := nullish n_received_on JNull;
                                reserved := nullish n_reserved JNull;
                                size := nullish n_size JNull |} |}])
    else Ok changes
  else Ok changes.

(** [change_types.includes(t)]. *)
Definition includes (change_types : list string) (t : string) : bool :=
  existsb (fun x => x =? t) change_types.

(** [cs.filter((c) => c.type === t).length]. *)
Definition count_type (t : string) (cs : list ChangeRecord) : nat :=
  List.length (filter (fun c => type c =? t) cs).

(** [change_types ? changes.filter(...) : changes]; an array, even an
    empty one, is truthy, so only an omitted argument skips the filter. *)
Definition filteredChanges (change_types : option (list string))
    (changes : list ChangeRecord) : list ChangeRecord :=
  match change_types with
  | Some wanted => filter (fun c => includes wanted (type c)) changes
  | None => changes
  end.

Definition summarize (filtered : list ChangeRecord) : Summary :=
  {| total_changes := List.length filtered;
     sections_added := count_type "added" filtered;
     sections_removed := count_type "removed" filtered;
     sections_modified := count_type "modified" filtered |}.

(** The change list before filtering, from the two flattened maps. *)
Definition compareMaps (title : Z) (end_date : string) (part : option string)
    (startMap endMap : Map) : result (list ChangeRecord) :=
  changes <- forOf (entries endMap) (push_added title end_date part startMap) [] ;;
  changes <- forOf (entries startMap) (push_removed title end_date part endMap) changes ;;
  forOf (entries endMap) (push_modified title end_date part startMap) changes.

(** The body of [diffTitleStructures] once both structure payloads have
    arrived; they are the results of two separate [res.json()] calls. *)
Definition diffStructures (stack : option nat) (title : Z) (end_date : string)
    (part : option string) (change_types : option (list string))
    (startStructure endStructure : JsVal) : result DiffResult :=
  startMap <- buildSectionMap stack startStructure ;;
  endMap <- buildSectionMap stack endStructure ;;
  changes <- compareMaps title end_date part startMap endMap ;;
  let filtered := filteredChanges change_types changes in
  Ok {| summary := summarize filtered; changes := filtered |}.

Section Remote.

Variable stack : option nat.

(** What [fetchStructureJson(date, title, part)] resolves to: the
    structure payload the remote API answers with, or the error
    [fetchJson] throws on a non-2xx answer. *)
Variable fetchStructureJson : string -> Z -> option string -> result JsVal.

(** [diffTitleStructures(title, start_date, end_date, part, change_types)].
    Both requests are issued; either failure rejects the whole call. *)
Definition diffTitleStructures (title : Z) (start_date end_date : string)
    (part : option string) (change_types : option (list string))
  : result DiffResult :=
  startStructure <- fetchStructureJson start_date title part ;;
  endStructure <- fetchStructureJson end_date title part ;;
  diffStructures stack title end_date part change_types
    startStructure endStructure.

End Remote.

(** ** Date utilities *)

Module Calendar.

(** The part of [Date.parse] that the language fixes: a calendar date
    written [YYYY-MM-DD] is midnight UTC of that day, in milliseconds
    since the epoch. *)
Definition digit (c : ascii) : option Z :=
  let n := Z.of_nat (nat_of_ascii c) in
  if (48 <=? n)%Z && (n <=? 57)%Z then Some (n - 48)%Z else None.

Definition is_leap (y : Z) : bool :=
  ((y mod 4 =? 0) && (negb (y mod 100 =? 0) || (y mod 400 =? 0)))%Z.

Definition days_in_month (y m : Z) : Z :=
  match m with
  | 1 | 3 | 5 | 7 | 8 | 10 | 12 => 31
  | 4 | 6 | 9 | 11 => 30
  | 2 => if is_leap y then 29 else 28
  | _ => 0
  end%Z.

(** Days from 1970-01-01 to the given civil date. *)
Definition days_from_civil (y m d : Z) : Z :=
  (let y' := if m <=? 2 then y - 1 else y in
   let era := y' / 400 in
   let yoe := y' - era * 400 in
   let doy := (153 * (if m >? 2 then m - 3 else m + 9) + 2) / 5 + d - 1 in
   let doe := yoe * 365 + yoe / 4 - yoe / 100 + doy in
   era * 146097 + doe - 719468)%Z.

Definition msPerDay : Z := 86400000.

(** Midnight UTC of a civil date, when the month and the day exist. *)
Definition civil_time (y m d : Z) : option Z :=
  if ((1 <=? m) && (m <=? 12) && (1 <=? d) && (d <=? days_in_month y m))%Z
  then Some (days_from_civil y m d * msPerDay)%Z
  else None.

Fixpoint number_of (cs : list ascii) (acc : Z) : option Z :=
  match cs with
  | [] => Some acc
  | c :: rest =>
      match digit c with
      | Some n => number_of rest (acc * 10 + n)%Z
      | None => None
      end
  end.

Definition iso_date (s : string) : option Z :=
  match list_ascii_of_string s with
  | [y1; y2; y3; y4; sep1; m1; m2; sep2; d1; d2] =>
      if Ascii.eqb sep1 "-" && Ascii.eqb sep2 "-" then
        match number_of [y1; y2; y3; y4] 0, number_of [m1; m2] 0,
              number_of [d1; d2] 0 with
        | Some y, Some m, Some d => civil_time y m d
        | _, _, _ => None
        end
      else None
  | _ => None
  end.

(** The two extreme time values a [Date] can hold. *)
Definition minTime : Z := (-8640000000000000)%Z.
Definition maxTime : Z := 8640000000000000%Z.

(** TimeClip: a time value outside the range is no date. *)
Definition TimeClip (t : Z) : option Z :=
  if ((minTime <=? t) && (t <=? maxTime))%Z then Some t else None.

(** The digits of a number's text before the decimal point. *)
Fixpoint before_point (cs : list ascii) : list ascii :=
  match cs with
  | [] => []
  | c :: rest => if Ascii.eqb c "." then [] else c :: before_point rest
  end.

(** The time value of [new Date(n)] for a number given by its text: the
    number cut to an integer, when it is finite and within the range.  A
    number prints with an exponent from [1e21] up, which is out of the
    range, and below [1e-6], which is cut to zero; [Infinity] is no
    date. *)
Definition number_time (text : string) : option Z :=
  let cs := list_ascii_of_string text in
  let negative := match cs with
                  | c :: _ => Ascii.eqb c "-"
                  | [] => false
                  end in
  let body := if negative then tl cs else cs in
  if existsb (Ascii.eqb "e") body then
    if existsb (Ascii.eqb "-") body then Some 0%Z else None
  else
    match before_point body with
    | [] => None
    | digits =>
        match number_of digits 0 with
        | Some n => TimeClip (if negative then - n else n)%Z
        | None => None
        end
    end.

End Calendar.

Section DateUtilities.

(** What [new Date(s)] makes of any other string (the remaining ISO
    forms and whatever the engine accepts besides): a time value, or
    [None] for an invalid date. *)
Variable other_parse : string -> option Z.

(** The time value of [new Date(s)]. *)
Definition Date_parse (s : string) : option Z :=
  match Calendar.iso_date s with
  | Some t => Some t
  | None =>
      match other_parse s with
      | Some t => Calendar.TimeClip t
      | None => None
      end
  end.

(** [toDate(value)]; a [Date] is represented by its time value. *)
Definition toDate (value : option string) : option Z :=
  match value with
  | None => None
  | Some s => if negb (truthy (JStr s)) then None else Date_parse s
  end.

(** [isWithinRange(target, start, end)]. *)
Definition isWithinRange (target start end_ : option string) : bool :=
  let t := toDate target in
  let s := toDate start in
  let e := toDate end_ in
  match t with
  | None => false
  | Some t =>
      if match s with Some s => (t <? s)%Z | None => false end then false
      else if match e with Some e => (t >? e)%Z | None => false end then false
      else true
  end.

(** [rangesOverlap(filterStart, filterEnd, itemStart, itemEnd)]. *)
Definition rangesOverlap (filterStart filterEnd itemStart itemEnd : option string)
  : bool :=
  let fs := toDate filterStart in
  let fe := toDate filterEnd in
  let is_ := toDate itemStart in
  let ie := toDate itemEnd in
  let effectiveItemStart :=
    match is_ with Some t => t | None => Calendar.minTime end in
  let effectiveItemEnd :=
    match ie with Some t => t | None => Calendar.maxTime end in
  if match fs with Some fs => (effectiveItemEnd <? fs)%Z | None => false end
  then false
  else if match fe with Some fe => (effectiveItemStart >? fe)%Z | None => false end
  then false
  else true.

End DateUtilities.

(** ** Composite tool handlers *)

(** The entry of [titles.json] for one title, as far as the handlers read
    it: [latest_issue_date] is a date string when the entry has one. *)
Record TitleMeta : Type := {
  latest_issue_date : option string
}.

Record Params : Type := {
  param_title : Z;
  param_start_date : string;
  param_end_date : string;
  param_part : JsVal;
  param_days : option Z;
  param_change_types : option (list string)
}.

Record Payload : Type := {
  endpoint : string;
  params : Params;
  payload_summary : Summary;
  payload_changes : list ChangeRecord
}.

(** What a handler returns: [jsonText(payload)] or [errorText(message)]. *)
Inductive ToolResponse : Type :=
| jsonText (payload : Payload)
| errorText (message : string).

(** [try { ... } catch (err) { return errorText(prefix + err.message) }];
    the errors at hand (a failed request, a [TypeError], a [RangeError])
    all carry a message. *)
Definition try_catch (prefix : string) (body : result Payload) : ToolResponse :=
  match body with
  | Ok p => jsonText p
  | Throw m => errorText (prefix ++ m)%string
  end.

Section Handlers.

Variable stack : option nat.

Variable fetchStructureJson : string -> Z -> option string -> result JsVal.

(** What [fetchTitleMeta(title)] resolves to: the entry of the title in
    [titles.json], [None] when the listing has none, or the error of the
    request. *)
Variable fetchTitleMeta : Z -> result (option TitleMeta).

(** [new Date().toISOString().slice(0, 10)] at the time of the call. *)
Variable today : string.

(** [new Date(end)], [setDate(getDate() - daysBack)],
    [toISOString().slice(0, 10)]: the start of the window, or the
    [RangeError] of an invalid date. *)
Variable daysBefore : string -> Z -> result string.

(** [meta?.latest_issue_date]. *)
Definition latestIssue_of (meta : option TitleMeta) : option string :=
  match meta with
  | Some m => latest_issue_date m
  | None => None
  end.

(** Handler of [ecfr_compare_title_dates]. *)
Definition ecfr_compare_title_dates (title : Z) (start_date end_date : string)
    (part : option string) (change_types : option (list string)) : ToolResponse :=
  try_catch "Error comparing eCFR title snapshots: "
    (meta <- fetchTitleMeta title ;;
     let latestIssue := latestIssue_of meta in
     let effectiveEnd :=
       match latestIssue with
       | Some latest =>
           if truthy (JStr latest) && String.ltb latest end_date
           then latest else end_date
       | None => end_date
       end in
     r <- diffTitleStructures stack fetchStructureJson title start_date effectiveEnd
            part change_types ;;
     Ok {| endpoint := "composite: structure comparison";
           params := {| param_title := title;
                        param_start_date := start_date;
                        param_end_date := effectiveEnd;
                        param_part := nullish (of_optional part) JNull;
                        param_days := None;
                        param_change_types := change_types |};
           payload_summary := summary r;
           payload_changes := changes r |}).

(** Handler of [ecfr_get_recent_changes]. *)
Definition ecfr_get_recent_changes (title : Z) (days : option Z)
    (part : option string) (end_date : option string)
    (change_types : option (list string)) : ToolResponse :=
  try_catch "Error fetching recent eCFR changes: "
    (meta <- fetchTitleMeta title ;;
     let latestIssue := latestIssue_of meta in
     let requestedEnd := match end_date with Some e => e | None => today end in
     let end_ :=
       match latestIssue with
       | Some latest =>
           if truthy (JStr latest) && String.ltb latest requestedEnd
           then latest else requestedEnd
       | None => requestedEnd
       end in
     let daysBack := match days with Some d => d | None => 180%Z end in
     startStr <- daysBefore end_ daysBack ;;
     r <- diffTitleStructures stack fetchStructureJson title startStr end_
            part change_types ;;
     Ok {| endpoint := "composite: recent change window";
           params := {| param_title := title;
                        param_start_date := startStr;
                        param_end_date := end_;
                        param_part := nullish (of_optional part) JNull;
                        param_days := Some daysBack;
                        param_change_types := change_types |};
           payload_summary := summary r;
           payload_changes := changes r |}).

End Handlers.

(** ** The program under a call stack that is deep enough *)

(** The flattener, the differ and the two handlers when the call stack
    has room for the walk of whatever payload arrives. *)
Module Exact.

Definition collectSections : JsVal -> Map -> result Map :=
  collectSections None.

Definition buildSectionMap : JsVal -> result Map :=
  buildSectionMap None.

Definition diffStructures :
  Z -> string -> option string -> option (list string) -> JsVal -> JsVal ->
  result DiffResult :=
  diffStructures None.

Definition diffTitleStructures :
  (string -> Z -> option string -> result JsVal) ->
  Z -> string -> string -> option string -> option (list string) ->
  result DiffResult :=
  diffTitleStructures None.

Definition ecfr_compare_title_dates :
  (string -> Z -> option string -> result JsVal) ->
  (Z -> result (option TitleMeta)) ->
  Z -> string -> string -> option string -> option (list string) ->
  ToolResponse :=
  ecfr_compare_title_dates None.

Definition ecfr_get_recent_changes :
  (string -> Z -> option string -> result JsVal) ->
  (Z -> result (option TitleMeta)) -> string ->
  (string -> Z -> result string) ->
  Z -> option Z -> option string -> option string -> option (list string) ->
  ToolResponse :=
  ecfr_get_recent_changes None.

End Exact.

(** ** Vocabulary of the statements *)

(** The children the walk descends into: the elements of [children] when
    the node is an object and [children] is an array. *)
Definition children_of (node : JsVal) : list JsVal :=
  match node with
  | JObj props =>
      match lookup "children" props with
      | JArr items => items
      | _ => []
      end
  | _ => []
  end.

(** [Subnode n root]: [n] is [root] or sits below it through [children]
    arrays, whatever the [type] of the nodes in between. *)
Inductive Subnode : JsVal -> JsVal -> Prop :=
| Subnode_self (root : JsVal) : Subnode root root
| Subnode_child (n c root : JsVal) :
    In c (children_of root) -> Subnode n c -> Subnode n root.

(** A node that is indexed: an object whose [type] is ["section"] and
    whose [identifier] is truthy (for a string: not empty). *)
Definition is_section (node : JsVal) : bool :=
  match node with
  | JObj props =>
      strict_eq (lookup "type" props) (JStr "section")
      && truthy (lookup "identifier" props)
  | _ => false
  end.

(** The key under which an indexed node is stored: the string of its
    identifier, when the identifier has one. *)
Definition section_key (node : JsVal) : string :=
  match StringOf (opt_member node "identifier") with
  | Ok key => key
  | Throw _ => ""
  end.

(** The map as a sequence of [set] calls. *)
Definition set_all (nodes : list JsVal) (map : Map) : Map :=
  fold_left (fun m n => map_set (section_key n) n m) nodes map.

(** The nodes the walk visits, in the order in which it visits them:
    a node, then what is below its first child, then below the second,
    and so on. *)
Fixpoint visited_rec (fuel : nat) (node : JsVal) : list JsVal :=
  match fuel with
  | O => []
  | S fuel' => node :: List.flat_map (visited_rec fuel') (children_of node)
  end.

Definition visited (node : JsVal) : list JsVal :=
  visited_rec (S (depth node)) node.

(** The indexed nodes of a tree, in the order of the visit. *)
Definition sections_of (root : JsVal) : list JsVal :=
  filter is_section (visited root).

(** The map of a tree all of whose identifiers have a string: every
    indexed node is [set] under its key, in the order of the visit. *)
Definition flat (root : JsVal) : Map :=
  set_all (sections_of root) new_Map.

(** The last node of a sequence whose key is [k], [undefined] if there
    is none. *)
Definition last_with_key (k : string) (nodes : list JsVal) : JsVal :=
  match find (fun n => section_key n =? k) (rev nodes) with
  | Some n => n
  | None => JUndef
  end.

Definition is_object (v : JsVal) : bool :=
  match v with JObj _ => true | _ => false end.

(** A value that [===] compares by content: anything but an array or an
    object. *)
Definition is_primitive (v : JsVal) : bool :=
  match v with
  | JArr _ | JObj _ => false
  | _ => true
  end.

(** What a flattened map looks like: distinct keys, and only indexed
    nodes, hence objects, as values. *)
Definition flattened (map : Map) : Prop :=
  NoDup (keys map) /\
  forall k n, In (k, n) (entries map) ->
    is_section n = true /\ k = section_key n.

(** The reading of "the map contains exactly the nodes with type
    section and a non-empty identifier": the values of the map are those
    nodes of the tree, all of them and nothing else. *)
Definition holds_exactly_sections (root : JsVal) (map : Map) : Prop :=
  forall n, (exists k, In (k, n) (entries map)) <->
            (Subnode n root /\ is_section n = true).

(** *** When the walk fails *)

(** A value that [String] converts: no object with its own [toString],
    at any depth of arrays. *)
Fixpoint convertible (v : JsVal) : bool :=
  match v with
  | JArr items => forallb convertible items
  | JObj props => negb (has_own "toString" props)
  | _ => true
  end.

(** A payload all of whose indexed nodes have an identifier that
    converts. *)
Definition converts (root : JsVal) : bool :=
  forallb (fun n => convertible (opt_member n "identifier")) (sections_of root).

(** The calls the conversion of a value nests: one for each level of
    arrays. *)
Fixpoint calls_of_String (v : JsVal) : nat :=
  match v with
  | JArr items => S (list_max (List.map calls_of_String items))
  | _ => 0
  end.

(** The calls the walk of a tree nests: one for the node, and below it
    the deepest of the conversion of its identifier, when the node is
    indexed, and of the walks of its children. *)
Fixpoint nesting_rec (fuel : nat) (node : JsVal) : nat :=
  match fuel with
  | O => 0
  | S fuel' =>
      S (Nat.max
           (if is_section node
            then calls_of_String (opt_member node "identifier") else 0)
           (list_max (List.map (nesting_rec fuel') (children_of node))))
  end.

Definition nesting (node : JsVal) : nat := nesting_rec (S (depth node)) node.

(** The call stack has room for the walk of a payload. *)
Definition fits (stack : option nat) (root : JsVal) : bool :=
  match stack with
  | Some frames => (nesting root <=? frames)%nat
  | None => true
  end.

(** What the flattener throws with, and when: the TypeError of an
    identifier that does not convert, or the RangeError of a call stack
    without room for the walk. *)
Definition flatten_failure (stack : option nat) (root : JsVal)
    (message : string) : Prop :=
  (message = conversion_error /\ converts root = false) \/
  (message = stack_error /\ fits stack root = false).


(** The same under a call stack of a given depth, where the comparison
    can also throw the RangeError of one of the two walks. *)
Definition comparison_failure (stack : option nat)
    (startStructure endStructure : JsVal) (message : string) : Prop :=
  (message = conversion_error /\
   converts startStructure && converts endStructure = false) \/
  (message = stack_error /\
   fits stack startStructure && fits stack endStructure = false).

(** *** The change list, read as three filtered passes *)

(** [v ?? null]. *)
Definition or_null (v : JsVal) : JsVal :=
  match v with
  | JUndef | JNull => JNull
  | _ => v
  end.

(** The caller's part, or null. *)
Definition part_or_null (part : option string) : JsVal :=
  match part with
  | Some p => JStr p
  | None => JNull
  end.

(** The caller's part, else the part of the node's hierarchy, else
    null. *)
Definition part_or_hierarchy (part : option string) (node : JsVal) : JsVal :=
  match part with
  | Some p => JStr p
  | None => or_null (opt_member (opt_member node "hierarchy") "part")
  end.

(** The heading of a node: its [label_description], else its [label],
    else null. *)
Definition heading_text (node : JsVal) : JsVal :=
  match opt_member node "label_description" with
  | JUndef | JNull => or_null (opt_member node "label")
  | label_description => label_description
  end.

(** The [{received_on, reserved, size}] of a node, null for a field the
    node lacks. *)
Definition metadata_of (node : JsVal) : Metadata :=
  {| received_on := or_null (opt_member node "received_on");
     reserved := or_null (opt_member node "reserved");
     size := or_null (opt_member node "size") |}.

Definition added_record (title : Z) (end_date : string) (part : option string)
    (entry : string * JsVal) : ChangeRecord :=
  {| type := "added";
     section := fst entry;
     citation := (string_of_Z title ++ " CFR " ++ fst entry)%string;
     part := part_or_hierarchy part (snd entry);
     change_date := end_date;
     heading := Some (heading_text (snd entry));
     description := None;
     start_metadata := None;
     end_metadata := None |}.

Definition removed_record (title : Z) (end_date : string) (part : option string)
    (entry : string * JsVal) : ChangeRecord :=
  {| type := "removed";
     section := fst entry;
     citation := (string_of_Z title ++ " CFR " ++ fst entry)%string;
     part := part_or_null part;
     change_date := end_date;
     heading := Some (heading_text (snd entry));
     description := None;
     start_metadata := None;
     end_metadata := None |}.

Definition modified_record (title : Z) (end_date : string) (part : option string)
    (startMap : Map) (entry : string * JsVal) : ChangeRecord :=
  {| type := "modified";
     section := fst entry;
     citation := (string_of_Z title ++ " CFR " ++ fst entry)%string;
     part := part_or_null part;
     change_date := end_date;
     heading := None;
     description := Some "Section metadata changed between snapshots.";
     start_metadata := Some (metadata_of (map_get (fst entry) startMap));
     end_metadata := Some (metadata_of (snd entry)) |}.

(** One of [label_description], [reserved], [received_on], [size] is
    [!==] between the two versions of a node. *)
Definition metadata_differs (node previous : JsVal) : bool :=
  strict_neq (opt_member node "label_description")
             (opt_member previous "label_description")
  || strict_neq (opt_member node "reserved") (opt_member previous "reserved")
  || strict_neq (opt_member node "received_on") (opt_member previous "received_on")
  || strict_neq (opt_member node "size") (opt_member previous "size").

Definition is_added (startMap : Map) (entry : string * JsVal) : bool :=
  negb (map_has (fst entry) startMap).

Definition is_removed (endMap : Map) (entry : string * JsVal) : bool :=
  negb (map_has (fst entry) endMap).

Definition is_modified (startMap : Map) (entry : string * JsVal) : bool :=
  map_has (fst entry) startMap
  && metadata_differs (snd entry) (map_get (fst entry) startMap).

Definition added_records (title : Z) (end_date : string) (part : option string)
    (startMap endMap : Map) : list ChangeRecord :=
  List.map (added_record title end_date part)
           (filter (is_added startMap) (entries endMap)).

Definition removed_records (title : Z) (end_date : string) (part : option string)
    (startMap endMap : Map) : list ChangeRecord :=
  List.map (removed_record title end_date part)
           (filter (is_removed endMap) (entries startMap)).

Definition modified_records (title : Z) (end_date : string) (part : option string)
    (startMap endMap : Map) : list ChangeRecord :=
  List.map (modified_record title end_date part startMap)
           (filter (is_modified startMap) (entries endMap)).

(** The records of a comparison before any filter: the added ones, then
    the removed ones, then the modified ones. *)
Definition all_records (title : Z) (end_date : string) (part : option string)
    (startStructure endStructure : JsVal) : list ChangeRecord :=
  added_records title end_date part (flat startStructure) (flat endStructure)
  ++ removed_records title end_date part (flat startStructure) (flat endStructure)
  ++ modified_records title end_date part (flat startStructure) (flat endStructure).

(** The records whose type is in a list. *)
Definition of_types (wanted : list string) (cs : list ChangeRecord)
  : list ChangeRecord :=
  filter (fun c => if in_dec string_dec (type c) wanted then true else false) cs.

(** The records a filter keeps: all of them when it is omitted. *)
Definition kept_records (change_types : option (list string))
    (cs : list ChangeRecord) : list ChangeRecord :=
  match change_types with
  | Some wanted => of_types wanted cs
  | None => cs
  end.

(** Number of records of one type. *)
Definition records_typed (t : string) (cs : list ChangeRecord) : nat :=
  List.length (filter (fun c => type c =? t) cs).

(** The four counts of a list of records. *)
Definition tally (cs : list ChangeRecord) : Summary :=
  {| total_changes := List.length cs;
     sections_added := records_typed "added" cs;
     sections_removed := records_typed "removed" cs;
     sections_modified := records_typed "modified" cs |}.

(** What a comparison returns when it returns. *)
Definition comparison (title : Z) (end_date : string) (part : option string)
    (change_types : option (list string)) (startStructure endStructure : JsVal)
  : DiffResult :=
  let kept := kept_records change_types
                (all_records title end_date part startStructure endStructure) in
  {| summary := tally kept; changes := kept |}.

(** Number of records of one type about one section. *)
Definition records_of (t id : string) (cs : list ChangeRecord) : nat :=
  List.length (filter (fun c => (type c =? t) && (section c =? id)) cs).

(** The three types the differ can emit. *)
Definition emitted_type (t : string) : Prop :=
  t = "added" \/ t = "removed" \/ t = "modified".



(** *** Sample payloads *)

Definition section_node (id label : string) : JsVal :=
  JObj [("type", JStr "section"); ("identifier", JStr id); ("label", JStr label)].

(** Two sections of one part carrying the same identifier. *)
Definition twice_1306_04 : JsVal :=
  JObj [("type", JStr "part");
        ("children", JArr [section_node "1306.04" "first";
                           section_node "1306.04" "second"])].

(** A section whose identifier is an object with a [toString] entry. *)
Definition section_keyed_by_object : JsVal :=
  JObj [("type", JStr "section");
        ("identifier", JObj [("toString", JNum "1")])].

Definition title_of (sections : list JsVal) : JsVal :=
  JObj [("type", JStr "title"); ("identifier", JStr "21");
        ("children", JArr [JObj [("type", JStr "part");
                                 ("identifier", JStr "1306");
                                 ("children", JArr sections)]])].

(** The scenario of the specification: 1306.04 becomes reserved and
    1306.05 appears. *)
Definition start_1306 : JsVal :=
  title_of [JObj [("type", JStr "section"); ("identifier", JStr "1306.04");
                  ("label_description", JStr "A"); ("reserved", JBool false)]].

Definition end_1306 : JsVal :=
  title_of [JObj [("type", JStr "section"); ("identifier", JStr "1306.04");
                  ("label_description", JStr "A"); ("reserved", JBool true)];
            JObj [("type", JStr "section"); ("identifier", JStr "1306.05");
                  ("label_description", JStr "B")]].

(** A section that knows its part through [hierarchy]. *)
Definition section_1306_07 : JsVal :=
  JObj [("type", JStr "section"); ("identifier", JStr "1306.07");
        ("label_description", JStr "Administering or dispensing of narcotic drugs.");
        ("hierarchy", JObj [("title", JStr "21"); ("part", JStr "1306")])].

(** A section whose [size] is an array instead of a number. *)
Definition section_sized_by_array : JsVal :=
  JObj [("type", JStr "section"); ("identifier", JStr "1306.04");
        ("label_description", JStr "A"); ("size", JArr [])].

(** A structure document of [levels] divisions, one inside the other,
    around a single section. *)
Fixpoint chain (levels : nat) : JsVal :=
  match levels with
  | O => JObj [("type", JStr "section"); ("identifier", JStr "1306.04");
               ("label_description", JStr "A"); ("reserved", JBool false)]
  | S levels' =>
      JObj [("type", JStr "subpart"); ("identifier", JStr "A");
            ("children", JArr [chain levels'])]
  end.

(** [c.part], for statements in which [part] names the caller's argument. *)
Definition record_part (c : ChangeRecord) : JsVal := part c.

(** *** The clamp, in the words of the specification *)

(** [a] is lexicographically greater than [b]. *)
Definition lex_greater (a b : string) : bool :=
  match String.compare a b with
  | Gt => true
  | _ => false
  end.

(** The latest issue date is known: the title has an entry, and the
    entry has a date that is not the empty string. *)
Definition is_known (latestIssueDate : option string) : bool :=
  match latestIssueDate with
  | Some latest => negb (latest =? "")
  | None => false
  end.

Definition clampEndDate (requested : string) (latestIssueDate : option string)
  : string :=
  match latestIssueDate with
  | Some latest =>
      if is_known latestIssueDate && lex_greater requested latest
      then latest else requested
  | None => requested
  end.

(** The payload of a comparison run between [start_date] and the
    effective end date [end_date]. *)
Definition report (name : string) (title : Z) (start_date end_date : string)
    (part : option string) (days : option Z)
    (change_types : option (list string)) (r : DiffResult) : Payload :=
  {| endpoint := name;
     params := {| param_title := title;
                  param_start_date := start_date;
                  param_end_date := end_date;
                  param_part := part_or_null part;
                  param_days := days;
                  param_change_types := change_types |};
     payload_summary := summary r;
     payload_changes := changes r |}.

(** The answer of a comparison run from [start_date] to [end_date],
    both requests made at those dates and both dates echoed. *)
Definition comparison_at (stack : option nat)
    (fetchStructureJson : string -> Z -> option string -> result JsVal)
    (title : Z) (start_date end_date : string) (part : option string)
    (change_types : option (list string)) : ToolResponse :=
  try_catch "Error comparing eCFR title snapshots: "
    (r <- diffTitleStructures stack fetchStructureJson title start_date end_date
            part change_types ;;
     Ok (report "composite: structure comparison" title start_date end_date
           part None change_types r)).

(** The answer of a recent-changes run up to [end_date], over the given
    number of days or 180. *)
Definition recent_changes_at (stack : option nat)
    (fetchStructureJson : string -> Z -> option string -> result JsVal)
    (daysBefore : string -> Z -> result string)
    (title : Z) (days : option Z) (end_date : string) (part : option string)
    (change_types : option (list string)) : ToolResponse :=
  let daysBack := match days with Some d => d | None => 180%Z end in
  try_catch "Error fetching recent eCFR changes: "
    (startStr <- daysBefore end_date daysBack ;;
     r <- diffTitleStructures stack fetchStructureJson title startStr end_date
            part change_types ;;
     Ok (report "composite: recent change window" title startStr end_date
           part (Some daysBack) change_types r)).

(** The listing answers with an entry for the title whose
    [latest_issue_date] is the given date. *)
Definition listing_with (latest : string) : Z -> result (option TitleMeta) :=
  fun _ => Ok (Some {| latest_issue_date := Some latest |}).

(** *** Vocabulary of the further properties *)



(** ** Callbacks that can throw *)

(** [items.find(p)] and [items.filter(p)] for a callback that can throw:
    the callback runs on the elements in order and its first exception
    ends the call. *)
Fixpoint findE {A : Type} (p : A -> result bool) (l : list A)
  : result (option A) :=
  match l with
  | [] => Ok None
  | x :: rest => b <- p x ;; if b then Ok (Some x) else findE p rest
  end.

Fixpoint filterE {A : Type} (p : A -> result bool) (l : list A)
  : result (list A) :=
  match l with
  | [] => Ok []
  | x :: rest =>
      b <- p x ;;
      kept <- filterE p rest ;;
      Ok (if b then x :: kept else kept)
  end.

(** What a tool answers: [jsonText(payload)] or [errorText(message)]. *)
Inductive Answer (A : Type) : Type :=
| answer (payload : A)
| failure (message : string).
Arguments answer {A} payload.
Arguments failure {A} message.

(** [try { ... } catch (err) { return errorText(prefix + err.message) }]. *)
Definition catching {A : Type} (prefix : string) (body : result A) : Answer A :=
  match body with
  | Ok p => answer p
  | Throw m => failure (prefix ++ m)%string
  end.

(** ** Retrieval adapter *)

Module Adapter.

(** What the handlers read of a [fetch] response.  [ok] is the getter of
    the Fetch standard: the status is in the range 200 to 299.  [text]
    and [json] are the outcomes of [res.text()] and [res.json()]. *)
Record Response : Type := {
  status : Z;
  statusText : string;
  text : result string;
  json : result JsVal
}.

Definition ok (res : Response) : bool :=
  ((200 <=? status res) && (status res <=? 299))%Z.

Section Requests.

(** [fetch(url)]: a response, or the rejection of a request that could
    not be made. *)
Variable fetch : string -> result Response.

Variable encodeURIComponent : string -> string.

(** The string of [new URL(path, ECFR_BASE)] after one
    [searchParams.set(key, value)] for each pair, in order. *)
Variable href : string -> list (string * string) -> string.

(** [fetchJson(url)]; the dash of the message is written in UTF-8. *)
Definition fetchJson (url : string) : result JsVal :=
  res <- fetch url ;;
  if negb (ok res) then
    let body := match text res with Ok b => b | Throw _ => "" end in
    Throw ("HTTP " ++ string_of_Z (status res) ++ " " ++ statusText res
           ++ " from " ++ url
           ++ (if truthy (JStr body)
               then " — body: " ++ slice_to 500 body
               else ""))%string
  else json res.

(** [fetchStructureJson(date, title, part)]. *)
Definition fetchStructureJson (date : string) (title : Z) (part : option string)
  : result JsVal :=
  let path := ("/api/versioner/v1/structure/" ++ encodeURIComponent date
               ++ "/title-" ++ encodeURIComponent (string_of_Z title)
               ++ ".json")%string in
  fetchJson (href path
               (match part with
                | Some p => if truthy (JStr p) then [("part", p)] else []
                | None => []
                end)).

(** [fetchTitleMeta(title)], on the payload itself: the first entry of
    [titles] whose [number] prints as the title does. *)
Definition fetchTitleMeta (title : Z) : result JsVal :=
  data <- fetchJson (href "/api/versioner/v1/titles.json" []) ;;
  meta <- match opt_member data "titles" with
          | JArr titles =>
              found <- findE (fun t => s <- StringOf (opt_member t "number") ;;
                                       Ok (s =? string_of_Z title)) titles ;;
              Ok (match found with Some t => t | None => JUndef end)
          | _ => Ok (JBool false)
          end ;;
  Ok (nullish meta JNull).

(** The predicate of [ecfr_get_corrections]. *)
Definition correction_kept (title : option Z)
    (date error_corrected_date : option string) (c : JsVal) : result bool :=
  rejected <- match title with
              | Some t =>
                  if truthy (JNum (string_of_Z t))
                  then s <- StringOf (opt_member c "title") ;;
                       Ok (negb (s =? string_of_Z t))
                  else Ok false
              | None => Ok false
              end ;;
  if rejected then Ok false
  else
    let corrDate := opt_member c "error_corrected" in
    let occDate := opt_member c "error_occurred" in
    if match error_corrected_date with
       | Some d => truthy (JStr d) && strict_neq corrDate (JStr d)
       | None => false
       end
    then Ok false
    else if match date with
            | Some d => truthy (JStr d) && strict_neq corrDate (JStr d)
                        && strict_neq occDate (JStr d)
            | None => false
            end
    then Ok false
    else Ok true.

Record CorrectionsPayload : Type := {
  corrections_endpoint : string;
  corrections_title : option Z;
  corrections_date : option string;
  corrections_error_corrected_date : option string;
  meta_total : nat;
  meta_filtered : nat;
  corrections : list JsVal
}.

(** Handler of [ecfr_get_corrections]. *)
Definition ecfr_get_corrections (title : option Z)
    (date error_corrected_date : option string) : Answer CorrectionsPayload :=
  catching "Error fetching eCFR corrections: "
    (data <- fetchJson (href "/api/admin/v1/corrections.json" []) ;;
     let listing := match opt_member data "ecfr_corrections" with
                    | JArr items => items
                    | _ => []
                    end in
     filtered <- filterE (correction_kept title date error_corrected_date)
                   listing ;;
     Ok {| corrections_endpoint := "/api/admin/v1/corrections.json";
           corrections_title := title;
           corrections_date := date;
           corrections_error_corrected_date := error_corrected_date;
           meta_total := List.length listing;
           meta_filtered := List.length filtered;
           corrections := filtered |}).

End Requests.

End Adapter.

(** Two records that agree on everything but [part]. *)
Definition same_but_part (c c' : ChangeRecord) : Prop :=
  type c = type c' /\ section c = section c' /\ citation c = citation c' /\
  change_date c = change_date c' /\ heading c = heading c' /\
  description c = description c' /\
  start_metadata c = start_metadata c' /\ end_metadata c = end_metadata c'.

(** A callback's answer read as a test: an exception is no [true]. *)
Definition yes (r : result bool) : bool :=
  match r with
  | Ok b => b
  | Throw _ => false
  end.

(** An optional string argument that is given and not empty. *)
Definition given (o : option string) (s : string) : Prop :=
  o = Some s /\ s <> "".

(** ** Search within a date range *)

Module Search.

Section Filter.

Variable fetch : string -> result Adapter.Response.
Variable href : string -> list (string * string) -> string.
Variable other_parse : string -> option Z.

(** [toDate(value)] on a value of a payload.  [new Date(value)] parses
    a string, takes a number, cut to an integer, as a time value and
    [true] as 1, and converts an array or an object to a string first. *)
Definition toDateOf (value : JsVal) : result (option Z) :=
  if negb (truthy value) then Ok None
  else match value with
       | JStr s => Ok (Date_parse other_parse s)
       | JNum text => Ok (Calendar.number_time text)
       | JBool _ => Ok (Calendar.TimeClip 1)
       | _ => s <- StringOf value ;; Ok (Date_parse other_parse s)
       end.

(** [rangesOverlap(filterStart, filterEnd, itemStart, itemEnd)] with the
    item bounds read from a payload. *)
Definition rangesOverlapOf (filterStart filterEnd : option string)
    (itemStart itemEnd : JsVal) : result bool :=
  let fs := toDate other_parse filterStart in
  let fe := toDate other_parse filterEnd in
  is_ <- toDateOf itemStart ;;
  ie <- toDateOf itemEnd ;;
  let effectiveItemStart :=
    match is_ with Some t => t | None => Calendar.minTime end in
  let effectiveItemEnd :=
    match ie with Some t => t | None => Calendar.maxTime end in
  if match fs with Some fs => (effectiveItemEnd <? fs)%Z | None => false end
  then Ok false
  else if match fe with Some fe => (effectiveItemStart >? fe)%Z | None => false end
  then Ok false
  else Ok true.

(** The callback of [data.results.filter]. *)
Definition entry_kept (title : option Z) (start_date end_date : option string)
    (entry : JsVal) : result bool :=
  matchesTitle <-
    match title with
    | None => Ok true
    | Some t =>
        let its := opt_member (opt_member entry "hierarchy") "title" in
        if truthy its
        then s <- StringOf its ;; Ok (s =? string_of_Z t)
        else Ok false
    end ;;
  let starts := opt_member entry "starts_on" in
  let ends := opt_member entry "ends_on" in
  matchesDate <-
    (if negb (truthy (of_optional start_date))
        && negb (truthy (of_optional end_date))
     then Ok true
     else rangesOverlapOf start_date end_date starts ends) ;;
  Ok (matchesTitle && matchesDate).

Record SearchPayload : Type := {
  search_endpoint : string;
  search_query : string;
  search_title : option Z;
  search_start_date : option string;
  search_end_date : option string;
  search_order : string;
  search_results : Z;
  data_meta : JsVal;
  filtered_count : nat;
  results : list JsVal
}.

(** Handler of [ecfr_search_with_date_range]. *)
Definition ecfr_search_with_date_range (query : string) (title : option Z)
    (start_date end_date : option string) (results : option Z)
    (order : option string) : Answer SearchPayload :=
  catching "Error calling eCFR search with date range: "
    (data <- Adapter.fetchJson fetch
               (href "/api/search/v1/results.json"
                  [("query", query);
                   ("results",
                    string_of_Z (match results with Some n => n | None => 50%Z end));
                   ("order",
                    match order with Some o => o | None => "relevance" end)]) ;;
     filtered <- match opt_member data "results" with
                 | JArr items =>
                     filterE (entry_kept title start_date end_date) items
                 | _ => Ok []
                 end ;;
     Ok {| search_endpoint := "/api/search/v1/results.json";
           search_query := query;
           search_title := title;
           search_start_date := start_date;
           search_end_date := end_date;
           search_order := match order with Some o => o | None => "relevance" end;
           search_results := match results with Some n => n | None => 50%Z end;
           data_meta := nullish (opt_member data "meta") (JObj []);
           filtered_count := List.length filtered;
           results := filtered |}).

End Filter.

End Search.

(** An optional string argument that is omitted or empty. *)
Definition omitted (o : option string) : Prop := o = None \/ o = Some "".

(** A value that is [undefined] or [null]. *)
Definition is_nullish (v : JsVal) : bool :=
  match v with
  | JUndef | JNull => true
  | _ => false
  end.

(** The elements of [l] that are not in [seen], each at its first
    occurrence. *)
Fixpoint first_occurrences (seen l : list string) : list string :=
  match l with
  | [] => []
  | k :: rest =>
      if existsb (fun x => x =? k) seen then first_occurrences seen rest
      else k :: first_occurrences (k :: seen) rest
  end.

(** *** Calendar vocabulary *)

(** Days from the epoch to the first of January. *)
Definition year_start (y : Z) : Z := Calendar.days_from_civil y 1 1.

(** A month and a day that exist in year [y]. *)
Definition valid_date (y m d : Z) : Prop :=
  (1 <= m <= 12 /\ 1 <= d <= Calendar.days_in_month y m)%Z.

(** The shape of a string that [iso_date] reads, and the date read. *)
Inductive iso_parts (s : string) (t : Z) : Prop :=
| iso_parts_intro (c1 c2 c3 c4 c5 c6 c7 c8 : ascii)
    (x1 x2 x3 x4 x5 x6 x7 x8 : Z) :
    s = String c1 (String c2 (String c3 (String c4 (String "-"%char
          (String c5 (String c6 (String "-"%char
             (String c7 (String c8 EmptyString))))))))) ->
    (Calendar.digit c1 = Some x1 /\ Calendar.digit c2 = Some x2 /\
     Calendar.digit c3 = Some x3 /\ Calendar.digit c4 = Some x4 /\
     Calendar.digit c5 = Some x5 /\ Calendar.digit c6 = Some x6 /\
     Calendar.digit c7 = Some x7 /\ Calendar.digit c8 = Some x8) ->
    valid_date ((((0 * 10 + x1) * 10 + x2) * 10 + x3) * 10 + x4)%Z
               ((0 * 10 + x5) * 10 + x6)%Z ((0 * 10 + x7) * 10 + x8)%Z ->
    t = (Calendar.days_from_civil
           ((((0 * 10 + x1) * 10 + x2) * 10 + x3) * 10 + x4)
           ((0 * 10 + x5) * 10 + x6) ((0 * 10 + x7) * 10 + x8)
         * Calendar.msPerDay)%Z ->
    iso_parts s t.


(** ** Locating the content of a section *)

Module Content.

(** Where the first part of the handler of [ecfr_get_section_content]
    ends: with [return errorText(message)], or at the content request
    with the index and the search result it has found. *)
Inductive Located : Type :=
| respond (message : string)
| request_content (targetIndex matchedResult : JsVal).

Section Resolution.

Variable fetch : string -> result Adapter.Response.
Variable href : string -> list (string * string) -> string.

(** [its && String(its) === wanted], read as a test. *)
Definition prints_as (its : JsVal) (wanted : string) : result bool :=
  if truthy its then s <- StringOf its ;; Ok (s =? wanted) else Ok false.

(** The callback of [candidates.filter]; the three tests are all run. *)
Definition candidate_kept (title : Z) (section : string) (part : option string)
    (entry : JsVal) : result bool :=
  let hierarchy := opt_member entry "hierarchy" in
  matchesSection <- prints_as (opt_member hierarchy "section") section ;;
  matchesPart <- match part with
                 | Some p =>
                     if truthy (JStr p)
                     then prints_as (opt_member hierarchy "part") p
                     else Ok true
                 | None => Ok true
                 end ;;
  matchesTitle <- prints_as (opt_member hierarchy "title") (string_of_Z title) ;;
  Ok (matchesSection && matchesPart && matchesTitle).

(** [queries]: the three candidates, of which [filter(Boolean)] drops
    [null] and the empty string. *)
Definition queries (title : Z) (section : string) (part : option string)
  : list string :=
  List.flat_map (fun q => match q with
                          | Some s => if truthy (JStr s) then [s] else []
                          | None => []
                          end)
    [Some (string_of_Z title ++ " CFR " ++ section)%string;
     Some section;
     match part with
     | Some p =>
         if truthy (JStr p) then Some (p ++ " " ++ section)%string else None
     | None => None
     end].

(** The body of the loop up to [filtered]. *)
Definition search (title : Z) (section : string) (part : option string)
    (q : string) : result (list JsVal) :=
  searchData <- Adapter.fetchJson fetch
                  (href "/api/search/v1/results.json"
                     [("query", q); ("results", "200"); ("order", "relevance")]) ;;
  let candidates := match opt_member searchData "results" with
                    | JArr items => items
                    | _ => []
                    end in
  filterE (candidate_kept title section part) candidates.

(** [for (const q of queries)], with its [break]. *)
Fixpoint search_loop (title : Z) (section : string) (part : option string)
    (queries : list string) (targetIndex matchedResult : JsVal)
  : result (JsVal * JsVal) :=
  match queries with
  | [] => Ok (targetIndex, matchedResult)
  | q :: rest =>
      filtered <- search title section part q ;;
      match filtered with
      | first :: _ =>
          let targetIndex := opt_member first "structure_index" in
          if truthy targetIndex then Ok (targetIndex, first)
          else search_loop title section part rest targetIndex first
      | [] => search_loop title section part rest targetIndex matchedResult
      end
  end.

(** The handler of [ecfr_get_section_content] up to the content request:
    the index given, or else the index of a search result; an exception
    is caught by the outer [catch].  [structure_index], an integer without
    bounds, is given by the text it prints as. *)
Definition locate (title : Z) (section part : option string)
    (structure_index : option string) : Located :=
  let finish (found : JsVal * JsVal) : Located :=
    if negb (truthy (fst found))
    then respond "Unable to resolve structure_index for requested section."
    else request_content (fst found) (snd found) in
  let targetIndex := match structure_index with
                     | Some text => JNum text
                     | None => JUndef
                     end in
  if negb (truthy targetIndex) then
    match section with
    | Some s =>
        if negb (truthy (JStr s))
        then respond "Provide either structure_index or a section number to locate content."
        else
          match search_loop title s part (queries title s part)
                  targetIndex JUndef with
          | Ok found => finish found
          | Throw m => respond ("Error fetching eCFR section content: " ++ m)%string
          end
    | None =>
        respond "Provide either structure_index or a section number to locate content."
    end
  else finish (targetIndex, JUndef).

End Resolution.

End Content.

(** A query that does not end the loop: its search succeeds and has no
    match, or a first match without a truthy [structure_index]. *)
Definition offers_no_index (filtered : result (list JsVal)) : Prop :=
  match filtered with
  | Ok [] => True
  | Ok (first :: _) => truthy (opt_member first "structure_index") = false
  | Throw _ => False
  end.

(** No usable [structure_index] among the arguments: none, or zero. *)
Definition no_index (structure_index : option string) : Prop :=
  structure_index = None \/ structure_index = Some "0".

(** ** The shebang script *)

Module Shebang.

(** The files the script can see: a path has contents, the text that
    reading it as [utf8] gives, or does not exist. *)
Definition Files : Type := string -> option string.

Definition file : string := "build/index.js".

Definition line : string := "#!/usr/bin/env node".

(** [fs.readFileSync(path, "utf8")]. *)
Definition readFileSync (fs : Files) (path : string) : result string :=
  match fs path with
  | Some contents => Ok contents
  | None => Throw ("ENOENT: no such file or directory, open '"
                   ++ path ++ "'")%string
  end.

(** [fs.writeFileSync(path, data)], when the file can be written. *)
Definition writeFileSync (fs : Files) (path data : string) : Files :=
  fun p => if p =? path then Some data else fs p.

(** The whole of [scripts/add-shebang.js]. *)
Definition add_shebang (fs : Files) : result Files :=
  contents <- readFileSync fs file ;;
  if negb (prefix line contents)
  then Ok (writeFileSync fs file
             (line ++ String (ascii_of_nat 10) "" ++ contents)%string)
  else Ok fs.

End Shebang.


(** ** Loops and maps *)

Lemma forOf_ext {A S : Type} (items : list A) (f g : A -> S -> result S) :
  (forall x s, In x items -> f x s = g x s) ->
  forall s, forOf items f s = forOf items g s.
Proof.
  induction items as [|x rest IH]; intros Hfg s; simpl; [reflexivity|].
  rewrite (Hfg x s (or_introl eq_refl)).
  destruct (g x s) as [s'|m]; simpl; [|reflexivity].
  apply IH. intros y t Hy. apply Hfg. now right.
Qed.

Lemma forOf_app {A S : Type} (xs ys : list A) (f : A -> S -> result S) (s : S) :
  forOf (xs ++ ys) f s = (s' <- forOf xs f s ;; forOf ys f s').
Proof.
  revert s. induction xs as [|x xs IH]; intros s; simpl; [reflexivity|].
  destruct (f x s) as [s'|m]; simpl; [apply IH | reflexivity].
Qed.

Lemma map_has_In (k : string) (m : Map) :
  map_has k m = true <-> In k (keys m).
Proof.
  induction m as [|[k' v'] rest IH]; simpl.
  - split; [discriminate | tauto].
  - rewrite orb_true_iff, IH, String.eqb_eq. tauto.
Qed.

Lemma map_has_false (k : string) (m : Map) :
  map_has k m = false <-> ~ In k (keys m).
Proof.
  rewrite <- map_has_In. destruct (map_has k m); split; congruence.
Qed.

Lemma keys_map_set (k : string) (v : JsVal) (m : Map) :
  keys (map_set k v m) = if map_has k m then keys m else keys m ++ [k].
Proof.
  unfold keys.
  induction m as [|[k' v'] rest IH]; simpl; [reflexivity|].
  destruct (String.eqb_spec k' k) as [->|Hne]; simpl; [reflexivity|].
  rewrite IH. destruct (map_has k rest); reflexivity.
Qed.

Lemma map_has_set (k k' : string) (v : JsVal) (m : Map) :
  map_has k' (map_set k v m) = (k =? k') || map_has k' m.
Proof.
  induction m as [|[k0 v0] rest IH]; simpl.
  - now rewrite orb_false_r.
  - destruct (String.eqb_spec k0 k) as [->|Hne]; simpl.
    + destruct (k =? k'); reflexivity.
    + rewrite IH. destruct (k0 =? k'), (k =? k'); reflexivity.
Qed.

Lemma lookup_set (k k' : string) (v : JsVal) (m : Map) :
  lookup k' (map_set k v m) = if k =? k' then v else lookup k' m.
Proof.
  induction m as [|[k0 v0] rest IH]; simpl.
  - reflexivity.
  - destruct (String.eqb_spec k0 k) as [->|Hne]; simpl.
    + destruct (k =? k'); reflexivity.
    + rewrite IH. destruct (String.eqb_spec k0 k') as [->|Hne'].
      * destruct (String.eqb_spec k k') as [->|]; [congruence | reflexivity].
      * reflexivity.
Qed.

Lemma NoDup_keys_set (k : string) (v : JsVal) (m : Map) :
  NoDup (keys m) -> NoDup (keys (map_set k v m)).
Proof.
  intros Hnd. rewrite keys_map_set.
  destruct (map_has k m) eqn:Hk; [assumption|].
  apply map_has_false in Hk.
  apply NoDup_app; [assumption | repeat constructor; simpl; tauto |].
  intros x Hx [<-|[]]. contradiction.
Qed.

Lemma In_map_set (k k' : string) (v v' : JsVal) (m : Map) :
  In (k', v') (map_set k v m) -> In (k', v') m \/ (k' = k /\ v' = v).
Proof.
  induction m as [|[k0 v0] rest IH]; simpl.
  - intros [H|[]]. inversion H. now right.
  - destruct (String.eqb_spec k0 k) as [->|Hne]; simpl.
    + intros [H|H]; [inversion H; now right | now left; right].
    + intros [H|H]; [now left; left|].
      destruct (IH H) as [H'|H']; [now left; right | now right].
Qed.

Lemma lookup_In (k : string) (v : JsVal) (m : Map) :
  NoDup (keys m) -> In (k, v) m -> lookup k m = v.
Proof.
  induction m as [|[k0 v0] rest IH]; simpl; [tauto|].
  intros Hnd [H|H].
  - inversion H; subst. now rewrite String.eqb_refl.
  - inversion Hnd as [|? ? Hnot Hnd']; subst.
    destruct (String.eqb_spec k0 k) as [->|Hne].
    + exfalso. apply Hnot. change (In (fst (k, v)) (List.map fst rest)).
      now apply in_map.
    + now apply IH.
Qed.

Lemma In_lookup (k : string) (m : Map) :
  map_has k m = true -> In (k, lookup k m) m.
Proof.
  induction m as [|[k0 v0] rest IH]; simpl; [discriminate|].
  destruct (String.eqb_spec k0 k) as [->|Hne]; simpl; [now left|].
  intros H. right. now apply IH.
Qed.

Lemma lookup_absent (k : string) (m : Map) :
  map_has k m = false -> lookup k m = JUndef.
Proof.
  induction m as [|[k0 v0] rest IH]; simpl; [reflexivity|].
  destruct (k0 =? k); simpl; [discriminate | exact IH].
Qed.

(** ** Trees and their depth *)

Lemma depth_lookup (k : string) (props : list (string * JsVal)) :
  depth (lookup k props) < depth (JObj props).
Proof.
  simpl. apply Nat.lt_succ_r.
  induction props as [|[k' v] rest IH]; simpl; [lia|].
  destruct (k' =? k); lia.
Qed.

Lemma depth_item (c : JsVal) (items : list JsVal) :
  In c items -> depth c < depth (JArr items).
Proof.
  simpl. intros Hin. apply Nat.lt_succ_r.
  induction items as [|x rest IH]; simpl in *; [tauto|].
  destruct Hin as [->|Hin]; [lia|]. specialize (IH Hin). lia.
Qed.

Lemma depth_child (c node : JsVal) :
  In c (children_of node) -> S (depth c) < depth node.
Proof.
  destruct node as [| | | | | |props]; simpl; try tauto.
  intros Hin.
  pose proof (depth_lookup "children" props) as Hl.
  destruct (lookup "children" props) as [| | | | |items|]; simpl in Hin; try tauto.
  pose proof (depth_item c items Hin). simpl in *. lia.
Qed.

(** Induction on a tree through the children the walk visits. *)
Lemma children_ind (P : JsVal -> Prop) :
  (forall node, (forall c, In c (children_of node) -> P c) -> P node) ->
  forall node, P node.
Proof.
  intros step node.
  remember (depth node) as d eqn:Hd.
  revert node Hd. induction d as [d IH] using lt_wf_ind.
  intros node ->. apply step. intros c Hc.
  apply (IH (depth c)); [|reflexivity].
  pose proof (depth_child c node Hc). lia.
Qed.

(** ** The conversion to a string *)

Lemma join_cons (conv : JsVal -> result string) (x : JsVal) (rest : list JsVal) :
  join conv (x :: rest)
  = (sx <- match x with
           | JUndef | JNull => Ok ""
           | _ => conv x
           end ;;
     match rest with
     | [] => Ok sx
     | _ :: _ => sr <- join conv rest ;; Ok (sx ++ "," ++ sr)%string
     end).
Proof. reflexivity. Qed.

(** [String] throws on the values that do not convert, with the message
    of the conversion, and on no other. *)
Lemma StringOf_convertible (v : JsVal) :
  match StringOf v with
  | Ok _ => convertible v = true
  | Throw m => m = conversion_error /\ convertible v = false
  end.
Proof.
  remember (depth v) as d eqn:Hd. revert v Hd.
  induction d as [d IH] using lt_wf_ind. intros v ->.
  destruct v as [| |b|n|s|items|props]; try reflexivity.
  - now destruct b.
  - assert (forall x, In x items ->
              match StringOf x with
              | Ok _ => convertible x = true
              | Throw m => m = conversion_error /\ convertible x = false
              end) as Hx.
    { intros x Hin. apply (IH (depth x)); [now apply depth_item | reflexivity]. }
    clear IH. change (StringOf (JArr items)) with (join StringOf items).
    change (convertible (JArr items)) with (forallb convertible items).
    induction items as [|x rest IHr]; [reflexivity|].
    rewrite join_cons. cbn [forallb].
    specialize (IHr (fun y Hy => Hx y (or_intror Hy))).
    pose proof (Hx x (or_introl eq_refl)) as Hhead.
    assert (match (match x with
                   | JUndef | JNull => Ok ""
                   | _ => StringOf x
                   end) with
            | Ok _ => convertible x = true
            | Throw m => m = conversion_error /\ convertible x = false
            end) as Hsx by (destruct x; try reflexivity; exact Hhead).
    destruct (match x with
              | JUndef | JNull => Ok ""
              | _ => StringOf x
              end) as [sx|m]; cbn [bind].
    + rewrite Hsx. cbn [andb].
      destruct rest as [|y rest]; [reflexivity|].
      destruct (join StringOf (y :: rest)) as [sr|m]; cbn [bind]; exact IHr.
    + destruct Hsx as [-> ->]. now split.
  - simpl. destruct (has_own "toString" props); [now split | reflexivity].
Qed.

(** The key of a node is the string of its identifier when the
    identifier converts. *)
Lemma StringOf_key (node : JsVal) :
  convertible (opt_member node "identifier") = true ->
  StringOf (opt_member node "identifier") = Ok (section_key node).
Proof.
  intros Hc. unfold section_key.
  pose proof (StringOf_convertible (opt_member node "identifier")) as H.
  destruct (StringOf (opt_member node "identifier")) as [s|m]; [reflexivity|].
  destruct H as [_ H]. congruence.
Qed.

Lemma list_max_cons (x : nat) (l : list nat) :
  list_max (x :: l) = Nat.max x (list_max l).
Proof. reflexivity. Qed.

Lemma calls_of_String_depth (v : JsVal) : calls_of_String v <= depth v.
Proof.
  remember (depth v) as d eqn:Hd. revert v Hd.
  induction d as [d IH] using lt_wf_ind. intros v ->.
  destruct v as [| |b|n|s|items|props]; simpl; try lia.
  apply le_n_S.
  assert (forall x, In x items -> calls_of_String x <= depth x) as Hx.
  { intros x Hin. apply (IH (depth x)); [now apply depth_item | reflexivity]. }
  clear IH. induction items as [|x rest IHr]; simpl; [lia|].
  specialize (IHr (fun y Hy => Hx y (or_intror Hy))).
  specialize (Hx x (or_introl eq_refl)). lia.
Qed.

Lemma StringOf_rec_scalar (frames : nat) (v : JsVal) :
  isArray v = false -> StringOf_rec frames v = StringOf v.
Proof. destruct frames, v; simpl; congruence. Qed.

Lemma calls_of_String_scalar (v : JsVal) :
  isArray v = false -> calls_of_String v = 0.
Proof. destruct v; simpl; congruence. Qed.

(** The conversion on a call stack: with room for its calls it is the
    conversion, and without it throws, the RangeError unless a TypeError
    comes first. *)
Lemma StringOf_rec_cases (frames : nat) (v : JsVal) :
  match StringOf_rec frames v with
  | Ok s => StringOf v = Ok s /\ calls_of_String v <= frames
  | Throw m =>
      (m = conversion_error /\ convertible v = false) \/
      (m = stack_error /\ frames < calls_of_String v)
  end.
Proof.
  revert v. induction frames as [|f IH]; intros v;
    (destruct (isArray v) eqn:Harr;
     [|rewrite StringOf_rec_scalar, calls_of_String_scalar by exact Harr;
       pose proof (StringOf_convertible v) as H;
       destruct (StringOf v) as [s'|m];
       [split; [reflexivity | lia] | left; exact H]]);
    destruct v as [| |b|n|s|items|props]; try discriminate Harr; clear Harr.
  - cbn [StringOf_rec]. right. split; [reflexivity | simpl; lia].
  - cbn [StringOf_rec].
    change (StringOf (JArr items)) with (join StringOf items).
    change (convertible (JArr items)) with (forallb convertible items).
    change (calls_of_String (JArr items))
      with (S (list_max (List.map calls_of_String items))).
    assert (match join (StringOf_rec f) items with
            | Ok s => join StringOf items = Ok s /\
                      list_max (List.map calls_of_String items) <= f
            | Throw m =>
                (m = conversion_error /\ forallb convertible items = false) \/
                (m = stack_error /\ f < list_max (List.map calls_of_String items))
            end) as Hjoin.
    { induction items as [|x rest IHr]; [split; [reflexivity | simpl; lia]|].
      rewrite !join_cons. cbn [forallb List.map]. rewrite list_max_cons.
      assert (match (match x with
                     | JUndef | JNull => Ok ""
                     | _ => StringOf_rec f x
                     end) with
              | Ok s => match x with
                        | JUndef | JNull => Ok ""
                        | _ => StringOf x
                        end = Ok s /\
                        convertible x = true /\ calls_of_String x <= f
              | Throw m =>
                  (m = conversion_error /\ convertible x = false) \/
                  (m = stack_error /\ f < calls_of_String x)
              end) as Hsx.
      { pose proof (IH x) as Hx. pose proof (StringOf_convertible x) as Hcx.
        destruct x as [| |b|n|s|items'|props];
          try (split; [reflexivity | split; [reflexivity | simpl; lia]]);
          (destruct (StringOf_rec f _) as [s'|m]; [|exact Hx]);
          destruct Hx as [Hx1 Hx2]; rewrite Hx1 in Hcx;
          (split; [exact Hx1 | split; [exact Hcx | exact Hx2]]). }
      destruct (match x with
                | JUndef | JNull => Ok ""
                | _ => StringOf_rec f x
                end) as [sx|m]; cbn [bind].
      - destruct Hsx as (-> & -> & Hcalls). cbn [bind andb].
        destruct rest as [|y rest].
        + split; [reflexivity | simpl; lia].
        + destruct (join (StringOf_rec f) (y :: rest)) as [sr|m]; cbn [bind].
          * destruct IHr as [-> Hmax]. split; [reflexivity | lia].
          * destruct IHr as [[-> Hc]|[-> Hd]];
              [left; now split | right; split; [reflexivity | lia]].
      - destruct Hsx as [[-> ->]|[-> Hd]];
          [left; now split | right; split; [reflexivity | lia]]. }
    destruct (join (StringOf_rec f) items) as [s|m].
    + destruct Hjoin as [-> Hmax]. split; [reflexivity | lia].
    + destruct Hjoin as [[-> Hc]|[-> Hd]];
        [left; now split | right; split; [reflexivity | lia]].
Qed.

(** ** The walk *)

Lemma flat_map_ext_in {A B : Type} (f g : A -> list B) (l : list A) :
  (forall x, In x l -> f x = g x) -> List.flat_map f l = List.flat_map g l.
Proof.
  induction l as [|x rest IH]; intros H; simpl; [reflexivity|].
  rewrite (H x (or_introl eq_refl)), IH; [reflexivity|].
  intros y Hy. apply H. now right.
Qed.

Lemma visited_rec_fuel (f1 f2 : nat) (node : JsVal) :
  depth node < f1 -> depth node < f2 ->
  visited_rec f1 node = visited_rec f2 node.
Proof.
  revert f2 node. induction f1 as [|f1 IH]; intros f2 node H1 H2; [lia|].
  destruct f2 as [|f2]; [lia|]. simpl. f_equal.
  apply flat_map_ext_in. intros c Hc.
  pose proof (depth_child c node Hc). apply IH; lia.
Qed.

(** The order of the visit: the node first, then its children's
    subtrees from left to right. *)
Lemma visited_unfold (node : JsVal) :
  visited node = node :: List.flat_map visited (children_of node).
Proof.
  unfold visited at 1. cbn [visited_rec]. f_equal.
  apply flat_map_ext_in. intros c Hc.
  pose proof (depth_child c node Hc).
  unfold visited. apply visited_rec_fuel; lia.
Qed.

Lemma visited_Subnode (root n : JsVal) :
  In n (visited root) <-> Subnode n root.
Proof.
  split.
  - revert n. induction root as [root IH] using children_ind.
    intros n. rewrite visited_unfold. intros [<-|Hin]; [constructor|].
    apply in_flat_map in Hin as (c & Hc & Hn).
    apply Subnode_child with c; [assumption | now apply IH].
  - induction 1 as [root | n c root Hc _ IH]; rewrite visited_unfold.
    + now left.
    + right. apply in_flat_map. now exists c.
Qed.

Lemma sections_of_In (root n : JsVal) :
  In n (sections_of root) <-> Subnode n root /\ is_section n = true.
Proof. unfold sections_of. now rewrite filter_In, visited_Subnode. Qed.

Lemma filter_flat_map {A B : Type} (p : B -> bool) (f : A -> list B) (l : list A) :
  filter p (List.flat_map f l) = List.flat_map (fun x => filter p (f x)) l.
Proof.
  induction l as [|x rest IH]; simpl; [reflexivity|].
  now rewrite filter_app, IH.
Qed.

(** The indexed nodes in the order of the visit. *)
Lemma sections_of_unfold (node : JsVal) :
  sections_of node
  = (if is_section node then [node] else [])
    ++ List.flat_map sections_of (children_of node).
Proof.
  unfold sections_of at 1. rewrite visited_unfold. cbn [filter].
  rewrite filter_flat_map. now destruct (is_section node).
Qed.

Lemma forallb_flat_map {A B : Type} (p : B -> bool) (f : A -> list B) (l : list A) :
  forallb p (List.flat_map f l) = forallb (fun x => forallb p (f x)) l.
Proof.
  induction l as [|x rest IH]; simpl; [reflexivity|].
  now rewrite forallb_app, IH.
Qed.

Lemma converts_unfold (node : JsVal) :
  converts node
  = (if is_section node then convertible (opt_member node "identifier") else true)
    && forallb converts (children_of node).
Proof.
  unfold converts at 1. rewrite sections_of_unfold, forallb_app, forallb_flat_map.
  now destruct (is_section node); cbn [forallb]; rewrite ?andb_true_r.
Qed.

Lemma list_max_ext_in {A : Type} (f g : A -> nat) (l : list A) :
  (forall x, In x l -> f x = g x) ->
  list_max (List.map f l) = list_max (List.map g l).
Proof.
  induction l as [|x rest IH]; intros H; simpl; [reflexivity|].
  rewrite (H x (or_introl eq_refl)), IH; [reflexivity|].
  intros y Hy. apply H. now right.
Qed.

Lemma nesting_rec_fuel (f1 f2 : nat) (node : JsVal) :
  depth node < f1 -> depth node < f2 ->
  nesting_rec f1 node = nesting_rec f2 node.
Proof.
  revert f2 node. induction f1 as [|f1 IH]; intros f2 node H1 H2; [lia|].
  destruct f2 as [|f2]; [lia|]. cbn [nesting_rec]. do 2 f_equal.
  apply list_max_ext_in. intros c Hc.
  pose proof (depth_child c node Hc). apply IH; lia.
Qed.

(** The calls a walk nests: its own, and below it the conversion of the
    identifier or the walk of a child, whichever goes deeper. *)
Lemma nesting_unfold (node : JsVal) :
  nesting node
  = S (Nat.max
         (if is_section node
          then calls_of_String (opt_member node "identifier") else 0)
         (list_max (List.map nesting (children_of node)))).
Proof.
  unfold nesting at 1. cbn [nesting_rec]. do 2 f_equal.
  apply list_max_ext_in. intros c Hc.
  pose proof (depth_child c node Hc).
  unfold nesting. apply nesting_rec_fuel; lia.
Qed.

Lemma list_max_bound {A : Type} (f : A -> nat) (l : list A) (n : nat) :
  (forall x, In x l -> f x <= n) -> list_max (List.map f l) <= n.
Proof.
  induction l as [|x rest IH]; intros H; simpl; [lia|].
  specialize (IH (fun y Hy => H y (or_intror Hy))).
  specialize (H x (or_introl eq_refl)). lia.
Qed.

(** The walk of a payload never nests more calls than the payload has
    levels. *)
Lemma nesting_depth (node : JsVal) : nesting node <= S (depth node).
Proof.
  induction node as [node IH] using children_ind.
  rewrite nesting_unfold. apply le_n_S, Nat.max_lub.
  - destruct node as [| | | | | |props]; simpl; try lia.
    destruct (strict_eq _ _ && truthy _); [|lia].
    pose proof (calls_of_String_depth (lookup "identifier" props)).
    pose proof (depth_lookup "identifier" props). simpl in *. lia.
  - apply list_max_bound. intros c Hc.
    pose proof (IH c Hc). pose proof (depth_child c node Hc). lia.
Qed.

Lemma set_all_app (xs ys : list JsVal) (map : Map) :
  set_all (xs ++ ys) map = set_all ys (set_all xs map).
Proof. unfold set_all. apply fold_left_app. Qed.

(** One call of [collectSections], read off the node: an indexed node is
    stored first, under the string of its identifier when the conversion
    succeeds, then the children are walked in order, one call deeper. *)
Lemma collectSections_step (frames : nat) (node : JsVal) (map : Map) :
  collectSections_rec (S frames) node map =
  (map1 <- (if is_section node
            then key <- StringOf_rec frames (opt_member node "identifier") ;;
                 Ok (map_set key node map)
            else Ok map) ;;
   forOf (children_of node)
         (fun child m => collectSections_rec frames child m) map1).
Proof.
  cbn [collectSections_rec].
  destruct node as [| |b|n|s|items|props]; try reflexivity;
    try (simpl; rewrite andb_false_r; reflexivity).
  cbn [truthy typeof andb member bind is_section opt_member children_of].
  change ("object" =? "object") with true. cbv iota.
  destruct (strict_eq (lookup "type" props) (JStr "section")); cbn [andb].
  - destruct (truthy (lookup "identifier" props)).
    + destruct (StringOf_rec frames (lookup "identifier" props)) as [key|m];
        cbn [bind]; [|reflexivity].
      destruct (lookup "children" props); reflexivity.
    + cbn [bind]. destruct (lookup "children" props); reflexivity.
  - cbn [bind]. destruct (lookup "children" props); reflexivity.
Qed.

(** What a walk does: with room on the stack and identifiers that
    convert it performs the [set] calls of the indexed nodes in the order
    of the visit; otherwise it throws, the TypeError of an identifier
    that does not convert or the RangeError of a stack without room. *)
Lemma collectSections_rec_cases (frames : nat) :
  forall (node : JsVal) (map : Map),
    match collectSections_rec frames node map with
    | Ok m =>
        m = set_all (sections_of node) map /\
        converts node = true /\ nesting node <= frames
    | Throw message =>
        (message = conversion_error /\ converts node = false) \/
        (message = stack_error /\ frames < nesting node)
    end.
Proof.
  induction frames as [|f IH]; intros node map.
  - cbn [collectSections_rec]. right. split; [reflexivity|].
    rewrite nesting_unfold. lia.
  - rewrite collectSections_step, sections_of_unfold, converts_unfold,
      nesting_unfold, set_all_app.
    assert (forall cs m0,
              match forOf cs (fun child m => collectSections_rec f child m) m0 with
              | Ok m =>
                  m = set_all (List.flat_map sections_of cs) m0 /\
                  forallb converts cs = true /\
                  list_max (List.map nesting cs) <= f
              | Throw message =>
                  (message = conversion_error /\ forallb converts cs = false) \/
                  (message = stack_error /\ f < list_max (List.map nesting cs))
              end) as Hloop.
    { induction cs as [|c cs IHcs]; intros m0.
      - split; [reflexivity | split; [reflexivity | simpl; lia]].
      - cbn [forOf List.flat_map forallb List.map]. rewrite list_max_cons.
        pose proof (IH c m0) as Hc.
        destruct (collectSections_rec f c m0) as [m1|msg]; cbn [bind].
        + destruct Hc as (-> & -> & Hn). cbn [andb].
          specialize (IHcs (set_all (sections_of c) m0)).
          destruct (forOf cs _ _) as [m2|msg].
          * destruct IHcs as (-> & -> & Hmax).
            split; [now rewrite set_all_app | split; [reflexivity | lia]].
          * destruct IHcs as [[-> Hconv]|[-> Hd]];
              [left; now split | right; split; [reflexivity | lia]].
        + destruct Hc as [[-> ->]|[-> Hd]];
            [left; now split | right; split; [reflexivity | lia]]. }
    destruct (is_section node) eqn:Hsec.
    + pose proof (StringOf_rec_cases f (opt_member node "identifier")) as Hkey.
      pose proof (StringOf_convertible (opt_member node "identifier")) as Hconv.
      destruct (StringOf_rec f (opt_member node "identifier")) as [key|msg];
        cbn [bind].
      * destruct Hkey as [Hkey Hcalls]. rewrite Hkey in Hconv.
        assert (map_set key node map = set_all [node] map) as ->.
        { unfold set_all, section_key. cbn [fold_left]. now rewrite Hkey. }
        specialize (Hloop (children_of node) (set_all [node] map)).
        destruct (forOf _ _ _) as [m|msg].
        -- destruct Hloop as (-> & Hall & Hmax). rewrite Hconv, Hall.
           split; [reflexivity | split; [reflexivity | lia]].
        -- destruct Hloop as [[-> Hall]|[-> Hd]].
           ++ left. rewrite Hall. split; [reflexivity | apply andb_false_r].
           ++ right. split; [reflexivity | lia].
      * destruct Hkey as [[-> Hc]|[-> Hd]].
        -- left. rewrite Hc. split; reflexivity.
        -- right. split; [reflexivity | lia].
    + cbn [bind]. specialize (Hloop (children_of node) map).
      change (set_all [] map) with map.
      destruct (forOf _ _ _) as [m|msg].
      * destruct Hloop as (-> & Hall & Hmax). rewrite Hall.
        split; [reflexivity | split; [reflexivity | lia]].
      * destruct Hloop as [[-> Hall]|[-> Hd]].
        -- left. rewrite Hall. split; reflexivity.
        -- right. split; [reflexivity | lia].
Qed.

(** The flattener: it returns the map of the tree, or fails for one of
    the two reasons. *)
Lemma buildSectionMap_cases (stack : option nat) (root : JsVal) :
  match buildSectionMap stack root with
  | Ok map => map = flat root /\ converts root = true /\ fits stack root = true
  | Throw message => flatten_failure stack root message
  end.
Proof.
  unfold buildSectionMap, collectSections, flatten_failure, fits, flat.
  destruct stack as [frames|].
  - pose proof (collectSections_rec_cases frames root new_Map) as H.
    destruct (collectSections_rec frames root new_Map) as [m|msg].
    + destruct H as (-> & -> & Hn).
      split; [reflexivity | split; [reflexivity | now apply Nat.leb_le]].
    + destruct H as [H|[-> Hd]]; [now left | right].
      split; [reflexivity | now apply Nat.leb_gt].
  - pose proof (collectSections_rec_cases (S (depth root)) root new_Map) as H.
    pose proof (nesting_depth root) as Hn.
    destruct (collectSections_rec (S (depth root)) root new_Map) as [m|msg].
    + destruct H as (-> & -> & _). now repeat split.
    + destruct H as [H|[_ Hd]]; [now left | lia].
Qed.

(** With room on the stack and identifiers that convert the flattener
    returns. *)
Lemma buildSectionMap_returns (stack : option nat) (root : JsVal) :
  converts root = true -> fits stack root = true ->
  buildSectionMap stack root = Ok (flat root).
Proof.
  intros Hc Hf. pose proof (buildSectionMap_cases stack root) as H.
  destruct (buildSectionMap stack root) as [m|msg].
  - now destruct H as (-> & _).
  - destruct H as [[_ H]|[_ H]]; congruence.
Qed.

(** On a stack that is deep enough only the conversion can fail. *)
Lemma exact_buildSectionMap (root : JsVal) :
  Exact.buildSectionMap root
  = if converts root then Ok (flat root) else Throw conversion_error.
Proof.
  unfold Exact.buildSectionMap.
  pose proof (buildSectionMap_cases None root) as H.
  destruct (buildSectionMap None root) as [m|msg].
  - destruct H as (-> & -> & _). reflexivity.
  - destruct H as [[-> ->]|[_ H]]; [reflexivity | discriminate H].
Qed.

(** ** Flattened maps *)

Lemma set_all_In (nodes : list JsVal) (map : Map) (k : string) (v : JsVal) :
  In (k, v) (set_all nodes map) ->
  In (k, v) map \/ (In v nodes /\ k = section_key v).
Proof.
  revert map. induction nodes as [|n rest IH]; intros map; simpl; [tauto|].
  intros H. destruct (IH _ H) as [H'|[H1 H2]].
  - destruct (In_map_set _ _ _ _ _ H') as [Hm|[-> ->]]; [now left|].
    right. split; [now left | reflexivity].
  - right. split; [now right | assumption].
Qed.

Lemma set_all_has_old (nodes : list JsVal) (map : Map) (k : string) :
  map_has k map = true -> map_has k (set_all nodes map) = true.
Proof.
  revert map. induction nodes as [|n rest IH]; intros map H; simpl; [exact H|].
  apply IH. rewrite map_has_set, H. apply orb_true_r.
Qed.

Lemma set_all_has (nodes : list JsVal) (map : Map) (n : JsVal) :
  In n nodes -> map_has (section_key n) (set_all nodes map) = true.
Proof.
  revert map. induction nodes as [|x rest IH]; intros map; simpl; [tauto|].
  intros [->|Hin]; [|now apply IH].
  apply set_all_has_old. rewrite map_has_set, String.eqb_refl. reflexivity.
Qed.

Lemma set_all_NoDup (nodes : list JsVal) (map : Map) :
  NoDup (keys map) -> NoDup (keys (set_all nodes map)).
Proof.
  revert map. induction nodes as [|n rest IH]; intros map H; simpl; [exact H|].
  apply IH. now apply NoDup_keys_set.
Qed.

(** When a single node claims a key, that node is what the key holds at
    the end. *)
Lemma set_all_lookup (nodes : list JsVal) (map : Map) (n : JsVal) :
  (forall n', In n' nodes -> section_key n' = section_key n -> n' = n) ->
  In n nodes \/ lookup (section_key n) map = n ->
  lookup (section_key n) (set_all nodes map) = n.
Proof.
  revert map. induction nodes as [|x rest IH]; intros map Huniq Hn; simpl.
  - destruct Hn as [[]|Hn]. exact Hn.
  - apply IH.
    + intros n' Hn' Hk. apply Huniq; [now right | assumption].
    + rewrite lookup_set.
      destruct (String.eqb_spec (section_key x) (section_key n)) as [Heq|Hne].
      * right. apply Huniq; [now left | assumption].
      * destruct Hn as [[->|Hin]|Hn]; [congruence | now left | now right].
Qed.

Lemma find_last {A : Type} (f : A -> bool) (l : list A) (x : A) :
  find f (l ++ [x]) =
  match find f l with
  | Some y => Some y
  | None => if f x then Some x else None
  end.
Proof.
  induction l as [|y rest IH]; simpl; [reflexivity|].
  destruct (f y); [reflexivity | exact IH].
Qed.

(** Of the nodes that claim a key, the last one set is the one kept. *)
Lemma set_all_last (nodes : list JsVal) (map : Map) (k : string) :
  lookup k (set_all nodes map) =
  match find (fun n => section_key n =? k) (rev nodes) with
  | Some n => n
  | None => lookup k map
  end.
Proof.
  revert map. induction nodes as [|x rest IH]; intros map; [reflexivity|].
  simpl. rewrite IH, find_last, lookup_set.
  destruct (find _ (rev rest)); [reflexivity|].
  destruct (section_key x =? k); reflexivity.
Qed.

Lemma flat_flattened (root : JsVal) : flattened (flat root).
Proof.
  unfold flat. split.
  - apply set_all_NoDup. constructor.
  - intros k n H. destruct (set_all_In _ _ _ _ H) as [[]|[H1 H2]].
    split; [now apply sections_of_In in H1 | assumption].
Qed.

Lemma flat_entries (root : JsVal) (k : string) (n : JsVal) :
  In (k, n) (entries (flat root)) ->
  Subnode n root /\ is_section n = true /\ k = section_key n.
Proof.
  intros H. destruct (set_all_In _ _ _ _ H) as [[]|[H1 H2]].
  apply sections_of_In in H1. tauto.
Qed.

Lemma is_section_object (n : JsVal) : is_section n = true -> is_object n = true.
Proof. destruct n; simpl; congruence. Qed.

(** For a string identifier, truthy is non-empty. *)
Lemma truthy_string (s : string) : truthy (JStr s) = true <-> s <> "".
Proof.
  simpl. rewrite negb_true_iff. apply String.eqb_neq.
Qed.

(** ** The differ's three loops *)

Lemma flattened_object (map : Map) (k : string) (n : JsVal) :
  flattened map -> In (k, n) map -> is_object n = true.
Proof.
  intros [_ H] Hin. apply is_section_object. now apply (H k n).
Qed.

Lemma flattened_tail (kv : string * JsVal) (map : Map) :
  flattened (kv :: map) -> flattened map.
Proof.
  intros [Hnd H]. split.
  - now inversion Hnd.
  - intros k n Hin. apply H. now right.
Qed.

Lemma member_object (v : JsVal) (k : string) :
  is_object v = true -> member v k = Ok (opt_member v k).
Proof. destruct v; simpl; congruence. Qed.

Lemma nullish_or_null (v : JsVal) : nullish v JNull = or_null v.
Proof. now destruct v. Qed.

Lemma nullish_part (part : option string) :
  nullish (of_optional part) JNull = part_or_null part.
Proof. now destruct part. Qed.

Lemma nullish_part_hierarchy (part : option string) (node : JsVal) :
  nullish (nullish (of_optional part)
             (opt_member (opt_member node "hierarchy") "part")) JNull
  = part_or_hierarchy part node.
Proof.
  destruct part as [p|]; [reflexivity|]. simpl.
  now destruct (opt_member (opt_member node "hierarchy") "part").
Qed.

Lemma heading_of_text (node : JsVal) : heading_of node = heading_text node.
Proof.
  unfold heading_of, heading_text.
  destruct (opt_member node "label_description"); simpl; try reflexivity;
    now destruct (opt_member node "label").
Qed.

Lemma push_added_loop (title : Z) (end_date : string) (part : option string)
    (startMap : Map) (es : list (string * JsVal)) (acc : list ChangeRecord) :
  forOf es (push_added title end_date part startMap) acc =
  Ok (acc ++ List.map (added_record title end_date part)
                      (filter (is_added startMap) es)).
Proof.
  revert acc. induction es as [|[id node] rest IH]; intros acc; simpl.
  - now rewrite app_nil_r.
  - unfold is_added at 1. simpl.
    destruct (map_has id startMap); simpl; rewrite IH; [reflexivity|].
    rewrite <- app_assoc. unfold added_record, citation_of. simpl.
    now rewrite nullish_part_hierarchy, heading_of_text.
Qed.

Lemma push_removed_loop (title : Z) (end_date : string) (part : option string)
    (endMap : Map) (es : list (string * JsVal)) (acc : list ChangeRecord) :
  forOf es (push_removed title end_date part endMap) acc =
  Ok (acc ++ List.map (removed_record title end_date part)
                      (filter (is_removed endMap) es)).
Proof.
  revert acc. induction es as [|[id node] rest IH]; intros acc; simpl.
  - now rewrite app_nil_r.
  - unfold is_removed at 1. simpl.
    destruct (map_has id endMap); simpl; rewrite IH; [reflexivity|].
    rewrite <- app_assoc. unfold removed_record, citation_of. simpl.
    now rewrite nullish_part, heading_of_text.
Qed.

Lemma field_differs_object (node previous : JsVal) (k : string) :
  is_object previous = true ->
  field_differs node previous k =
  Ok (strict_neq (opt_member node k) (opt_member previous k)).
Proof.
  intros H. unfold field_differs. now rewrite member_object.
Qed.

Lemma differs_object (node previous : JsVal) :
  is_object previous = true ->
  or_else (field_differs node previous "label_description")
    (or_else (field_differs node previous "reserved")
       (or_else (field_differs node previous "received_on")
          (field_differs node previous "size")))
  = Ok (metadata_differs node previous).
Proof.
  intros H. rewrite !field_differs_object by assumption.
  unfold or_else, metadata_differs. simpl.
  destruct (strict_neq (opt_member node "label_description") _); simpl;
    [reflexivity|].
  destruct (strict_neq (opt_member node "reserved") _); simpl; [reflexivity|].
  destruct (strict_neq (opt_member node "received_on") _); reflexivity.
Qed.

(** In a flattened map a key is present exactly when [get] answers
    with something truthy. *)
Lemma truthy_get (startMap : Map) (id : string) :
  flattened startMap ->
  truthy (map_get id startMap) = map_has id startMap /\
  (map_has id startMap = true -> is_object (map_get id startMap) = true).
Proof.
  intros Hflat. unfold map_get.
  destruct (map_has id startMap) eqn:Hhas.
  - pose proof (In_lookup _ _ Hhas) as Hin.
    pose proof (flattened_object _ _ _ Hflat Hin) as Hobj.
    split; [|auto]. destruct (lookup id startMap); simpl in *; congruence.
  - rewrite (lookup_absent _ _ Hhas). split; [reflexivity | discriminate].
Qed.

Lemma push_modified_loop (title : Z) (end_date : string) (part : option string)
    (startMap : Map) (es : list (string * JsVal)) (acc : list ChangeRecord) :
  flattened startMap ->
  (forall k n, In (k, n) es -> is_object n = true) ->
  forOf es (push_modified title end_date part startMap) acc =
  Ok (acc ++ List.map (modified_record title end_date part startMap)
                      (filter (is_modified startMap) es)).
Proof.
  intros Hflat. revert acc.
  induction es as [|[id node] rest IH]; intros acc Hobj; simpl.
  - now rewrite app_nil_r.
  - assert (is_object node = true) as Hnode by (apply (Hobj id); now left).
    assert (forall k n, In (k, n) rest -> is_object n = true) as Hrest
      by (intros k n Hin; apply (Hobj k); now right).
    destruct (truthy_get startMap id Hflat) as [Htruthy Hprev].
    unfold is_modified at 1. simpl. rewrite Htruthy.
    destruct (map_has id startMap); simpl; [|now apply IH].
    specialize (Hprev eq_refl).
    rewrite differs_object by assumption. simpl.
    destruct (metadata_differs node (map_get id startMap)); simpl;
      [|now apply IH].
    rewrite !member_object by assumption. simpl.
    rewrite IH by assumption. rewrite <- app_assoc.
    unfold modified_record, metadata_of, citation_of. simpl.
    now rewrite nullish_part, !nullish_or_null.
Qed.

(** The change list before filtering: the added records, then the
    removed ones, then the modified ones; no pass can throw. *)
Lemma compareMaps_spec (title : Z) (end_date : string) (part : option string)
    (startMap endMap : Map) :
  flattened startMap -> flattened endMap ->
  compareMaps title end_date part startMap endMap =
  Ok (added_records title end_date part startMap endMap
      ++ removed_records title end_date part startMap endMap
      ++ modified_records title end_date part startMap endMap).
Proof.
  intros Hs He. unfold compareMaps, entries.
  rewrite push_added_loop. simpl.
  rewrite push_removed_loop. simpl.
  rewrite push_modified_loop; [| assumption |].
  - now rewrite <- app_assoc.
  - intros k n Hin. now apply (flattened_object endMap k n).
Qed.

Lemma includes_In (wanted : list string) (t : string) :
  includes wanted t = true <-> In t wanted.
Proof.
  unfold includes. rewrite existsb_exists. split.
  - intros (x & Hx & Heq). apply String.eqb_eq in Heq. now subst.
  - intros H. exists t. split; [assumption | apply String.eqb_refl].
Qed.

(** [filter] with [includes] keeps the records whose type is in the
    list. *)
Lemma filter_includes (wanted : list string) (cs : list ChangeRecord) :
  filter (fun c => includes wanted (type c)) cs = of_types wanted cs.
Proof.
  unfold of_types. apply filter_ext. intros c.
  destruct (in_dec string_dec (type c) wanted) as [Hin|Hout].
  - now apply includes_In.
  - destruct (includes wanted (type c)) eqn:H; [|reflexivity].
    now apply includes_In in H.
Qed.

Lemma filteredChanges_kept (change_types : option (list string))
    (cs : list ChangeRecord) :
  filteredChanges change_types cs = kept_records change_types cs.
Proof.
  destruct change_types as [wanted|]; [apply filter_includes | reflexivity].
Qed.

Lemma summarize_tally (cs : list ChangeRecord) : summarize cs = tally cs.
Proof. reflexivity. Qed.

(** What the differ does: both payloads are flattened, and when both
    maps are there the result is the comparison of the two payloads. *)
Lemma diffStructures_cases (stack : option nat) (title : Z) (end_date : string)
    (part : option string) (change_types : option (list string))
    (startStructure endStructure : JsVal) :
  match diffStructures stack title end_date part change_types
          startStructure endStructure with
  | Ok r =>
      r = comparison title end_date part change_types
            startStructure endStructure /\
      converts startStructure && converts endStructure = true /\
      fits stack startStructure && fits stack endStructure = true
  | Throw message =>
      comparison_failure stack startStructure endStructure message
  end.
Proof.
  unfold diffStructures, comparison_failure.
  pose proof (buildSectionMap_cases stack startStructure) as Hs.
  pose proof (buildSectionMap_cases stack endStructure) as He.
  destruct (buildSectionMap stack startStructure) as [startMap|m]; cbn [bind].
  - destruct Hs as (-> & Hcs & Hfs). rewrite Hcs, Hfs. cbn [andb].
    destruct (buildSectionMap stack endStructure) as [endMap|m]; cbn [bind].
    + destruct He as (-> & Hce & Hfe).
      rewrite compareMaps_spec by apply flat_flattened. cbn [bind].
      rewrite filteredChanges_kept, summarize_tally.
      split; [reflexivity | now split].
    + destruct He as [[-> Hc]|[-> Hf]]; [left | right]; now split.
  - destruct Hs as [[-> Hc]|[-> Hf]]; [left | right];
      (split; [reflexivity|]); [now rewrite Hc | now rewrite Hf].
Qed.

(** With room on the stack and identifiers that convert the differ
    returns the comparison. *)
Lemma diffStructures_returns (stack : option nat) (title : Z) (end_date : string)
    (part : option string) (change_types : option (list string))
    (startStructure endStructure : JsVal) :
  converts startStructure && converts endStructure = true ->
  fits stack startStructure && fits stack endStructure = true ->
  diffStructures stack title end_date part change_types
    startStructure endStructure
  = Ok (comparison title end_date part change_types startStructure endStructure).
Proof.
  intros Hc Hf.
  pose proof (diffStructures_cases stack title end_date part change_types
                startStructure endStructure) as H.
  destruct (diffStructures _ _ _ _ _ _ _) as [r|m].
  - now destruct H as (-> & _).
  - destruct H as [[_ H]|[_ H]]; congruence.
Qed.

(** What holds of every comparison holds of every result of the differ,
    whatever the room on the call stack. *)
Lemma diff_transfer (P : DiffResult -> Prop) (stack : option nat)
    (title : Z) (end_date : string) (part : option string)
    (change_types : option (list string)) (startStructure endStructure : JsVal) :
  P (comparison title end_date part change_types startStructure endStructure) ->
  match diffStructures stack title end_date part change_types
          startStructure endStructure with
  | Ok r => P r
  | Throw m => comparison_failure stack startStructure endStructure m
  end.
Proof.
  intros HP.
  pose proof (diffStructures_cases stack title end_date part change_types
                startStructure endStructure) as H.
  destruct (diffStructures _ _ _ _ _ _ _) as [r|m]; [|exact H].
  now destruct H as (-> & _).
Qed.

(** When the differ returns, both flatteners have returned. *)
Lemma diffStructures_flattened (stack : option nat) (title : Z)
    (end_date : string) (part : option string)
    (change_types : option (list string)) (startStructure endStructure : JsVal)
    (r : DiffResult) :
  diffStructures stack title end_date part change_types
    startStructure endStructure = Ok r ->
  r = comparison title end_date part change_types startStructure endStructure /\
  buildSectionMap stack startStructure = Ok (flat startStructure) /\
  buildSectionMap stack endStructure = Ok (flat endStructure).
Proof.
  intros Hr.
  pose proof (diffStructures_cases stack title end_date part change_types
                startStructure endStructure) as H.
  rewrite Hr in H. destruct H as (-> & Hc & Hf).
  apply andb_true_iff in Hc as [Hcs Hce], Hf as [Hfs Hfe].
  split; [reflexivity|].
  split; now apply buildSectionMap_returns.
Qed.

(** On a stack that is deep enough the differ fails on the payloads that
    do not convert only. *)
Lemma exact_diffStructures (title : Z) (end_date : string) (part : option string)
    (change_types : option (list string)) (startStructure endStructure : JsVal) :
  Exact.diffStructures title end_date part change_types
    startStructure endStructure
  = if converts startStructure && converts endStructure
    then Ok (comparison title end_date part change_types
               startStructure endStructure)
    else Throw conversion_error.
Proof.
  unfold Exact.diffStructures.
  pose proof (diffStructures_cases None title end_date part change_types
                startStructure endStructure) as H.
  destruct (diffStructures _ _ _ _ _ _ _) as [r|m].
  - destruct H as (-> & -> & _). reflexivity.
  - destruct H as [[-> ->]|[_ H]]; [reflexivity | discriminate H].
Qed.


Lemma exact_diffStructures_ok (title : Z) (end_date : string)
    (part : option string) (change_types : option (list string))
    (startStructure endStructure : JsVal) (r : DiffResult) :
  Exact.diffStructures title end_date part change_types
    startStructure endStructure = Ok r ->
  r = comparison title end_date part change_types startStructure endStructure.
Proof.
  rewrite exact_diffStructures.
  destruct (converts startStructure && converts endStructure);
    [now intros [= <-] | discriminate].
Qed.

(** The comparison, in the terms of the two flattened maps. *)
Lemma comparison_spec (title : Z) (end_date : string) (part : option string)
    (change_types : option (list string)) (startStructure endStructure : JsVal) :
  exists startMap endMap,
    startMap = flat startStructure /\ endMap = flat endStructure /\
    flattened startMap /\ flattened endMap /\
    let all := added_records title end_date part startMap endMap
               ++ removed_records title end_date part startMap endMap
               ++ modified_records title end_date part startMap endMap in
    comparison title end_date part change_types startStructure endStructure
    = {| summary := summarize (filteredChanges change_types all);
         changes := filteredChanges change_types all |}.
Proof.
  exists (flat startStructure), (flat endStructure).
  split; [reflexivity|]. split; [reflexivity|].
  split; [apply flat_flattened|]. split; [apply flat_flattened|].
  cbv zeta. unfold comparison, all_records. cbv zeta.
  rewrite !filteredChanges_kept. reflexivity.
Qed.

(** ** Counting records *)

Lemma records_of_app (t id : string) (xs ys : list ChangeRecord) :
  records_of t id (xs ++ ys) = records_of t id xs + records_of t id ys.
Proof. unfold records_of. now rewrite filter_app, length_app. Qed.

Lemma records_of_other (t t0 id : string) (cs : list ChangeRecord) :
  Forall (fun c => type c = t0) cs -> t0 <> t -> records_of t id cs = 0.
Proof.
  intros Hall Hne. unfold records_of.
  induction Hall as [|c cs Hc _ IH]; simpl; [reflexivity|].
  rewrite Hc. destruct (String.eqb_spec t0 t) as [|_]; [contradiction|].
  exact IH.
Qed.

Lemma count_entries (id : string) (p : string * JsVal -> bool) (m : Map) :
  NoDup (keys m) ->
  List.length (filter (fun kv => (fst kv =? id) && p kv) m) =
  if map_has id m && p (id, lookup id m) then 1 else 0.
Proof.
  induction m as [|[k v] rest IH]; intros Hnd; simpl; [reflexivity|].
  inversion Hnd as [|? ? Hnot Hnd']; subst.
  destruct (String.eqb_spec k id) as [->|Hne]; simpl.
  - assert (filter (fun kv => (fst kv =? id) && p kv) rest = []) as ->.
    { rewrite (filter_ext_in _ (fun _ => false)); [apply filter_false|].
      intros [k' v'] Hin. simpl.
      destruct (String.eqb_spec k' id) as [->|]; [|reflexivity].
      exfalso. apply Hnot. change (In (fst (id, v')) (List.map fst rest)).
      now apply in_map. }
    destruct (p (id, v)); reflexivity.
  - now apply IH.
Qed.

Lemma records_of_entries (t id : string) (mk : string * JsVal -> ChangeRecord)
    (p : string * JsVal -> bool) (m : Map) :
  (forall kv, type (mk kv) = t) -> (forall kv, section (mk kv) = fst kv) ->
  NoDup (keys m) ->
  records_of t id (List.map mk (filter p m)) =
  if map_has id m && p (id, lookup id m) then 1 else 0.
Proof.
  intros Ht Hs Hnd. rewrite <- (count_entries id p m Hnd).
  unfold records_of. clear Hnd.
  induction m as [|kv rest IH]; simpl; [reflexivity|].
  destruct (p kv) eqn:Hp; simpl.
  - rewrite Ht, Hs, String.eqb_refl. simpl.
    destruct (fst kv =? id); simpl; now rewrite IH.
  - rewrite andb_false_r. exact IH.
Qed.

Lemma Forall_map_type (t : string) (mk : string * JsVal -> ChangeRecord)
    (es : list (string * JsVal)) :
  (forall kv, type (mk kv) = t) ->
  Forall (fun c => type c = t) (List.map mk es).
Proof.
  intros H. apply Forall_forall. intros c Hc.
  apply in_map_iff in Hc as (kv & <- & _). apply H.
Qed.

(** The sections named by a filtered pass over a map, in the order of
    the map's keys. *)
Lemma sections_of_pass (mk : string * JsVal -> ChangeRecord)
    (p : string * JsVal -> bool) (m : Map) :
  (forall kv, section (mk kv) = fst kv) -> NoDup (keys m) ->
  List.map section (List.map mk (filter p m)) =
  filter (fun id => p (id, map_get id m)) (keys m).
Proof.
  intros Hs. unfold keys, map_get.
  induction m as [|[k v] rest IH]; intros Hnd; simpl; [reflexivity|].
  inversion Hnd as [|? ? Hnot Hnd']; subst.
  rewrite String.eqb_refl.
  assert (filter (fun id => p (id, if k =? id then v else lookup id rest))
                 (List.map fst rest)
          = filter (fun id => p (id, lookup id rest)) (List.map fst rest)) as ->.
  { apply filter_ext_in. intros id Hin.
    destruct (String.eqb_spec k id) as [->|]; [contradiction | reflexivity]. }
  destruct (p (k, v)); simpl; [rewrite Hs; simpl; f_equal|]; now apply IH.
Qed.

Lemma emitted_types_count (cs : list ChangeRecord) :
  Forall (fun c => emitted_type (type c)) cs ->
  count_type "added" cs + count_type "removed" cs + count_type "modified" cs
  = List.length cs.
Proof.
  unfold count_type.
  induction 1 as [|c cs Hc _ IH]; simpl; [reflexivity|].
  destruct Hc as [-> | [-> | ->]]; simpl; lia.
Qed.

Lemma all_emitted (title : Z) (end_date : string) (part : option string)
    (startMap endMap : Map) :
  Forall (fun c => emitted_type (type c))
    (added_records title end_date part startMap endMap
     ++ removed_records title end_date part startMap endMap
     ++ modified_records title end_date part startMap endMap).
Proof.
  unfold emitted_type.
  rewrite !Forall_app. repeat split;
    apply Forall_forall; intros c Hc;
    apply in_map_iff in Hc as (kv & <- & _); simpl; tauto.
Qed.

Lemma filteredChanges_incl (change_types : option (list string))
    (cs : list ChangeRecord) (P : ChangeRecord -> Prop) :
  Forall P cs -> Forall P (filteredChanges change_types cs).
Proof.
  intros H. destruct change_types as [wanted|]; simpl; [|exact H].
  apply Forall_forall. intros c Hc. apply filter_In in Hc as [Hc _].
  revert c Hc. now apply Forall_forall.
Qed.

(** Once both requests have answered, [diffTitleStructures] is the
    comparison of the two payloads. *)
Lemma diffTitleStructures_fetched (stack : option nat)
    (fetchStructureJson : string -> Z -> option string -> result JsVal)
    (title : Z) (start_date end_date : string) (part : option string)
    (change_types : option (list string)) (startStructure endStructure : JsVal) :
  fetchStructureJson start_date title part = Ok startStructure ->
  fetchStructureJson end_date title part = Ok endStructure ->
  diffTitleStructures stack fetchStructureJson title start_date end_date part
    change_types
  = diffStructures stack title end_date part change_types
      startStructure endStructure.
Proof.
  intros Hs He. unfold diffTitleStructures. now rewrite Hs, He.
Qed.

(** A failed request fails the comparison. *)
Lemma diffTitleStructures_failed (stack : option nat)
    (fetchStructureJson : string -> Z -> option string -> result JsVal)
    (title : Z) (start_date end_date : string) (part : option string)
    (change_types : option (list string)) (r : DiffResult) :
  diffTitleStructures stack fetchStructureJson title start_date end_date part
    change_types = Ok r ->
  exists startStructure endStructure,
    fetchStructureJson start_date title part = Ok startStructure /\
    fetchStructureJson end_date title part = Ok endStructure.
Proof.
  unfold diffTitleStructures.
  destruct (fetchStructureJson start_date title part) as [s|]; [|discriminate].
  destruct (fetchStructureJson end_date title part) as [e|]; [|discriminate].
  intros _. now exists s, e.
Qed.

(** The scenario of the specification: one added and one modified
    record, in that order. *)
Example scenario_1306 :
  exists r,
    Exact.diffStructures 21 "2025-01-01" None None start_1306 end_1306 = Ok r /\
    List.map (fun c => (type c, section c, citation c)) (changes r)
    = [("added", "1306.05", "21 CFR 1306.05");
       ("modified", "1306.04", "21 CFR 1306.04")] /\
    summary r = {| total_changes := 2; sections_added := 1;
                   sections_removed := 0; sections_modified := 1 |}.
Proof.
  eexists. split; [vm_compute; reflexivity|]. split; reflexivity.
Qed.

(** ** C6: the flattener *)

(** Two section nodes that share the identifier 1306.04: the flattener
    returns a map with the later node only. *)
Example flatten_duplicate_identifier :
  exists map,
    Exact.buildSectionMap twice_1306_04 = Ok map /\
    ~ holds_exactly_sections twice_1306_04 map.
Proof.
  exists [("1306.04", section_node "1306.04" "second")].
  split; [reflexivity|].
  intros H.
  destruct (proj2 (H (section_node "1306.04" "first"))) as [k Hk].
  - split; [|reflexivity].
    apply Subnode_child with (section_node "1306.04" "first");
      [simpl; now left | constructor].
  - destruct Hk as [Hk|[]]. discriminate Hk.
Qed.

Lemma chain_nesting (levels : nat) : nesting (chain levels) = S levels.
Proof.
  induction levels as [|n IH]; rewrite nesting_unfold; [reflexivity|].
  cbn [chain children_of lookup String.eqb Ascii.eqb Bool.eqb is_section
       strict_eq andb List.map]. simpl is_section.
  rewrite list_max_cons, IH. simpl list_max. lia.
Qed.

Lemma chain_converts (levels : nat) : converts (chain levels) = true.
Proof.
  induction levels as [|n IH]; rewrite converts_unfold; [reflexivity|].
  simpl is_section. simpl children_of. cbn [forallb]. now rewrite IH.
Qed.



(** A document with more levels than the call stack has room for. *)
Lemma chain_overflows (frames : nat) :
  buildSectionMap (Some frames) (chain frames) = Throw stack_error.
Proof.
  pose proof (buildSectionMap_cases (Some frames) (chain frames)) as H.
  destruct (buildSectionMap (Some frames) (chain frames)) as [m|msg].
  - destruct H as (_ & _ & H). unfold fits in H.
    rewrite chain_nesting in H. apply Nat.leb_le in H. lia.
  - destruct H as [[_ H]|[-> _]]; [|reflexivity].
    rewrite chain_converts in H. discriminate H.
Qed.

(** C6, counterexample: on a payload with one section whose identifier
    is an object holding a toString entry, valid JSON, the flattener
    throws the TypeError of the conversion; on a document of nested
    divisions with more levels than the call stack has room for it throws
    a RangeError, whatever the room; and on a tree in which two section
    nodes share the identifier 1306.04 it returns a map with the later
    node only, so the map does not contain every node with type section
    and a non-empty identifier. *)
Lemma flatten_raises_or_merges :
  Exact.buildSectionMap section_keyed_by_object = Throw conversion_error /\
  (forall frames,
     buildSectionMap (Some frames) (chain frames) = Throw stack_error) /\
  (exists map,
     Exact.buildSectionMap twice_1306_04 = Ok map /\
     ~ holds_exactly_sections twice_1306_04 map).
Proof.
  split; [reflexivity|]. split; [exact chain_overflows|].
  exact flatten_duplicate_identifier.
Qed.

(** C6 (amended): for every input tree, malformed or not, and whatever
    the room on the call stack, the flattener returns a map exactly when
    the identifier of every indexed node converts to a string and the
    stack has room for the walk; otherwise it throws, the TypeError
    "Cannot convert object to primitive value" only if some identifier
    does not convert, the RangeError "Maximum call stack size exceeded"
    only if the stack has no room.  Every entry of a returned map is a
    node of the tree (reached through [children] arrays whatever the
    types on the way) that is an object with [type] equal to "section"
    and a truthy [identifier], stored under the string of that
    identifier; the identifier string of every such node is a key of the
    map; the node is the value of its key whenever no other such node of
    the tree has the same identifier string, and in general a key holds
    the last such node, in the order of the visit, that has it as
    identifier.  Keys are pairwise distinct. *)
Theorem flatten_outcomes (stack : option nat) (root : JsVal) :
  ((exists map, buildSectionMap stack root = Ok map) <->
   converts root = true /\ fits stack root = true) /\
  match buildSectionMap stack root with
  | Ok map =>
      NoDup (keys map) /\
      (forall k n, In (k, n) (entries map) ->
         Subnode n root /\ is_section n = true /\
         StringOf (opt_member n "identifier") = Ok k) /\
      (forall n, Subnode n root -> is_section n = true ->
         exists k, StringOf (opt_member n "identifier") = Ok k /\
                   map_has k map = true) /\
      (forall n, Subnode n root -> is_section n = true ->
         (forall n', Subnode n' root -> is_section n' = true ->
                     StringOf (opt_member n' "identifier")
                     = StringOf (opt_member n "identifier") -> n' = n) ->
         exists k, StringOf (opt_member n "identifier") = Ok k /\
                   In (k, n) (entries map)) /\
      (forall k, map_get k map = last_with_key k (sections_of root))
  | Throw message => flatten_failure stack root message
  end.
Proof.
  pose proof (buildSectionMap_cases stack root) as H. split.
  - split.
    + intros [map Hmap]. rewrite Hmap in H. tauto.
    + intros [Hc Hf]. exists (flat root). now apply buildSectionMap_returns.
  - destruct (buildSectionMap stack root) as [map|msg]; [|exact H].
    destruct H as (-> & Hconv & _).
    assert (forall n, Subnode n root -> is_section n = true ->
              StringOf (opt_member n "identifier") = Ok (section_key n)) as Hkey.
    { intros n Hsub Hsec. apply StringOf_key.
      unfold converts in Hconv. rewrite forallb_forall in Hconv.
      apply Hconv. apply sections_of_In. now split. }
    split; [apply flat_flattened|].
    split; [|split; [|split]].
    + intros k n Hin. destruct (flat_entries _ _ _ Hin) as (Hsub & Hsec & ->).
      split; [assumption|]. split; [assumption | now apply Hkey].
    + intros n Hsub Hsec. exists (section_key n).
      split; [now apply Hkey|]. apply set_all_has. apply sections_of_In.
      now split.
    + intros n Hsub Hsec Huniq. exists (section_key n).
      split; [now apply Hkey|].
      assert (In n (sections_of root)) as Hn by (apply sections_of_In; now split).
      unfold flat, entries.
      rewrite <- (set_all_lookup (sections_of root) new_Map n) at 2.
      * apply In_lookup. now apply set_all_has.
      * intros n' Hn' Hk. apply sections_of_In in Hn' as [Hsub' Hsec'].
        apply Huniq; try assumption.
        rewrite (Hkey n Hsub Hsec), (Hkey n' Hsub' Hsec'). now f_equal.
      * now left.
    + intros k. apply set_all_last.
Qed.

(** ** C1: three-way classification *)

(** C1: for the two section maps flattened from any pair of structure
    payloads, the unfiltered change list holds exactly one added record
    for each identifier of endMap missing from startMap, exactly one
    removed record for each identifier of startMap missing from endMap,
    exactly one modified record for each identifier of both maps whose
    label_description, reserved, received_on or size is [!==] between
    the two node versions, no record for an identifier of both maps
    whose four fields are [===], and no record of any other type.
    Whatever the room on the call stack, the differ returns unless an
    identifier does not convert to a string or the stack has no room for
    the walk of a payload. *)
Theorem diff_classification (stack : option nat) (title : Z)
    (end_date : string) (part : option string)
    (startStructure endStructure : JsVal) :
  match diffStructures stack title end_date part None
          startStructure endStructure with
  | Ok r =>
      exists startMap endMap,
        buildSectionMap stack startStructure = Ok startMap /\
        buildSectionMap stack endStructure = Ok endMap /\
        (forall id, records_of "added" id (changes r) =
           if map_has id endMap && negb (map_has id startMap) then 1 else 0) /\
        (forall id, records_of "removed" id (changes r) =
           if map_has id startMap && negb (map_has id endMap) then 1 else 0) /\
        (forall id, records_of "modified" id (changes r) =
           if map_has id startMap && map_has id endMap
              && metadata_differs (map_get id endMap) (map_get id startMap)
           then 1 else 0) /\
        (forall c, In c (changes r) -> emitted_type (type c))
  | Throw m => comparison_failure stack startStructure endStructure m
  end.
Proof.
  pose proof (diffStructures_cases stack title end_date part None
                startStructure endStructure) as Hcases.
  destruct (diffStructures _ _ _ _ _ _ _) as [r|m] eqn:Hr; [|exact Hcases].
  clear Hcases. apply diffStructures_flattened in Hr as (-> & Hsm & Hem).
  rewrite Hsm, Hem.
  destruct (comparison_spec title end_date part None
              startStructure endStructure)
    as (startMap & endMap & <- & <- & [Hnds _] & [Hnde _] & Hdiff).
  cbv zeta in Hdiff. simpl filteredChanges in Hdiff. rewrite Hdiff.
  exists startMap, endMap.
  split; [reflexivity|]. split; [reflexivity|].
  cbn [changes].
  assert (Forall (fun c => type c = "added")
            (added_records title end_date part startMap endMap)) as HA
    by (now apply Forall_map_type).
  assert (Forall (fun c => type c = "removed")
            (removed_records title end_date part startMap endMap)) as HR
    by (now apply Forall_map_type).
  assert (Forall (fun c => type c = "modified")
            (modified_records title end_date part startMap endMap)) as HM
    by (now apply Forall_map_type).
  repeat split.
  - intros id. rewrite !records_of_app.
    rewrite (records_of_other _ _ _ _ HR), (records_of_other _ _ _ _ HM)
      by discriminate.
    unfold added_records, entries.
    rewrite records_of_entries by (assumption || reflexivity).
    unfold is_added. simpl. lia.
  - intros id. rewrite !records_of_app.
    rewrite (records_of_other _ _ _ _ HA), (records_of_other _ _ _ _ HM)
      by discriminate.
    unfold removed_records, entries.
    rewrite records_of_entries by (assumption || reflexivity).
    unfold is_removed. simpl. lia.
  - intros id. rewrite !records_of_app.
    rewrite (records_of_other _ _ _ _ HA), (records_of_other _ _ _ _ HR)
      by discriminate.
    unfold modified_records, entries.
    rewrite records_of_entries by (assumption || reflexivity).
    unfold is_modified, map_get. simpl.
    destruct (map_has id endMap), (map_has id startMap); reflexivity.
  - intros c Hc.
    pose proof (all_emitted title end_date part startMap endMap) as Hall.
    rewrite Forall_forall in Hall. now apply Hall.
Qed.

(** ** C2: the filter and the summary *)

Lemma of_types_In (wanted : list string) (cs : list ChangeRecord)
    (c : ChangeRecord) :
  In c (of_types wanted cs) <-> In c cs /\ In (type c) wanted.
Proof.
  unfold of_types. rewrite filter_In.
  destruct (in_dec string_dec (type c) wanted); intuition congruence.
Qed.

(** C2: the records of a comparison are, before any filter, the added
    records, the removed records and the modified records of the two
    payloads.  With change_types omitted the differ returns them all;
    with a change_types list (empty or not) it returns those of them
    whose type is in the list, so every returned record has a type of
    the list; in both cases the four counts of the summary are the length
    of the returned list and the numbers of added, removed and modified
    records in it.  Whatever the room on the call stack, the differ
    returns unless an identifier does not convert to a string or the
    stack has no room for the walk of a payload. *)
Theorem filter_and_summary (stack : option nat) (title : Z)
    (end_date : string) (part : option string)
    (change_types : option (list string))
    (startStructure endStructure : JsVal) :
  match diffStructures stack title end_date part change_types
          startStructure endStructure with
  | Ok r =>
      (exists unfiltered,
         diffStructures stack title end_date part None
           startStructure endStructure = Ok unfiltered /\
         changes unfiltered
         = all_records title end_date part startStructure endStructure /\
         changes r = match change_types with
                     | Some wanted => of_types wanted (changes unfiltered)
                     | None => changes unfiltered
                     end) /\
      (forall wanted, change_types = Some wanted ->
         forall c, In c (changes r) <->
                   In c (all_records title end_date part
                           startStructure endStructure) /\
                   In (type c) wanted) /\
      total_changes (summary r) = List.length (changes r) /\
      sections_added (summary r)
      = List.length (filter (fun c => type c =? "added") (changes r)) /\
      sections_removed (summary r)
      = List.length (filter (fun c => type c =? "removed") (changes r)) /\
      sections_modified (summary r)
      = List.length (filter (fun c => type c =? "modified") (changes r))
  | Throw m => comparison_failure stack startStructure endStructure m
  end.
Proof.
  pose proof (diffStructures_cases stack title end_date part change_types
                startStructure endStructure) as Hcases.
  destruct (diffStructures _ _ _ _ _ _ _) as [r|m] eqn:Hr; [|exact Hcases].
  destruct Hcases as (-> & Hc & Hf).
  split.
  - eexists. split; [now apply diffStructures_returns|].
    split; [reflexivity|]. now destruct change_types.
  - split; [|now repeat split].
    intros wanted ->. intros c. cbn [comparison changes kept_records].
    apply of_types_In.
Qed.

(** ** C4: order of the change list *)

(** C4: the change list is the added records in the order of endMap's
    keys, then the removed records in the order of startMap's keys, then
    the modified records in the order of endMap's keys; a change_types
    filter only drops records from that sequence.  Whatever the room on
    the call stack, the differ returns unless an identifier does not
    convert to a string or the stack has no room for the walk of a
    payload. *)
Theorem diff_order (stack : option nat) (title : Z) (end_date : string)
    (part : option string) (change_types : option (list string))
    (startStructure endStructure : JsVal) :
  match diffStructures stack title end_date part change_types
          startStructure endStructure with
  | Ok r =>
      exists startMap endMap A R M,
        buildSectionMap stack startStructure = Ok startMap /\
        buildSectionMap stack endStructure = Ok endMap /\
        changes r = match change_types with
                    | Some wanted =>
                        filter (fun c => includes wanted (type c)) (A ++ R ++ M)
                    | None => A ++ R ++ M
                    end /\
        Forall (fun c => type c = "added") A /\
        List.map section A =
          filter (fun id => negb (map_has id startMap)) (keys endMap) /\
        Forall (fun c => type c = "removed") R /\
        List.map section R =
          filter (fun id => negb (map_has id endMap)) (keys startMap) /\
        Forall (fun c => type c = "modified") M /\
        List.map section M =
          filter (fun id => map_has id startMap
                            && metadata_differs (map_get id endMap)
                                                (map_get id startMap))
                 (keys endMap)
  | Throw m => comparison_failure stack startStructure endStructure m
  end.
Proof.
  pose proof (diffStructures_cases stack title end_date part change_types
                startStructure endStructure) as Hcases.
  destruct (diffStructures _ _ _ _ _ _ _) as [r|m] eqn:Hr; [|exact Hcases].
  clear Hcases. apply diffStructures_flattened in Hr as (-> & Hsm & Hem).
  rewrite Hsm, Hem.
  destruct (comparison_spec title end_date part change_types
              startStructure endStructure)
    as (startMap & endMap & <- & <- & [Hnds _] & [Hnde _] & Hdiff).
  cbv zeta in Hdiff. rewrite Hdiff.
  exists startMap, endMap,
    (added_records title end_date part startMap endMap),
    (removed_records title end_date part startMap endMap),
    (modified_records title end_date part startMap endMap).
  split; [reflexivity|]. split; [reflexivity|].
  cbn [changes].
  split; [destruct change_types; reflexivity|].
  split; [now apply Forall_map_type|].
  split; [unfold added_records, entries;
          now rewrite sections_of_pass by (assumption || reflexivity)|].
  split; [now apply Forall_map_type|].
  split; [unfold removed_records, entries;
          now rewrite sections_of_pass by (assumption || reflexivity)|].
  split; [now apply Forall_map_type|].
  unfold modified_records, entries.
  now rewrite sections_of_pass by (assumption || reflexivity).
Qed.

(** ** C8: additivity of the summary *)

Lemma comparison_emitted (title : Z) (end_date : string) (part : option string)
    (change_types : option (list string)) (startStructure endStructure : JsVal) :
  Forall (fun c => emitted_type (type c))
    (changes (comparison title end_date part change_types
                startStructure endStructure)).
Proof.
  destruct (comparison_spec title end_date part change_types
              startStructure endStructure)
    as (startMap & endMap & _ & _ & _ & _ & Hdiff).
  cbv zeta in Hdiff. rewrite Hdiff. cbn [changes].
  apply filteredChanges_incl, all_emitted.
Qed.

(** C8: whatever the change_types filter, the summary of a result of
    the differ satisfies
    sections_added + sections_removed + sections_modified = total_changes.
    Whatever the room on the call stack, the differ returns unless an
    identifier does not convert to a string or the stack has no room for
    the walk of a payload. *)
Theorem summary_additive (stack : option nat) (title : Z) (end_date : string)
    (part : option string) (change_types : option (list string))
    (startStructure endStructure : JsVal) :
  match diffStructures stack title end_date part change_types
          startStructure endStructure with
  | Ok r =>
      sections_added (summary r) + sections_removed (summary r)
      + sections_modified (summary r) = total_changes (summary r)
  | Throw m => comparison_failure stack startStructure endStructure m
  end.
Proof.
  apply diff_transfer.
  pose proof (comparison_emitted title end_date part change_types
                startStructure endStructure) as H.
  unfold comparison in *. cbn [changes summary tally sections_added
    sections_removed sections_modified total_changes] in *.
  now apply emitted_types_count.
Qed.

(** ** C10: an empty filter list keeps nothing *)

(** C10: with change_types given as an empty list the differ returns no
    change and a summary whose four counts are zero, for every pair of
    payloads on which it returns, which it does, whatever the room on
    the call stack, unless an identifier does not convert to a string or
    the stack has no room for the walk of a payload; on the payloads of
    the specification's scenario, which differ by two changes when no
    filter is given, it does so too. *)
Theorem empty_filter_keeps_none :
  (forall (stack : option nat) (title : Z) (end_date : string)
          (part : option string) (startStructure endStructure : JsVal),
     match diffStructures stack title end_date part (Some [])
             startStructure endStructure with
     | Ok r =>
         r = {| summary := {| total_changes := 0; sections_added := 0;
                              sections_removed := 0; sections_modified := 0 |};
                changes := [] |}
     | Throw m => comparison_failure stack startStructure endStructure m
     end) /\
  (exists r,
     Exact.diffStructures 21 "2025-01-01" None None start_1306 end_1306 = Ok r /\
     total_changes (summary r) = 2) /\
  Exact.diffStructures 21 "2025-01-01" None (Some []) start_1306 end_1306
  = Ok {| summary := {| total_changes := 0; sections_added := 0;
                        sections_removed := 0; sections_modified := 0 |};
          changes := [] |}.
Proof.
  split; [|split].
  - intros stack title end_date part startStructure endStructure.
    apply diff_transfer.
    unfold comparison, kept_records, of_types. cbn [in_dec].
    now rewrite filter_false.
  - eexists. split; [vm_compute; reflexivity | reflexivity].
  - vm_compute. reflexivity.
Qed.

(** ** C3: the part of a record *)

(** What the three passes put in [part]: an added record falls back on
    the hierarchy of its node, a removed or modified record does not. *)
Lemma record_parts (title : Z) (end_date : string) (part : option string)
    (startMap endMap : Map) (c : ChangeRecord) :
  In c (added_records title end_date part startMap endMap
        ++ removed_records title end_date part startMap endMap
        ++ modified_records title end_date part startMap endMap) ->
  (type c = "added" /\
   exists node, In (section c, node) (entries endMap) /\
     record_part c = part_or_hierarchy part node)
  \/ ((type c = "removed" \/ type c = "modified") /\
      record_part c = part_or_null part).
Proof.
  rewrite !in_app_iff.
  intros [H|[H|H]]; apply in_map_iff in H as ([id node] & <- & Hkv);
    apply filter_In in Hkv as [Hkv _]; simpl.
  - left. split; [reflexivity|]. now exists node.
  - right. split; [now left | reflexivity].
  - right. split; [now right | reflexivity].
Qed.

(** C3, the code at the failing input: section 1306.07 carries
    hierarchy.part = "1306" and the caller gives no part.  When the
    section disappears, the removed record has part null; when it
    appears, the added record has part "1306". *)
Theorem removed_record_part_is_null :
  opt_member (opt_member section_1306_07 "hierarchy") "part" = JStr "1306" /\
  (exists r c,
     Exact.diffStructures 21 "2025-01-01" None None
       (title_of [section_1306_07]) (title_of []) = Ok r /\
     changes r = [c] /\ type c = "removed" /\ section c = "1306.07" /\
     record_part c = JNull) /\
  (exists r c,
     Exact.diffStructures 21 "2025-01-01" None None
       (title_of []) (title_of [section_1306_07]) = Ok r /\
     changes r = [c] /\ type c = "added" /\ section c = "1306.07" /\
     record_part c = JStr "1306").
Proof.
  split; [reflexivity|].
  split; do 2 eexists; (split; [vm_compute; reflexivity|]);
    cbn [changes]; repeat split; reflexivity.
Qed.

(** ** C9: identical snapshots *)

Lemma strict_neq_same (v : JsVal) :
  is_primitive v = true -> strict_neq v v = false.
Proof.
  unfold strict_neq. destruct v as [| |b|n|s|items|props]; simpl;
    try discriminate; intros _; try reflexivity.
  - now destruct b.
  - now rewrite String.eqb_refl.
  - now rewrite String.eqb_refl.
Qed.


Lemma In_has (k : string) (n : JsVal) (m : Map) :
  In (k, n) m -> map_has k m = true.
Proof.
  intros H. apply map_has_In. change k with (fst (k, n)). now apply in_map.
Qed.

(** A payload whose section 1306.04 holds an array in [size], compared
    with an identical payload fetched separately, yields one modified
    record, since the two arrays are different objects and [!==] tells
    them apart. *)
Example array_size_differs_from_itself :
  exists r,
    Exact.diffStructures 21 "2025-01-01" None None
      (title_of [section_sized_by_array]) (title_of [section_sized_by_array])
    = Ok r /\
    total_changes (summary r) = 1 /\ sections_modified (summary r) = 1.
Proof.
  eexists. split; [vm_compute; reflexivity|]. split; reflexivity.
Qed.





(** ** C7: overlap of date ranges *)

Lemma digit_range (c : ascii) (n : Z) :
  Calendar.digit c = Some n -> (0 <= n <= 9)%Z.
Proof.
  unfold Calendar.digit.
  destruct ((48 <=? Z.of_nat (nat_of_ascii c))%Z
            && (Z.of_nat (nat_of_ascii c) <=? 57)%Z) eqn:E; [|discriminate].
  intros [= <-]. apply andb_true_iff in E as [E1 E2]. lia.
Qed.

Lemma days_from_civil_range (y m d : Z) :
  (0 <= y <= 9999 -> 1 <= m <= 12 -> 1 <= d <= 31 ->
   -100000000 <= Calendar.days_from_civil y m d <= 100000000)%Z.
Proof.
  intros Hy Hm Hd. unfold Calendar.days_from_civil.
  destruct (m <=? 2)%Z, (m >? 2)%Z; cbv zeta; Z.div_mod_to_equations; lia.
Qed.

Lemma days_in_month_max (y m : Z) : (Calendar.days_in_month y m <= 31)%Z.
Proof.
  unfold Calendar.days_in_month.
  destruct m as [|p|p]; try lia.
  do 4 (try destruct p as [p|p|]; try lia);
    destruct (Calendar.is_leap y); lia.
Qed.

Lemma civil_time_range (y m d t : Z) :
  (0 <= y <= 9999)%Z -> Calendar.civil_time y m d = Some t ->
  (Calendar.minTime <= t <= Calendar.maxTime)%Z.
Proof.
  intros Hy. unfold Calendar.civil_time.
  destruct ((1 <=? m) && (m <=? 12) && (1 <=? d)
            && (d <=? Calendar.days_in_month y m))%Z eqn:E; [|discriminate].
  intros [= <-]. rewrite !andb_true_iff in E.
  destruct E as [[[E1 E2] E3] E4].
  pose proof (days_in_month_max y m).
  pose proof (days_from_civil_range y m d).
  unfold Calendar.minTime, Calendar.maxTime, Calendar.msPerDay. lia.
Qed.

Lemma iso_date_range (s : string) (t : Z) :
  Calendar.iso_date s = Some t -> (Calendar.minTime <= t <= Calendar.maxTime)%Z.
Proof.
  unfold Calendar.iso_date.
  destruct (list_ascii_of_string s) as [|y1 l]; [discriminate|].
  destruct l as [|y2 l]; [discriminate|].
  destruct l as [|y3 l]; [discriminate|].
  destruct l as [|y4 l]; [discriminate|].
  destruct l as [|sep1 l]; [discriminate|].
  destruct l as [|m1 l]; [discriminate|].
  destruct l as [|m2 l]; [discriminate|].
  destruct l as [|sep2 l]; [discriminate|].
  destruct l as [|d1 l]; [discriminate|].
  destruct l as [|d2 l]; [discriminate|].
  destruct l; [|discriminate].
  destruct (_ && _); [|discriminate].
  cbn [Calendar.number_of].
  destruct (Calendar.digit y1) as [a|] eqn:D1; [|discriminate].
  destruct (Calendar.digit y2) as [b|] eqn:D2; [|discriminate].
  destruct (Calendar.digit y3) as [c|] eqn:D3; [|discriminate].
  destruct (Calendar.digit y4) as [d|] eqn:D4; [|discriminate].
  destruct (Calendar.digit m1); [|discriminate].
  destruct (Calendar.digit m2); [|discriminate].
  destruct (Calendar.digit d1); [|discriminate].
  destruct (Calendar.digit d2); [|discriminate].
  apply civil_time_range.
  apply digit_range in D1, D2, D3, D4. lia.
Qed.

Lemma TimeClip_range (t t' : Z) :
  Calendar.TimeClip t = Some t' -> (Calendar.minTime <= t' <= Calendar.maxTime)%Z.
Proof.
  unfold Calendar.TimeClip.
  destruct ((Calendar.minTime <=? t) && (t <=? Calendar.maxTime))%Z eqn:E;
    [|discriminate].
  intros [= <-]. apply andb_true_iff in E as [E1 E2]. lia.
Qed.

(** Every date the program holds lies between the two sentinels. *)
Lemma toDate_range (other_parse : string -> option Z) (value : option string)
    (t : Z) :
  toDate other_parse value = Some t ->
  (Calendar.minTime <= t <= Calendar.maxTime)%Z.
Proof.
  unfold toDate, Date_parse.
  destruct value as [s|]; [|discriminate].
  destruct (negb (truthy (JStr s))); [discriminate|].
  destruct (Calendar.iso_date s) as [t0|] eqn:E.
  - intros [= <-]. now apply iso_date_range with s.
  - destruct (other_parse s) as [t0|]; [|discriminate].
    apply TimeClip_range.
Qed.

(** C7: an absent item start acts as a date before every date (the
    filter's end then never excludes the item), an absent item end as a
    date after every date (the filter's start then never excludes it);
    with both filter bounds open (absent or empty) every item overlaps;
    rangesOverlap("2024-01-01","2024-06-01",undefined,"2024-02-01") is
    true and rangesOverlap("2024-01-01","2024-02-01","2024-03-01",
    undefined) is false. *)
Theorem rangesOverlap_open_bounds (other_parse : string -> option Z) :
  (forall fs fe ie,
     rangesOverlap other_parse fs fe None ie
     = rangesOverlap other_parse fs None None ie) /\
  (forall fs fe is_ ie,
     rangesOverlap other_parse fs fe is_ ie = true ->
     rangesOverlap other_parse fs fe None ie = true) /\
  (forall fs fe is_,
     rangesOverlap other_parse fs fe is_ None
     = rangesOverlap other_parse None fe is_ None) /\
  (forall fs fe is_ ie,
     rangesOverlap other_parse fs fe is_ ie = true ->
     rangesOverlap other_parse fs fe is_ None = true) /\
  (forall is_ ie, rangesOverlap other_parse None None is_ ie = true) /\
  (forall is_ ie, rangesOverlap other_parse (Some "") (Some "") is_ ie = true) /\
  rangesOverlap other_parse (Some "2024-01-01") (Some "2024-06-01")
                None (Some "2024-02-01") = true /\
  rangesOverlap other_parse (Some "2024-01-01") (Some "2024-02-01")
                (Some "2024-03-01") None = false.
Proof.
  assert (forall v t, toDate other_parse v = Some t ->
            (Calendar.minTime >? t)%Z = false /\ (Calendar.maxTime <? t)%Z = false)
    as Hsentinel.
  { intros v t H. apply toDate_range in H. split; lia. }
  split; [|split; [|split; [|split; [|split; [|split; [|split]]]]]].
  - intros fs fe ie. unfold rangesOverlap.
    change (toDate other_parse None) with (@None Z). cbv zeta.
    destruct (toDate other_parse fe) as [t|] eqn:E; [|reflexivity].
    now rewrite (proj1 (Hsentinel _ _ E)).
  - intros fs fe is_ ie. unfold rangesOverlap.
    change (toDate other_parse None) with (@None Z). cbv zeta.
    destruct (match toDate other_parse fs with
              | Some fs0 => _ | None => false end); [discriminate|].
    destruct (toDate other_parse fe) as [t|] eqn:E; [|reflexivity].
    now rewrite (proj1 (Hsentinel _ _ E)).
  - intros fs fe is_. unfold rangesOverlap.
    change (toDate other_parse None) with (@None Z). cbv zeta.
    destruct (toDate other_parse fs) as [t|] eqn:E; [|reflexivity].
    now rewrite (proj2 (Hsentinel _ _ E)).
  - intros fs fe is_ ie. unfold rangesOverlap.
    change (toDate other_parse None) with (@None Z). cbv zeta.
    destruct (toDate other_parse fs) as [t|] eqn:E.
    + rewrite (proj2 (Hsentinel _ _ E)).
      destruct (_ <? t)%Z; [discriminate | trivial].
    + trivial.
  - reflexivity.
  - reflexivity.
  - reflexivity.
  - reflexivity.
Qed.

(** The date-range examples of the specification that do not depend on
    how the engine reads a malformed date. *)
Example isWithinRange_examples (other_parse : string -> option Z) :
  isWithinRange other_parse (Some "2024-06-15") (Some "2024-01-01")
                (Some "2024-12-31") = true /\
  isWithinRange other_parse (Some "2023-12-31") (Some "2024-01-01") None
  = false /\
  isWithinRange other_parse None (Some "2024-01-01") None = false.
Proof. repeat split. Qed.

(** ** C5: clamping the end date *)

Lemma ltb_lex_greater (a b : string) : String.ltb a b = lex_greater b a.
Proof.
  unfold String.ltb, lex_greater. rewrite (String.compare_antisym a b).
  destruct (String.compare b a); reflexivity.
Qed.

(** The conditional both handlers evaluate is the clamp. *)
Lemma inline_clamp (latestIssue : option string) (end_date : string) :
  match latestIssue with
  | Some latest =>
      if truthy (JStr latest) && String.ltb latest end_date
      then latest else end_date
  | None => end_date
  end = clampEndDate end_date latestIssue.
Proof.
  destruct latestIssue as [latest|]; [|reflexivity].
  unfold clampEndDate. simpl. now rewrite ltb_lex_greater.
Qed.

Lemma compare_handler_at (stack : option nat)
    (fetchStructureJson : string -> Z -> option string -> result JsVal)
    (fetchTitleMeta : Z -> result (option TitleMeta))
    (title : Z) (start_date end_date : string) (part : option string)
    (change_types : option (list string)) (meta : option TitleMeta) :
  fetchTitleMeta title = Ok meta ->
  ecfr_compare_title_dates stack fetchStructureJson fetchTitleMeta
    title start_date end_date part change_types
  = comparison_at stack fetchStructureJson title start_date
      (clampEndDate end_date (latestIssue_of meta)) part change_types.
Proof.
  intros Hmeta. unfold ecfr_compare_title_dates, comparison_at.
  rewrite Hmeta. cbn [bind]. cbv zeta. rewrite inline_clamp.
  unfold report. now rewrite nullish_part.
Qed.

Lemma recent_handler_at (stack : option nat)
    (fetchStructureJson : string -> Z -> option string -> result JsVal)
    (fetchTitleMeta : Z -> result (option TitleMeta))
    (today : string) (daysBefore : string -> Z -> result string)
    (title : Z) (days : option Z) (part end_date : option string)
    (change_types : option (list string)) (meta : option TitleMeta) :
  fetchTitleMeta title = Ok meta ->
  ecfr_get_recent_changes stack fetchStructureJson fetchTitleMeta today
    daysBefore title days part end_date change_types
  = recent_changes_at stack fetchStructureJson daysBefore title days
      (clampEndDate (match end_date with Some e => e | None => today end)
                    (latestIssue_of meta)) part change_types.
Proof.
  intros Hmeta. unfold ecfr_get_recent_changes, recent_changes_at.
  rewrite Hmeta. cbn [bind]. cbv zeta. rewrite inline_clamp.
  unfold report. now rewrite nullish_part.
Qed.

Lemma clamp_down (requested latest : string) :
  latest <> "" -> String.compare requested latest = Gt ->
  clampEndDate requested (Some latest) = latest.
Proof.
  intros Hne Hgt. unfold clampEndDate, lex_greater. simpl.
  apply String.eqb_neq in Hne. now rewrite Hne, Hgt.
Qed.

Lemma clamp_kept (requested : string) (meta : option TitleMeta) :
  match meta with
  | Some {| latest_issue_date := Some latest |} =>
      latest = "" \/ String.compare requested latest <> Gt
  | _ => True
  end ->
  clampEndDate requested (latestIssue_of meta) = requested.
Proof.
  destruct meta as [[[latest|]]|]; simpl; try reflexivity.
  intros [->|Hle]; [reflexivity|].
  unfold clampEndDate, lex_greater.
  destruct (String.compare requested latest); try congruence;
    now rewrite andb_false_r.
Qed.

(** C5: when the listing gives the title a latest_issue_date that is
    not empty and the requested end date is lexicographically greater,
    ecfr_compare_title_dates answers as the comparison run up to the
    latest issue date, which it requests and echoes; in every other case
    (no entry for the title, no latest_issue_date, an empty one, or a
    requested end date that is not greater) it answers as the comparison
    run up to the requested end date.  With latest_issue_date
    "2025-01-01" and end_date "2025-06-01" the comparison runs up to
    "2025-01-01".  ecfr_get_recent_changes does the same with its
    end_date or, failing one, with today. *)
Theorem end_date_clamped :
  (forall stack fetchStructureJson fetchTitleMeta title start_date end_date
          part change_types latest,
     fetchTitleMeta title = Ok (Some {| latest_issue_date := Some latest |}) ->
     latest <> "" -> String.compare end_date latest = Gt ->
     ecfr_compare_title_dates stack fetchStructureJson fetchTitleMeta
       title start_date end_date part change_types
     = comparison_at stack fetchStructureJson title start_date latest
         part change_types) /\
  (forall stack fetchStructureJson fetchTitleMeta title start_date end_date
          part change_types meta,
     fetchTitleMeta title = Ok meta ->
     match meta with
     | Some {| latest_issue_date := Some latest |} =>
         latest = "" \/ String.compare end_date latest <> Gt
     | _ => True
     end ->
     ecfr_compare_title_dates stack fetchStructureJson fetchTitleMeta
       title start_date end_date part change_types
     = comparison_at stack fetchStructureJson title start_date end_date
         part change_types) /\
  (forall stack fetchStructureJson title start_date part change_types,
     ecfr_compare_title_dates stack fetchStructureJson
       (listing_with "2025-01-01") title start_date "2025-06-01"
       part change_types
     = comparison_at stack fetchStructureJson title start_date "2025-01-01"
         part change_types) /\
  (forall stack fetchStructureJson fetchTitleMeta today daysBefore title days
          part end_date change_types latest,
     fetchTitleMeta title = Ok (Some {| latest_issue_date := Some latest |}) ->
     latest <> "" ->
     String.compare (match end_date with Some e => e | None => today end)
                    latest = Gt ->
     ecfr_get_recent_changes stack fetchStructureJson fetchTitleMeta today
       daysBefore title days part end_date change_types
     = recent_changes_at stack fetchStructureJson daysBefore title days
         latest part change_types) /\
  (forall stack fetchStructureJson fetchTitleMeta today daysBefore title days
          part end_date change_types meta,
     fetchTitleMeta title = Ok meta ->
     match meta with
     | Some {| latest_issue_date := Some latest |} =>
         latest = "" \/
         String.compare (match end_date with Some e => e | None => today end)
                        latest <> Gt
     | _ => True
     end ->
     ecfr_get_recent_changes stack fetchStructureJson fetchTitleMeta today
       daysBefore title days part end_date change_types
     = recent_changes_at stack fetchStructureJson daysBefore title days
         (match end_date with Some e => e | None => today end)
         part change_types) /\
  (forall stack fetchStructureJson today daysBefore title days part
          change_types,
     ecfr_get_recent_changes stack fetchStructureJson
       (listing_with "2025-01-01") today daysBefore title days part
       (Some "2025-06-01") change_types
     = recent_changes_at stack fetchStructureJson daysBefore title days
         "2025-01-01" part change_types).
Proof.
  split; [|split; [|split; [|split; [|split]]]].
  - intros * Hmeta Hne Hgt.
    rewrite (compare_handler_at _ _ _ _ _ _ _ _ _ Hmeta).
    cbn [latestIssue_of latest_issue_date]. now rewrite clamp_down.
  - intros * Hmeta Hcase.
    rewrite (compare_handler_at _ _ _ _ _ _ _ _ _ Hmeta).
    now rewrite clamp_kept.
  - intros. now rewrite (compare_handler_at _ _ _ _ _ _ _ _ _ eq_refl).
  - intros * Hmeta Hne Hgt.
    rewrite (recent_handler_at _ _ _ _ _ _ _ _ _ _ _ Hmeta).
    cbn [latestIssue_of latest_issue_date]. now rewrite clamp_down.
  - intros * Hmeta Hcase.
    rewrite (recent_handler_at _ _ _ _ _ _ _ _ _ _ _ Hmeta).
    now rewrite clamp_kept.
  - intros. now rewrite (recent_handler_at _ _ _ _ _ _ _ _ _ _ _ eq_refl).
Qed.

(** * Further properties of the comparison engine *)

(** ** The change list as a whole *)




(** ** Swapping the two snapshots *)







(** ** The filter and the types the differ emits *)







(** ** What a record carries *)

Lemma record_contents (title : Z) (end_date : string) (part : option string)
    (change_types : option (list string)) (startStructure endStructure : JsVal)
    (c : ChangeRecord) :
  In c (changes (comparison title end_date part change_types
                   startStructure endStructure)) ->
  change_date c = end_date /\
  citation c = (string_of_Z title ++ " CFR " ++ section c)%string /\
  ((type c = "added" /\
    heading c
    = Some (heading_text (map_get (section c) (flat endStructure))) /\
    description c = None /\
    start_metadata c = None /\ end_metadata c = None)
   \/ (type c = "removed" /\
       heading c
       = Some (heading_text (map_get (section c) (flat startStructure))) /\
       description c = None /\
       start_metadata c = None /\ end_metadata c = None)
   \/ (type c = "modified" /\
       heading c = None /\
       description c = Some "Section metadata changed between snapshots." /\
       start_metadata c
       = Some (metadata_of (map_get (section c) (flat startStructure))) /\
       end_metadata c
       = Some (metadata_of (map_get (section c) (flat endStructure))))).
Proof.
  destruct (comparison_spec title end_date part change_types
              startStructure endStructure)
    as (startMap & endMap & <- & <- & [Hnds _] & [Hnde _] & Hdiff).
  cbv zeta in Hdiff. rewrite Hdiff. cbn [changes]. intros Hc.
  assert (In c (added_records title end_date part startMap endMap
                ++ removed_records title end_date part startMap endMap
                ++ modified_records title end_date part startMap endMap)) as Hin.
  { destruct change_types; simpl in Hc; [|exact Hc].
    now apply filter_In in Hc as [Hc _]. }
  clear Hc. rewrite !in_app_iff in Hin.
  destruct Hin as [H|[H|H]]; apply in_map_iff in H as ([id node] & <- & Hkv);
    apply filter_In in Hkv as [Hkv _];
    (split; [reflexivity|]); (split; [reflexivity|]);
    cbn [type section heading description start_metadata end_metadata
         added_record removed_record modified_record fst snd].
  - left. unfold map_get. now rewrite (lookup_In id node endMap Hnde Hkv).
  - right; left. unfold map_get.
    now rewrite (lookup_In id node startMap Hnds Hkv).
  - right; right. unfold modified_record, map_get. cbn [fst snd].
    now rewrite (lookup_In id node endMap Hnde Hkv).
Qed.

Lemma comparison_dated (title : Z) (end_date : string) (part : option string)
    (change_types : option (list string)) (startStructure endStructure : JsVal) :
  Forall (fun c => change_date c = end_date)
    (changes (comparison title end_date part change_types
                startStructure endStructure)).
Proof.
  apply Forall_forall. intros c Hc.
  now apply record_contents in Hc as [Hc _].
Qed.





(** X5: every returned record is dated with the end date of the
    comparison and cites "<title> CFR <section>"; an added record has for
    heading the label_description of the end node, else its label, else
    null, a removed record the same of the start node, and neither
    carries metadata; a modified record carries no heading but the fixed
    description and the received_on, reserved and size of the start node
    and of the end node, with null for a field the node lacks.  Whatever
    the room on the call stack, the differ returns unless an identifier
    does not convert to a string or the stack has no room for the walk of
    a payload. *)
Theorem returned_record_contents (stack : option nat) (title : Z)
    (end_date : string) (part : option string)
    (change_types : option (list string))
    (startStructure endStructure : JsVal) :
  match diffStructures stack title end_date part change_types
          startStructure endStructure with
  | Ok r =>
      exists startMap endMap,
        buildSectionMap stack startStructure = Ok startMap /\
        buildSectionMap stack endStructure = Ok endMap /\
        forall c, In c (changes r) ->
          change_date c = end_date /\
          citation c = (string_of_Z title ++ " CFR " ++ section c)%string /\
          ((type c = "added" /\
            heading c = Some (heading_text (map_get (section c) endMap)) /\
            description c = None /\
            start_metadata c = None /\ end_metadata c = None)
           \/ (type c = "removed" /\
               heading c = Some (heading_text (map_get (section c) startMap)) /\
               description c = None /\
               start_metadata c = None /\ end_metadata c = None)
           \/ (type c = "modified" /\
               heading c = None /\
               description c
               = Some "Section metadata changed between snapshots." /\
               start_metadata c
               = Some (metadata_of (map_get (section c) startMap)) /\
               end_metadata c
               = Some (metadata_of (map_get (section c) endMap))))
  | Throw m => comparison_failure stack startStructure endStructure m
  end.
Proof.
  pose proof (diffStructures_cases stack title end_date part change_types
                startStructure endStructure) as Hcases.
  destruct (diffStructures _ _ _ _ _ _ _) as [r|m] eqn:Hr; [|exact Hcases].
  clear Hcases. apply diffStructures_flattened in Hr as (-> & Hsm & Hem).
  exists (flat startStructure), (flat endStructure).
  split; [exact Hsm|]. split; [exact Hem|].
  intros c Hc.
  exact (record_contents title end_date part change_types
           startStructure endStructure c Hc).
Qed.

(** ** The two composite handlers *)

Lemma compare_handler_unfold (stack : option nat)
    (fetchStructureJson : string -> Z -> option string -> result JsVal)
    (fetchTitleMeta : Z -> result (option TitleMeta))
    (title : Z) (start_date end_date : string) (part : option string)
    (change_types : option (list string)) :
  ecfr_compare_title_dates stack fetchStructureJson fetchTitleMeta
    title start_date end_date part change_types
  = try_catch "Error comparing eCFR title snapshots: "
      (meta <- fetchTitleMeta title ;;
       r <- diffTitleStructures stack fetchStructureJson title start_date
              (clampEndDate end_date (latestIssue_of meta)) part change_types ;;
       Ok (report "composite: structure comparison" title start_date
             (clampEndDate end_date (latestIssue_of meta)) part None
             change_types r)).
Proof.
  unfold ecfr_compare_title_dates.
  destruct (fetchTitleMeta title) as [meta|m]; [|reflexivity].
  cbn [bind]. cbv zeta. rewrite inline_clamp.
  unfold report. now rewrite nullish_part.
Qed.

Lemma recent_handler_unfold (stack : option nat)
    (fetchStructureJson : string -> Z -> option string -> result JsVal)
    (fetchTitleMeta : Z -> result (option TitleMeta))
    (today : string) (daysBefore : string -> Z -> result string)
    (title : Z) (days : option Z) (part end_date : option string)
    (change_types : option (list string)) :
  ecfr_get_recent_changes stack fetchStructureJson fetchTitleMeta today
    daysBefore title days part end_date change_types
  = try_catch "Error fetching recent eCFR changes: "
      (meta <- fetchTitleMeta title ;;
       startStr <- daysBefore
                     (clampEndDate (match end_date with Some e => e | None => today end)
                                   (latestIssue_of meta))
                     (match days with Some d => d | None => 180%Z end) ;;
       r <- diffTitleStructures stack fetchStructureJson title startStr
              (clampEndDate (match end_date with Some e => e | None => today end)
                            (latestIssue_of meta)) part change_types ;;
       Ok (report "composite: recent change window" title startStr
             (clampEndDate (match end_date with Some e => e | None => today end)
                           (latestIssue_of meta)) part
             (Some (match days with Some d => d | None => 180%Z end))
             change_types r)).
Proof.
  unfold ecfr_get_recent_changes.
  destruct (fetchTitleMeta title) as [meta|m]; [|reflexivity].
  cbn [bind]. cbv zeta. rewrite inline_clamp.
  unfold report. now rewrite nullish_part.
Qed.

Lemma exact_compare_handler_unfold
    (fetchStructureJson : string -> Z -> option string -> result JsVal)
    (fetchTitleMeta : Z -> result (option TitleMeta))
    (title : Z) (start_date end_date : string) (part : option string)
    (change_types : option (list string)) :
  Exact.ecfr_compare_title_dates fetchStructureJson fetchTitleMeta
    title start_date end_date part change_types
  = try_catch "Error comparing eCFR title snapshots: "
      (meta <- fetchTitleMeta title ;;
       r <- Exact.diffTitleStructures fetchStructureJson title start_date
              (clampEndDate end_date (latestIssue_of meta)) part change_types ;;
       Ok (report "composite: structure comparison" title start_date
             (clampEndDate end_date (latestIssue_of meta)) part None
             change_types r)).
Proof. apply compare_handler_unfold. Qed.

Lemma exact_recent_handler_unfold
    (fetchStructureJson : string -> Z -> option string -> result JsVal)
    (fetchTitleMeta : Z -> result (option TitleMeta))
    (today : string) (daysBefore : string -> Z -> result string)
    (title : Z) (days : option Z) (part end_date : option string)
    (change_types : option (list string)) :
  Exact.ecfr_get_recent_changes fetchStructureJson fetchTitleMeta today
    daysBefore title days part end_date change_types
  = try_catch "Error fetching recent eCFR changes: "
      (meta <- fetchTitleMeta title ;;
       startStr <- daysBefore
                     (clampEndDate (match end_date with Some e => e | None => today end)
                                   (latestIssue_of meta))
                     (match days with Some d => d | None => 180%Z end) ;;
       r <- Exact.diffTitleStructures fetchStructureJson title startStr
              (clampEndDate (match end_date with Some e => e | None => today end)
                            (latestIssue_of meta)) part change_types ;;
       Ok (report "composite: recent change window" title startStr
             (clampEndDate (match end_date with Some e => e | None => today end)
                           (latestIssue_of meta)) part
             (Some (match days with Some d => d | None => 180%Z end))
             change_types r)).
Proof. apply recent_handler_unfold. Qed.

Lemma exact_diffTitleStructures
    (fetchStructureJson : string -> Z -> option string -> result JsVal)
    (title : Z) (start_date end_date : string) (part : option string)
    (change_types : option (list string)) :
  Exact.diffTitleStructures fetchStructureJson title start_date end_date
    part change_types
  = (startStructure <- fetchStructureJson start_date title part ;;
     endStructure <- fetchStructureJson end_date title part ;;
     Exact.diffStructures title end_date part change_types
       startStructure endStructure).
Proof. reflexivity. Qed.

Lemma compare_same (s : string) : String.compare s s = Eq.
Proof.
  pose proof (String.compare_antisym s s) as H.
  destruct (String.compare s s); simpl in H; congruence.
Qed.

Lemma clampEndDate_bound (requested latest : string) :
  latest <> "" ->
  String.compare (clampEndDate requested (Some latest)) latest <> Gt.
Proof.
  intros Hne. unfold clampEndDate, lex_greater. simpl.
  apply String.eqb_neq in Hne. rewrite Hne. simpl.
  destruct (String.compare requested latest) eqn:E;
    try (rewrite E; discriminate).
  rewrite compare_same. discriminate.
Qed.

Lemma clampEndDate_idempotent (requested : string) (latest : option string) :
  clampEndDate (clampEndDate requested latest) latest
  = clampEndDate requested latest.
Proof.
  destruct latest as [l|]; [|reflexivity].
  unfold clampEndDate, lex_greater. simpl.
  destruct (negb (l =? "")); simpl; [|reflexivity].
  destruct (String.compare requested l) eqn:E; rewrite ?E; try reflexivity.
  now rewrite compare_same.
Qed.

Lemma exact_diffStructures_dated (title : Z) (end_date : string)
    (part : option string) (change_types : option (list string))
    (startStructure endStructure : JsVal) (r : DiffResult) :
  Exact.diffStructures title end_date part change_types
    startStructure endStructure = Ok r ->
  Forall (fun c => change_date c = end_date) (changes r).
Proof.
  intros Hr. apply exact_diffStructures_ok in Hr as ->. apply comparison_dated.
Qed.

(** X6: a comparison is all or nothing.  When ecfr_compare_title_dates
    answers with a payload, the title listing and both structure requests
    (at the start date and at the echoed end date) have succeeded and the
    payload is the comparison of the two structures received; otherwise
    it answers with "Error comparing eCFR title snapshots: " followed by
    the message of a failed request or, both structures received, by
    "Cannot convert object to primitive value", the message of the
    TypeError of an identifier that does not convert, or by "Maximum call
    stack size exceeded", the message of the RangeError of a call stack
    without room for the walk of a payload, and reports no change at
    all. *)
Theorem comparison_all_or_nothing (stack : option nat)
    (fetchStructureJson : string -> Z -> option string -> result JsVal)
    (fetchTitleMeta : Z -> result (option TitleMeta))
    (title : Z) (start_date end_date : string) (part : option string)
    (change_types : option (list string)) :
  match ecfr_compare_title_dates stack fetchStructureJson fetchTitleMeta
          title start_date end_date part change_types with
  | jsonText p =>
      param_start_date (params p) = start_date /\
      exists meta startStructure endStructure,
        fetchTitleMeta title = Ok meta /\
        fetchStructureJson start_date title part = Ok startStructure /\
        fetchStructureJson (param_end_date (params p)) title part
        = Ok endStructure /\
        diffStructures stack title (param_end_date (params p)) part
          change_types startStructure endStructure
        = Ok {| summary := payload_summary p; changes := payload_changes p |}
  | errorText message =>
      exists cause,
        message = ("Error comparing eCFR title snapshots: " ++ cause)%string /\
        (fetchTitleMeta title = Throw cause \/
         exists meta,
           fetchTitleMeta title = Ok meta /\
           (fetchStructureJson start_date title part = Throw cause \/
            fetchStructureJson (clampEndDate end_date (latestIssue_of meta))
              title part = Throw cause \/
            exists startStructure endStructure,
              fetchStructureJson start_date title part = Ok startStructure /\
              fetchStructureJson (clampEndDate end_date (latestIssue_of meta))
                title part = Ok endStructure /\
              ((cause = "Cannot convert object to primitive value" /\
                converts startStructure && converts endStructure = false) \/
               (cause = "Maximum call stack size exceeded" /\
                fits stack startStructure && fits stack endStructure
                = false))))
  end.
Proof.
  rewrite compare_handler_unfold.
  destruct (fetchTitleMeta title) as [meta|m] eqn:Hmeta; cbn [bind try_catch].
  2:{ exists m. split; [reflexivity | now left]. }
  unfold diffTitleStructures.
  destruct (fetchStructureJson start_date title part) as [s|m] eqn:Hs;
    cbn [bind try_catch].
  2:{ exists m. split; [reflexivity|]. right. exists meta. split; [reflexivity|].
      now left. }
  destruct (fetchStructureJson (clampEndDate end_date (latestIssue_of meta))
              title part) as [e|m] eqn:He; cbn [bind try_catch].
  2:{ exists m. split; [reflexivity|]. right. exists meta. split; [reflexivity|].
      right. now left. }
  destruct (diffStructures stack title
              (clampEndDate end_date (latestIssue_of meta)) part change_types s e)
    as [r|m] eqn:Hr; cbn [bind try_catch].
  - cbn [report params param_start_date param_end_date
         payload_summary payload_changes].
    split; [reflexivity|]. exists meta, s, e.
    repeat split; try assumption. rewrite Hr. now destruct r.
  - exists m. split; [reflexivity|]. right. exists meta. split; [reflexivity|].
    right. right. exists s, e.
    split; [first [reflexivity | assumption]|].
    split; [first [reflexivity | assumption]|].
    pose proof (diff_transfer (fun _ => True) stack title
                  (clampEndDate end_date (latestIssue_of meta)) part
                  change_types s e I) as Hcase.
    rewrite Hr in Hcase. exact Hcase.
Qed.

(** X7: the comparison never runs past the latest issue.  In the
    payload of either composite handler the echoed end date is not
    lexicographically greater than the latest issue date of the title,
    when the listing gives one that is not empty, and every change record
    is dated with that echoed end date. *)
Theorem echoed_end_within_latest_issue
    (fetchStructureJson : string -> Z -> option string -> result JsVal)
    (fetchTitleMeta : Z -> result (option TitleMeta))
    (today : string) (daysBefore : string -> Z -> result string)
    (title : Z) (start_date end_date : string) (days : option Z)
    (part requested_end : option string) (change_types : option (list string)) :
  match Exact.ecfr_compare_title_dates fetchStructureJson fetchTitleMeta
          title start_date end_date part change_types with
  | jsonText p =>
      (forall meta latest,
         fetchTitleMeta title = Ok meta ->
         latestIssue_of meta = Some latest -> latest <> "" ->
         String.compare (param_end_date (params p)) latest <> Gt) /\
      Forall (fun c => change_date c = param_end_date (params p))
             (payload_changes p)
  | errorText _ => True
  end /\
  match Exact.ecfr_get_recent_changes fetchStructureJson fetchTitleMeta today
          daysBefore title days part requested_end change_types with
  | jsonText p =>
      (forall meta latest,
         fetchTitleMeta title = Ok meta ->
         latestIssue_of meta = Some latest -> latest <> "" ->
         String.compare (param_end_date (params p)) latest <> Gt) /\
      Forall (fun c => change_date c = param_end_date (params p))
             (payload_changes p)
  | errorText _ => True
  end.
Proof.
  split.
  - rewrite exact_compare_handler_unfold.
    destruct (fetchTitleMeta title) as [meta|m]; cbn [bind try_catch]; [|trivial].
    rewrite exact_diffTitleStructures.
    destruct (fetchStructureJson start_date title part) as [s|m];
      cbn [bind try_catch]; [|trivial].
    destruct (fetchStructureJson _ title part) as [e|m];
      cbn [bind try_catch]; [|trivial].
    destruct (Exact.diffStructures _ _ _ _ _ _) as [r|m] eqn:Hr;
      cbn [bind try_catch]; [|trivial].
    cbn [report params param_end_date payload_changes]. split.
    + intros meta' latest [= <-] Hl Hne. rewrite Hl.
      now apply clampEndDate_bound.
    + now apply exact_diffStructures_dated in Hr.
  - rewrite exact_recent_handler_unfold.
    destruct (fetchTitleMeta title) as [meta|m]; cbn [bind try_catch]; [|trivial].
    destruct (daysBefore _ _) as [startStr|m]; cbn [bind try_catch]; [|trivial].
    rewrite exact_diffTitleStructures.
    destruct (fetchStructureJson startStr title part) as [s|m];
      cbn [bind try_catch]; [|trivial].
    destruct (fetchStructureJson _ title part) as [e|m];
      cbn [bind try_catch]; [|trivial].
    destruct (Exact.diffStructures _ _ _ _ _ _) as [r|m] eqn:Hr;
      cbn [bind try_catch]; [|trivial].
    cbn [report params param_end_date payload_changes]. split.
    + intros meta' latest [= <-] Hl Hne. rewrite Hl.
      now apply clampEndDate_bound.
    + now apply exact_diffStructures_dated in Hr.
Qed.

(** X8: recent changes are a comparison over a window the handler
    computes.  When ecfr_get_recent_changes answers with a payload, the
    echoed number of days is the one given, or 180; the echoed end date
    is the clamped end (of the given end date, or of today); the echoed
    start date is what the date computation of the handler ([setDate] on
    the day of the month less the number of days, a computation in local
    time that this development does not interpret) makes of that end date
    and that number of days; and ecfr_compare_title_dates called with the
    echoed start and end dates reports the same summary and changes. *)
Theorem recent_changes_is_comparison (stack : option nat)
    (fetchStructureJson : string -> Z -> option string -> result JsVal)
    (fetchTitleMeta : Z -> result (option TitleMeta))
    (today : string) (daysBefore : string -> Z -> result string)
    (title : Z) (days : option Z) (part end_date : option string)
    (change_types : option (list string)) :
  match ecfr_get_recent_changes stack fetchStructureJson fetchTitleMeta today
          daysBefore title days part end_date change_types with
  | jsonText p =>
      let daysBack := match days with Some d => d | None => 180%Z end in
      param_days (params p) = Some daysBack /\
      daysBefore (param_end_date (params p)) daysBack
      = Ok (param_start_date (params p)) /\
      (exists meta,
         fetchTitleMeta title = Ok meta /\
         param_end_date (params p)
         = clampEndDate (match end_date with Some e => e | None => today end)
                        (latestIssue_of meta)) /\
      ecfr_compare_title_dates stack fetchStructureJson fetchTitleMeta title
        (param_start_date (params p)) (param_end_date (params p))
        part change_types
      = jsonText (report "composite: structure comparison" title
                    (param_start_date (params p)) (param_end_date (params p))
                    part None change_types
                    {| summary := payload_summary p;
                       changes := payload_changes p |})
  | errorText _ => True
  end.
Proof.
  rewrite recent_handler_unfold.
  destruct (fetchTitleMeta title) as [meta|m] eqn:Hmeta;
    cbn [bind try_catch]; [|trivial].
  destruct (daysBefore _ _) as [startStr|m] eqn:Hstart;
    cbn [bind try_catch]; [|trivial].
  destruct (diffTitleStructures _ _ _ _ _ _ _) as [r|m] eqn:Hr;
    cbn [bind try_catch]; [|trivial].
  cbn [report params param_days param_start_date param_end_date
       payload_summary payload_changes]. cbv zeta.
  split; [reflexivity|]. split; [exact Hstart|].
  split; [now exists meta|].
  rewrite compare_handler_unfold, Hmeta. cbn [bind].
  rewrite clampEndDate_idempotent, Hr. cbn [bind try_catch].
  now destruct r.
Qed.

(** ** The retrieval adapter *)

Lemma byte_range (c : ascii) : (0 <= byte c < 256)%Z.
Proof.
  unfold byte. pose proof (N_ascii_bounded c). lia.
Qed.

Lemma byte_char (b : Z) : (0 <= b < 256)%Z -> byte (char b) = b.
Proof.
  intros H. unfold byte, char. rewrite N_ascii_embedding by lia. lia.
Qed.

(** The code units of a text are 16-bit values. *)
Lemma units_range (s : string) :
  Forall (fun u => (0 <= u < 65536)%Z) (units s).
Proof.
  remember (String.length s) as n eqn:Hn. revert s Hn.
  induction n as [n IH] using lt_wf_ind. intros s ->.
  destruct s as [|c0 r]; [constructor|].
  pose proof (byte_range c0) as H0.
  cbn [units]. cbv zeta.
  destruct (Z.ltb_spec (byte c0) 128).
  { constructor; [lia|]. apply (IH (String.length r)); simpl; lia. }
  destruct (Z.ltb_spec (byte c0) 224).
  { destruct r as [|c1 r1].
    - constructor; [lia | constructor].
    - pose proof (byte_range c1).
      constructor; [|apply (IH (String.length r1)); simpl; lia].
      Z.div_mod_to_equations. lia. }
  destruct (Z.ltb_spec (byte c0) 240).
  { destruct r as [|c1 [|c2 r2]]; try (constructor; [lia | constructor]).
    pose proof (byte_range c1). pose proof (byte_range c2).
    constructor; [|apply (IH (String.length r2)); simpl; lia].
    Z.div_mod_to_equations. lia. }
  destruct r as [|c1 [|c2 [|c3 r3]]]; try (constructor; [lia | constructor]).
  pose proof (byte_range c1). pose proof (byte_range c2).
  pose proof (byte_range c3).
  constructor; [Z.div_mod_to_equations; lia|].
  constructor; [Z.div_mod_to_equations; lia|].
  apply (IH (String.length r3)); simpl; lia.
Qed.

Lemma units_one (b : Z) (rest : string) :
  (0 <= b < 128)%Z -> units (String (char b) rest) = b :: units rest.
Proof.
  intros H. cbn [units]. cbv zeta. rewrite byte_char by lia.
  destruct (Z.ltb_spec b 128); [reflexivity | lia].
Qed.

Lemma units_two (b0 b1 : Z) (rest : string) :
  (128 <= b0 < 224)%Z -> (0 <= b1 < 256)%Z ->
  units (String (char b0) (String (char b1) rest))
  = ((b0 mod 32) * 64 + b1 mod 64)%Z :: units rest.
Proof.
  intros H0 H1. cbn [units]. cbv zeta. rewrite !byte_char by lia.
  destruct (Z.ltb_spec b0 128); [lia|].
  destruct (Z.ltb_spec b0 224); [reflexivity | lia].
Qed.

Lemma units_three (b0 b1 b2 : Z) (rest : string) :
  (224 <= b0 < 240)%Z -> (0 <= b1 < 256)%Z -> (0 <= b2 < 256)%Z ->
  units (String (char b0) (String (char b1) (String (char b2) rest)))
  = ((b0 mod 16) * 4096 + (b1 mod 64) * 64 + b2 mod 64)%Z :: units rest.
Proof.
  intros H0 H1 H2. cbn [units]. cbv zeta. rewrite !byte_char by lia.
  destruct (Z.ltb_spec b0 128); [lia|].
  destruct (Z.ltb_spec b0 224); [lia|].
  destruct (Z.ltb_spec b0 240); [reflexivity | lia].
Qed.

Lemma units_four (b0 b1 b2 b3 : Z) (rest : string) :
  (240 <= b0 < 256)%Z -> (0 <= b1 < 256)%Z -> (0 <= b2 < 256)%Z ->
  (0 <= b3 < 256)%Z ->
  units (String (char b0) (String (char b1) (String (char b2)
           (String (char b3) rest))))
  = (55296 + (((b0 mod 8) * 262144 + (b1 mod 64) * 4096
               + (b2 mod 64) * 64 + b3 mod 64 - 65536) mod 1048576) / 1024)%Z
    :: (56320 + (((b0 mod 8) * 262144 + (b1 mod 64) * 4096
                  + (b2 mod 64) * 64 + b3 mod 64 - 65536) mod 1048576)
                mod 1024)%Z
    :: units rest.
Proof.
  intros H0 H1 H2 H3. cbn [units]. cbv zeta. rewrite !byte_char by lia.
  destruct (Z.ltb_spec b0 128); [lia|].
  destruct (Z.ltb_spec b0 224); [lia|].
  destruct (Z.ltb_spec b0 240); [lia | reflexivity].
Qed.

Lemma units_three_bytes (u : Z) (rest : string) :
  (2048 <= u < 65536)%Z -> units (three_bytes u rest) = u :: units rest.
Proof.
  intros H. unfold three_bytes.
  rewrite units_three by (Z.div_mod_to_equations; lia).
  f_equal. Z.div_mod_to_equations. lia.
Qed.

(** Writing code units as text and reading them back gives the code
    units. *)
Lemma units_text_of_units (l : list Z) :
  Forall (fun u => (0 <= u < 65536)%Z) l -> units (text_of_units l) = l.
Proof.
  remember (List.length l) as n eqn:Hn. revert l Hn.
  induction n as [n IH] using lt_wf_ind. intros l -> Hall.
  destruct l as [|u r]; [reflexivity|].
  inversion Hall as [|? ? Hu Hr]; subst.
  assert (units (text_of_units r) = r) as Hrest
    by (apply (IH (List.length r)); simpl; auto; lia).
  cbn [text_of_units].
  destruct (Z.ltb_spec u 128).
  { rewrite units_one by lia. now rewrite Hrest. }
  destruct (Z.ltb_spec u 2048).
  { rewrite units_two by (Z.div_mod_to_equations; lia).
    rewrite Hrest. f_equal. Z.div_mod_to_equations. lia. }
  destruct ((55296 <=? u) && (u <? 56320))%Z eqn:Hhigh.
  - destruct r as [|low r'].
    + now rewrite units_three_bytes by lia.
    + destruct ((56320 <=? low) && (low <? 57344))%Z eqn:Hlow.
      * inversion Hr as [|? ? Hl Hr']; subst.
        apply andb_true_iff in Hhigh as [Hh1 Hh2], Hlow as [Hl1 Hl2].
        apply Z.leb_le in Hh1, Hl1. apply Z.ltb_lt in Hh2, Hl2.
        rewrite units_four by (Z.div_mod_to_equations; lia).
        rewrite (IH (List.length r')) by (simpl; auto; lia).
        f_equal; [|f_equal]; Z.div_mod_to_equations; lia.
      * rewrite units_three_bytes by lia. now rewrite Hrest.
  - rewrite units_three_bytes by lia. now rewrite Hrest.
Qed.

Lemma Forall_firstn {A : Type} (P : A -> Prop) (n : nat) (l : list A) :
  Forall P l -> Forall P (firstn n l).
Proof.
  intros H. revert n. induction H as [|x l Hx _ IH]; intros [|n]; simpl;
    constructor; auto.
Qed.

(** [slice(0, n)] keeps the first [n] code units. *)
Lemma units_slice_to (n : nat) (s : string) :
  units (slice_to n s) = firstn n (units s).
Proof.
  unfold slice_to. apply units_text_of_units, Forall_firstn, units_range.
Qed.

(** X9: the error contract of fetchJson.  A rejected request passes its
    error on; a response with a status from 200 to 299 yields what
    res.json() yields; any other status throws, never a payload, and the
    message is "HTTP <status> <statusText> from <url>", followed, when the
    body could be read and is not empty, by a marker and an excerpt: the
    first 500 UTF-16 code units of the body, or the whole body when it
    has fewer. *)
Theorem fetchJson_contract (fetch : string -> result Adapter.Response)
    (url : string) :
  match fetch url with
  | Throw m => Adapter.fetchJson fetch url = Throw m
  | Ok res =>
      if ((200 <=? Adapter.status res) && (Adapter.status res <=? 299))%Z
      then Adapter.fetchJson fetch url = Adapter.json res
      else
        exists excerpt,
          Adapter.fetchJson fetch url
          = Throw ("HTTP " ++ string_of_Z (Adapter.status res) ++ " "
                   ++ Adapter.statusText res ++ " from " ++ url ++ excerpt)%string
          /\ match Adapter.text res with
             | Ok body =>
                 if body =? "" then excerpt = ""
                 else exists cut,
                        excerpt = (" — body: " ++ cut)%string /\
                        units cut = firstn 500 (units body)
             | Throw _ => excerpt = ""
             end
  end.
Proof.
  unfold Adapter.fetchJson.
  destruct (fetch url) as [res|m]; cbn [bind]; [|reflexivity].
  unfold Adapter.ok.
  destruct ((200 <=? Adapter.status res) && (Adapter.status res <=? 299))%Z;
    cbn [negb]; [reflexivity|].
  destruct (Adapter.text res) as [body|m].
  - simpl truthy. destruct (body =? "") eqn:E; cbn [negb].
    + exists "". split; reflexivity.
    + eexists. split; [reflexivity|].
      exists (slice_to 500 body). split; [reflexivity|].
      apply units_slice_to.
  - exists "". split; reflexivity.
Qed.

(** A body of 499 letters and one character beyond the basic plane,
    which is two code units: the excerpt is the whole body, 503 bytes
    long. *)
Example excerpt_counts_code_units :
  let body := (concat "" (repeat "a" 499) ++ "😀")%string in
  List.length (units body) = 501 /\ slice_to 500 body <> body /\
  String.length body = 503 /\
  slice_to 501 body = body.
Proof.
  cbv zeta. split; [vm_compute; reflexivity|].
  split; [vm_compute; discriminate|].
  split; vm_compute; reflexivity.
Qed.

Lemma Forall2_map_same {A B : Type} (R : B -> B -> Prop) (f g : A -> B)
    (l : list A) :
  (forall x, R (f x) (g x)) -> Forall2 R (List.map f l) (List.map g l).
Proof. intros H. induction l; simpl; constructor; auto. Qed.

Lemma Forall2_filter {A : Type} (R : A -> A -> Prop) (p : A -> bool)
    (l l' : list A) :
  (forall x y, R x y -> p x = p y) ->
  Forall2 R l l' -> Forall2 R (filter p l) (filter p l').
Proof.
  intros Hp. induction 1 as [|x y l l' Hxy _ IH]; simpl; [constructor|].
  rewrite (Hp x y Hxy). destruct (p y); [now constructor | exact IH].
Qed.

Lemma same_but_part_counts (t : string) (cs cs' : list ChangeRecord) :
  Forall2 same_but_part cs cs' -> count_type t cs = count_type t cs'.
Proof.
  intros H. unfold count_type.
  apply (Forall2_length (R := same_but_part)), Forall2_filter; [|exact H].
  intros x y (Ht & _). now rewrite Ht.
Qed.


(** The caller's part only shows in the part of the records. *)
Lemma comparison_parts (title : Z) (end_date : string)
    (part part' : option string) (change_types : option (list string))
    (startStructure endStructure : JsVal) :
  summary (comparison title end_date part change_types
             startStructure endStructure)
  = summary (comparison title end_date part' change_types
               startStructure endStructure) /\
  Forall2 same_but_part
    (changes (comparison title end_date part change_types
                startStructure endStructure))
    (changes (comparison title end_date part' change_types
                startStructure endStructure)).
Proof.
  destruct (comparison_spec title end_date part change_types
              startStructure endStructure)
    as (startMap & endMap & Hs & He & _ & _ & H1).
  destruct (comparison_spec title end_date part' change_types
              startStructure endStructure)
    as (sm & em & Hs' & He' & _ & _ & H2).
  rewrite <- Hs in Hs'. rewrite <- He in He'. subst sm em.
  cbv zeta in H1, H2. rewrite H1, H2.
  cbn [summary changes].
  assert (Forall2 same_but_part
            (added_records title end_date part startMap endMap
             ++ removed_records title end_date part startMap endMap
             ++ modified_records title end_date part startMap endMap)
            (added_records title end_date part' startMap endMap
             ++ removed_records title end_date part' startMap endMap
             ++ modified_records title end_date part' startMap endMap)) as Hall.
  { repeat apply Forall2_app; apply Forall2_map_same; intros kv;
      unfold same_but_part; simpl; repeat split. }
  assert (Forall2 same_but_part
            (filteredChanges change_types
               (added_records title end_date part startMap endMap
                ++ removed_records title end_date part startMap endMap
                ++ modified_records title end_date part startMap endMap))
            (filteredChanges change_types
               (added_records title end_date part' startMap endMap
                ++ removed_records title end_date part' startMap endMap
                ++ modified_records title end_date part' startMap endMap)))
    as Hfiltered.
  { destruct change_types as [wanted|]; simpl; [|exact Hall].
    apply Forall2_filter; [|exact Hall].
    intros x y (Ht & _). now rewrite Ht. }
  split; [|exact Hfiltered].
  unfold summarize.
  rewrite (Forall2_length Hfiltered).
  now rewrite !(same_but_part_counts _ _ _ Hfiltered).
Qed.

Lemma comparison_empty_part (title : Z) (end_date : string)
    (change_types : option (list string)) (startStructure endStructure : JsVal) :
  Forall (fun c => record_part c = JStr "")
    (changes (comparison title end_date (Some "") change_types
                startStructure endStructure)).
Proof.
  destruct (comparison_spec title end_date (Some "") change_types
              startStructure endStructure)
    as (startMap & endMap & _ & _ & _ & _ & Hspec).
  cbv zeta in Hspec. rewrite Hspec. cbn [changes].
  apply filteredChanges_incl. apply Forall_forall. intros c Hc.
  destruct (record_parts _ _ _ _ _ _ Hc) as [(_ & node & _ & Hp)|(_ & Hp)];
    rewrite Hp; reflexivity.
Qed.

(** X10: an empty part is no part for the request, but not for the
    records.  With part given as the empty string the two structure
    requests are those of a call without part, so the comparison fails
    with the same error or returns the same summary and the same records
    otherwise, except that every record then carries part "" where the
    call without part gives the part of the hierarchy or null. *)
Theorem empty_part_is_whole_title
    (fetch : string -> result Adapter.Response)
    (encodeURIComponent : string -> string)
    (href : string -> list (string * string) -> string)
    (title : Z) (start_date end_date : string)
    (change_types : option (list string)) :
  match Exact.diffTitleStructures
          (Adapter.fetchStructureJson fetch encodeURIComponent href)
          title start_date end_date None change_types,
        Exact.diffTitleStructures
          (Adapter.fetchStructureJson fetch encodeURIComponent href)
          title start_date end_date (Some "") change_types with
  | Ok unscoped, Ok r =>
      summary r = summary unscoped /\
      Forall2 same_but_part (changes unscoped) (changes r) /\
      Forall (fun c => record_part c = JStr "") (changes r)
  | Throw m, Throw m' => m = m'
  | _, _ => False
  end.
Proof.
  rewrite !exact_diffTitleStructures.
  change (Adapter.fetchStructureJson fetch encodeURIComponent href
            start_date title (Some ""))
    with (Adapter.fetchStructureJson fetch encodeURIComponent href
            start_date title None).
  change (Adapter.fetchStructureJson fetch encodeURIComponent href
            end_date title (Some ""))
    with (Adapter.fetchStructureJson fetch encodeURIComponent href
            end_date title None).
  destruct (Adapter.fetchStructureJson fetch encodeURIComponent href
              start_date title None) as [s|m]; cbn [bind]; [|reflexivity].
  destruct (Adapter.fetchStructureJson fetch encodeURIComponent href
              end_date title None) as [e|m]; cbn [bind]; [|reflexivity].
  rewrite !exact_diffStructures.
  destruct (converts s && converts e); [|reflexivity].
  destruct (comparison_parts title end_date None (Some "") change_types s e)
    as [Hsum Hrel].
  split; [now symmetry|]. split; [exact Hrel|].
  apply comparison_empty_part.
Qed.

Lemma find_split {A : Type} (p : A -> bool) (l : list A) :
  match find p l with
  | Some x => exists before after,
                l = before ++ x :: after /\ p x = true /\
                Forall (fun y => p y = false) before
  | None => Forall (fun y => p y = false) l
  end.
Proof.
  induction l as [|y rest IH]; simpl; [constructor|].
  destruct (p y) eqn:E.
  - exists [], rest. repeat split; [assumption | constructor].
  - destruct (find p rest) as [x|].
    + destruct IH as (before & after & -> & Hx & Hb).
      exists (y :: before), after. repeat split; [assumption|].
      now constructor.
    + now constructor.
Qed.

Lemma string_of_Z_not_undefined (n : Z) : string_of_Z n <> "undefined".
Proof.
  unfold string_of_Z, NilZero.string_of_int.
  destruct (Z.to_int n) as [d|d]; [|discriminate].
  unfold NilZero.string_of_uint. destruct d; discriminate.
Qed.

(** A number prints as [0] exactly when it is zero. *)
Lemma string_of_Z_zero (n : Z) : string_of_Z n = "0" <-> n = 0%Z.
Proof.
  split; [|now intros ->].
  unfold string_of_Z. intros H.
  rewrite <- (DecimalZ.of_to n).
  destruct (Z.to_int n) as [d|d]; simpl in H.
  - destruct d as [|d|d|d|d|d|d|d|d|d|d]; try discriminate H; [reflexivity|].
    simpl in H. destruct d; try discriminate H. reflexivity.
  - destruct d; discriminate H.
Qed.

Lemma truthy_number (n : Z) :
  truthy (JNum (string_of_Z n)) = negb (n =? 0)%Z.
Proof.
  cbn [truthy]. f_equal.
  destruct (Z.eqb_spec n 0) as [->|Hne]; [reflexivity|].
  apply String.eqb_neq. intros H. now apply string_of_Z_zero in H.
Qed.

Lemma findE_split {A : Type} (p : A -> result bool) (l : list A) :
  match findE p l with
  | Ok (Some x) =>
      exists before after,
        l = before ++ x :: after /\ p x = Ok true /\
        Forall (fun y => p y = Ok false) before
  | Ok None => Forall (fun y => p y = Ok false) l
  | Throw m =>
      exists before y after,
        l = before ++ y :: after /\ p y = Throw m /\
        Forall (fun y => p y = Ok false) before
  end.
Proof.
  induction l as [|y rest IH]; simpl; [constructor|].
  destruct (p y) as [[|]|m] eqn:E; cbn [bind].
  - exists [], rest. repeat split; [assumption | constructor].
  - destruct (findE p rest) as [[x|]|m].
    + destruct IH as (before & after & -> & Hx & Hb).
      exists (y :: before), after. repeat split; [assumption | now constructor].
    + now constructor.
    + destruct IH as (before & z & after & -> & Hz & Hb).
      exists (y :: before), z, after.
      repeat split; [assumption | now constructor].
  - exists [], y, rest. repeat split; [assumption | constructor].
Qed.

Lemma filterE_spec {A : Type} (p : A -> result bool) (l : list A) :
  match filterE p l with
  | Ok kept => kept = filter (fun x => yes (p x)) l /\
               Forall (fun x => exists b, p x = Ok b) l
  | Throw m => exists x, In x l /\ p x = Throw m
  end.
Proof.
  induction l as [|x rest IH]; simpl; [split; [reflexivity | constructor]|].
  destruct (p x) as [b|m] eqn:E; cbn [bind yes].
  - destruct (filterE p rest) as [kept|m]; cbn [bind].
    + destruct IH as [-> Hall]. split; [now destruct b|].
      constructor; [now exists b | assumption].
    + destruct IH as (y & Hy & Hm). exists y. split; [now right | assumption].
  - exists x. split; [now left | assumption].
Qed.

(** X11: fetchTitleMeta finds the first entry whose number prints as
    the title.  A failed listing request passes its error on; when the
    listing has no titles array the result is false; otherwise the
    result is the first element of titles whose number, as a string,
    equals the title number as a string (so the number 21 and the string
    "21" both match title 21), that element being an object, or null when
    no element matches; null and non-object elements are skipped.  It
    throws only when the number of an entry cannot be made a string. *)
Theorem fetchTitleMeta_first_match
    (fetch : string -> result Adapter.Response)
    (href : string -> list (string * string) -> string) (title : Z) :
  match Adapter.fetchJson fetch (href "/api/versioner/v1/titles.json" []) with
  | Throw m => Adapter.fetchTitleMeta fetch href title = Throw m
  | Ok data =>
      match opt_member data "titles" with
      | JArr titles =>
          match Adapter.fetchTitleMeta fetch href title with
          | Ok meta =>
              (exists before t after,
                 titles = before ++ t :: after /\
                 meta = t /\ is_object t = true /\
                 StringOf (opt_member t "number") = Ok (string_of_Z title) /\
                 Forall (fun u => exists s,
                           StringOf (opt_member u "number") = Ok s /\
                           s <> string_of_Z title) before)
              \/ (meta = JNull /\
                  Forall (fun u => exists s,
                            StringOf (opt_member u "number") = Ok s /\
                            s <> string_of_Z title) titles)
          | Throw m =>
              exists u, In u titles /\
                        StringOf (opt_member u "number") = Throw m
          end
      | _ => Adapter.fetchTitleMeta fetch href title = Ok (JBool false)
      end
  end.
Proof.
  unfold Adapter.fetchTitleMeta.
  destruct (Adapter.fetchJson fetch _) as [data|m]; cbn [bind]; [|reflexivity].
  destruct (opt_member data "titles") as [| | | | |titles|]; try reflexivity.
  set (p := fun t => s <- StringOf (opt_member t "number") ;;
                     Ok (s =? string_of_Z title)).
  assert (forall u, p u = Ok false ->
            exists s, StringOf (opt_member u "number") = Ok s /\
                      s <> string_of_Z title) as Hfalse.
  { intros u. unfold p.
    destruct (StringOf (opt_member u "number")) as [s|]; cbn [bind];
      [|discriminate].
    intros [= E]. exists s. split; [reflexivity | now apply String.eqb_neq]. }
  pose proof (findE_split p titles) as Hfind.
  destruct (findE p titles) as [[t|]|m]; cbn [bind].
  - destruct Hfind as (before & after & -> & Ht & Hb).
    unfold p in Ht.
    destruct (StringOf (opt_member t "number")) as [s|] eqn:Es; cbn [bind] in Ht;
      [|discriminate].
    injection Ht as Ht. apply String.eqb_eq in Ht. subst s.
    assert (is_object t = true) as Hobj.
    { destruct t; try reflexivity; simpl in Es; injection Es as Es;
        symmetry in Es; now apply string_of_Z_not_undefined in Es. }
    destruct t; try discriminate. cbn [nullish].
    left. eexists before, _, after. repeat split; try assumption.
    apply Forall_forall. intros u Hu. rewrite Forall_forall in Hb. auto.
  - right. split; [reflexivity|].
    apply Forall_forall. intros u Hu. rewrite Forall_forall in Hfind. auto.
  - destruct Hfind as (before & y & after & -> & Hy & _).
    exists y. split; [apply in_elt|].
    unfold p in Hy.
    destruct (StringOf (opt_member y "number")); cbn [bind] in Hy;
      [discriminate | now injection Hy as ->].
Qed.

(** ** The corrections listing *)

Lemma strict_eq_string (v : JsVal) (s : string) :
  strict_neq v (JStr s) = false <-> v = JStr s.
Proof.
  unfold strict_neq. rewrite negb_false_iff.
  destruct v; simpl; split; try discriminate.
  - intros H. apply String.eqb_eq in H. now subst.
  - intros [= ->]. apply String.eqb_refl.
Qed.

Lemma correction_kept_true (title : option Z)
    (date error_corrected_date : option string) (c : JsVal) :
  Adapter.correction_kept title date error_corrected_date c = Ok true ->
  (forall t, title = Some t -> t <> 0%Z ->
             StringOf (opt_member c "title") = Ok (string_of_Z t)) /\
  (forall d, given error_corrected_date d ->
             opt_member c "error_corrected" = JStr d) /\
  (forall d, given date d ->
             opt_member c "error_corrected" = JStr d \/
             opt_member c "error_occurred" = JStr d).
Proof.
  unfold Adapter.correction_kept, given. intros H. split; [|split].
  - intros t -> Ht. rewrite truthy_number in H.
    apply Z.eqb_neq in Ht. rewrite Ht in H. cbn [negb] in H.
    destruct (StringOf (opt_member c "title")) as [s|]; cbn [bind] in H;
      [|discriminate].
    destruct (s =? string_of_Z t) eqn:E; [|discriminate].
    apply String.eqb_eq in E. now subst.
  - intros d [-> Hd].
    destruct (match title with Some _ => _ | None => _ end) as [[|]|];
      cbn [bind] in H; try discriminate.
    apply String.eqb_neq in Hd. simpl truthy in H. rewrite Hd in H.
    cbn [negb andb] in H.
    destruct (strict_neq (opt_member c "error_corrected") (JStr d)) eqn:E;
      [discriminate|]. now apply strict_eq_string.
  - intros d [-> Hd].
    destruct (match title with Some _ => _ | None => _ end) as [[|]|];
      cbn [bind] in H; try discriminate.
    destruct (match error_corrected_date with Some _ => _ | None => _ end);
      [discriminate|].
    apply String.eqb_neq in Hd. simpl truthy in H. rewrite Hd in H.
    cbn [negb andb] in H.
    destruct (strict_neq (opt_member c "error_corrected") (JStr d)) eqn:E1.
    + destruct (strict_neq (opt_member c "error_occurred") (JStr d)) eqn:E2;
        [discriminate|]. right. now apply strict_eq_string.
    + left. now apply strict_eq_string.
Qed.

(** X12: what ecfr_get_corrections keeps.  When the listing request
    fails the handler answers with its error behind "Error fetching eCFR
    corrections: ".  Otherwise a payload counts as total the entries of
    ecfr_corrections (none when that is not an array) and as filtered the
    returned ones, which are entries of the listing in their order, never
    more than the total; each returned entry has the given title (as
    strings), is corrected on error_corrected_date when one is given, and
    was corrected or occurred on date when one is given; with no title,
    date or error_corrected_date every entry is returned. *)
Theorem corrections_filter
    (fetch : string -> result Adapter.Response)
    (href : string -> list (string * string) -> string)
    (title : option Z) (date error_corrected_date : option string) :
  match Adapter.fetchJson fetch (href "/api/admin/v1/corrections.json" []) with
  | Throw m =>
      Adapter.ecfr_get_corrections fetch href title date error_corrected_date
      = failure ("Error fetching eCFR corrections: " ++ m)%string
  | Ok data =>
      let listing := match opt_member data "ecfr_corrections" with
                     | JArr items => items
                     | _ => []
                     end in
      match Adapter.ecfr_get_corrections fetch href title date
              error_corrected_date with
      | answer p =>
          Adapter.meta_total p = List.length listing /\
          Adapter.meta_filtered p = List.length (Adapter.corrections p) /\
          Adapter.meta_filtered p <= Adapter.meta_total p /\
          Adapter.corrections p
          = filter (fun c => yes (Adapter.correction_kept title date
                                    error_corrected_date c)) listing /\
          (forall c, In c (Adapter.corrections p) ->
             In c listing /\
             (forall t, title = Some t -> t <> 0%Z ->
                StringOf (opt_member c "title") = Ok (string_of_Z t)) /\
             (forall d, given error_corrected_date d ->
                opt_member c "error_corrected" = JStr d) /\
             (forall d, given date d ->
                opt_member c "error_corrected" = JStr d \/
                opt_member c "error_occurred" = JStr d)) /\
          (title = None -> date = None -> error_corrected_date = None ->
           Adapter.corrections p = listing)
      | failure message =>
          exists c cause,
            In c listing /\
            StringOf (opt_member c "title") = Throw cause /\
            message = ("Error fetching eCFR corrections: " ++ cause)%string
      end
  end.
Proof.
  unfold Adapter.ecfr_get_corrections.
  destruct (Adapter.fetchJson fetch _) as [data|m]; cbn [bind catching];
    [|reflexivity].
  cbv zeta.
  set (listing := match opt_member data "ecfr_corrections" with
                  | JArr items => items
                  | _ => []
                  end).
  pose proof (filterE_spec
                (Adapter.correction_kept title date error_corrected_date)
                listing) as Hf.
  destruct (filterE _ listing) as [kept|m]; cbn [bind catching].
  - destruct Hf as [-> Hall].
    cbn [Adapter.meta_total Adapter.meta_filtered Adapter.corrections].
    split; [reflexivity|]. split; [reflexivity|].
    split; [apply filter_length_le|]. split; [reflexivity|]. split.
    + intros c Hc. apply filter_In in Hc as [Hin Hc]. split; [exact Hin|].
      apply correction_kept_true.
      destruct (Adapter.correction_kept title date error_corrected_date c)
        as [[|]|]; simpl in Hc; congruence.
    + intros -> -> ->.
      rewrite (filter_ext _ (fun _ => true)) by reflexivity.
      clear. induction listing as [|x l IH]; simpl; [reflexivity|].
      now rewrite IH.
  - destruct Hf as (c & Hin & Hc). exists c, m.
    split; [exact Hin|]. split; [|reflexivity].
    unfold Adapter.correction_kept in Hc.
    destruct title as [t|].
    + destruct (truthy (JNum (string_of_Z t))).
      * destruct (StringOf (opt_member c "title")); cbn [bind] in Hc;
          [|now injection Hc as ->].
        exfalso. revert Hc.
        repeat match goal with
               | |- context [if ?b then _ else _] => destruct b
               end; discriminate.
      * exfalso. revert Hc. cbn [bind].
        repeat match goal with
               | |- context [if ?b then _ else _] => destruct b
               end; discriminate.
    + exfalso. revert Hc. cbn [bind].
      repeat match goal with
             | |- context [if ?b then _ else _] => destruct b
             end; discriminate.
Qed.

(** ** Search within a date range *)

Lemma filter_all {A : Type} (l : list A) : filter (fun _ => true) l = l.
Proof. induction l as [|x l IH]; simpl; [reflexivity | now rewrite IH]. Qed.

(** On item bounds that are strings or absent, the overlap test on
    payload values is the overlap test on dates. *)
Lemma rangesOverlapOf_strings (other_parse : string -> option Z)
    (filterStart filterEnd itemStart itemEnd : option string) :
  Search.rangesOverlapOf other_parse filterStart filterEnd
    (of_optional itemStart) (of_optional itemEnd)
  = Ok (rangesOverlap other_parse filterStart filterEnd itemStart itemEnd).
Proof.
  unfold Search.rangesOverlapOf, rangesOverlap, Search.toDateOf, toDate.
  destruct itemStart as [a|], itemEnd as [b|]; cbn [of_optional];
    try destruct (negb (truthy (JStr a))); try destruct (negb (truthy (JStr b)));
    cbn [bind truthy negb]; cbv zeta;
    repeat match goal with
           | |- context [if ?c then _ else _] => destruct c
           end; reflexivity.
Qed.

Lemma entry_kept_no_filter (other_parse : string -> option Z)
    (start_date end_date : option string) (entry : JsVal) :
  omitted start_date -> omitted end_date ->
  Search.entry_kept other_parse None start_date end_date entry = Ok true.
Proof.
  unfold omitted, Search.entry_kept.
  intros [->| ->] [->| ->]; reflexivity.
Qed.

(** X13: what ecfr_search_with_date_range returns.  When the search
    request fails the handler answers with its error behind "Error
    calling eCFR search with date range: ".  Otherwise the returned
    results are entries of data.results in their order (none when that is
    not an array), filtered_count is their number and never exceeds the
    number of entries; with a title given, every returned entry has that
    title in its hierarchy, compared as strings; with no title and no
    start or end date (omitted or empty) every entry is returned. *)
Theorem search_filter
    (fetch : string -> result Adapter.Response)
    (href : string -> list (string * string) -> string)
    (other_parse : string -> option Z)
    (query : string) (title : option Z) (start_date end_date : option string)
    (results : option Z) (order : option string) :
  match Adapter.fetchJson fetch
          (href "/api/search/v1/results.json"
             [("query", query);
              ("results",
               string_of_Z (match results with Some n => n | None => 50%Z end));
              ("order", match order with Some o => o | None => "relevance" end)])
  with
  | Throw m =>
      Search.ecfr_search_with_date_range fetch href other_parse query title
        start_date end_date results order
      = failure ("Error calling eCFR search with date range: " ++ m)%string
  | Ok data =>
      let entries := match opt_member data "results" with
                     | JArr items => items
                     | _ => []
                     end in
      match Search.ecfr_search_with_date_range fetch href other_parse query
              title start_date end_date results order with
      | answer p =>
          Search.results p
          = filter (fun e => yes (Search.entry_kept other_parse title
                                    start_date end_date e)) entries /\
          Search.filtered_count p = List.length (Search.results p) /\
          Search.filtered_count p <= List.length entries /\
          (forall e t, In e (Search.results p) -> title = Some t ->
             StringOf (opt_member (opt_member e "hierarchy") "title")
             = Ok (string_of_Z t)) /\
          (title = None -> omitted start_date -> omitted end_date ->
           Search.results p = entries)
      | failure message =>
          exists e cause,
            In e entries /\
            Search.entry_kept other_parse title start_date end_date e
            = Throw cause /\
            message
            = ("Error calling eCFR search with date range: " ++ cause)%string
      end
  end.
Proof.
  unfold Search.ecfr_search_with_date_range.
  destruct (Adapter.fetchJson fetch _) as [data|m]; cbn [bind catching];
    [|reflexivity].
  cbv zeta.
  assert (match opt_member data "results" with
          | JArr items =>
              filterE (Search.entry_kept other_parse title start_date end_date)
                items
          | _ => Ok []
          end
          = filterE (Search.entry_kept other_parse title start_date end_date)
              (match opt_member data "results" with
               | JArr items => items
               | _ => []
               end)) as ->
    by (destruct (opt_member data "results"); reflexivity).
  set (entries := match opt_member data "results" with
                  | JArr items => items
                  | _ => []
                  end).
  pose proof (filterE_spec
                (Search.entry_kept other_parse title start_date end_date)
                entries) as Hf.
  destruct (filterE _ entries) as [kept|m]; cbn [bind catching].
  - destruct Hf as [-> Hall].
    cbn [Search.results Search.filtered_count].
    split; [reflexivity|]. split; [reflexivity|].
    split; [apply filter_length_le|]. split.
    + intros e t He ->. apply filter_In in He as [_ He].
      unfold Search.entry_kept in He. cbv zeta in He.
      set (D := if negb (truthy (of_optional start_date))
                   && negb (truthy (of_optional end_date))
                then Ok true
                else Search.rangesOverlapOf other_parse start_date end_date
                       (opt_member e "starts_on") (opt_member e "ends_on"))
        in He.
      destruct (truthy (opt_member (opt_member e "hierarchy") "title"));
        [|destruct D as [[|]|]; discriminate He].
      destruct (StringOf (opt_member (opt_member e "hierarchy") "title"))
        as [s|]; cbn [bind] in He; [|discriminate He].
      destruct (s =? string_of_Z t) eqn:E.
      * apply String.eqb_eq in E. now subst.
      * destruct D as [[|]|]; discriminate He.
    + intros -> Hs He.
      rewrite (filter_ext _ (fun _ => true)); [apply filter_all|].
      intros e. now rewrite entry_kept_no_filter.
  - destruct Hf as (e & Hin & He). now exists e, m.
Qed.

(** X14: an undated entry is never filtered out by dates.  For an entry
    whose starts_on and ends_on are absent or null, the test of the
    search filter with any start and end date is the test with no date at
    all: only the title decides. *)
Theorem undated_entry_passes_dates (other_parse : string -> option Z)
    (title : option Z) (start_date end_date : option string) (entry : JsVal) :
  is_nullish (opt_member entry "starts_on") = true ->
  is_nullish (opt_member entry "ends_on") = true ->
  Search.entry_kept other_parse title start_date end_date entry
  = Search.entry_kept other_parse title None None entry.
Proof.
  intros Hs He. unfold Search.entry_kept.
  destruct (match title with Some _ => _ | None => _ end) as [mt|];
    cbn [bind]; [|reflexivity].
  cbn [of_optional truthy negb andb].
  destruct (negb (truthy (of_optional start_date))
            && negb (truthy (of_optional end_date))); [reflexivity|].
  assert (forall v, is_nullish v = true ->
            Search.toDateOf other_parse v = Ok None) as Hnone
    by (intros [] Hv; try discriminate; reflexivity).
  unfold Search.rangesOverlapOf. rewrite (Hnone _ Hs), (Hnone _ He).
  cbn [bind]. cbv zeta.
  destruct (toDate other_parse start_date) as [fs|] eqn:E1.
  - apply toDate_range in E1.
    assert ((Calendar.maxTime <? fs)%Z = false) as -> by lia.
    destruct (toDate other_parse end_date) as [fe|] eqn:E2; [|reflexivity].
    apply toDate_range in E2.
    now assert ((Calendar.minTime >? fe)%Z = false) as -> by lia.
  - destruct (toDate other_parse end_date) as [fe|] eqn:E2; [|reflexivity].
    apply toDate_range in E2.
    now assert ((Calendar.minTime >? fe)%Z = false) as -> by lia.
Qed.

Lemma undated_entry_example :
  Search.entry_kept (fun _ => None) (Some 21%Z) (Some "2024-01-01")
    (Some "2024-06-01")
    (JObj [("hierarchy", JObj [("title", JStr "21")]); ("ends_on", JNull)])
  = Search.entry_kept (fun _ => None) (Some 21%Z) None None
      (JObj [("hierarchy", JObj [("title", JStr "21")]); ("ends_on", JNull)]).
Proof.
  apply (undated_entry_passes_dates (fun _ => None) (Some 21%Z)
           (Some "2024-01-01") (Some "2024-06-01")
           (JObj [("hierarchy", JObj [("title", JStr "21")]); ("ends_on", JNull)])
           eq_refl eq_refl).
Defined.

(** ** The order of a flattened map *)

Lemma existsb_has (k : string) (m : Map) :
  existsb (fun x => x =? k) (keys m) = map_has k m.
Proof.
  unfold keys. induction m as [|[k' v] rest IH]; simpl; [reflexivity|].
  now rewrite IH.
Qed.

Lemma first_occurrences_ext (seen seen' l : list string) :
  (forall k, In k seen <-> In k seen') ->
  first_occurrences seen l = first_occurrences seen' l.
Proof.
  revert seen seen'. induction l as [|k rest IH]; intros seen seen' H; simpl;
    [reflexivity|].
  assert (existsb (fun x => x =? k) seen = existsb (fun x => x =? k) seen') as ->.
  { destruct (existsb (fun x => x =? k) seen') eqn:E.
    - apply existsb_exists in E as (x & Hx & Hk). apply existsb_exists.
      exists x. split; [now apply H | assumption].
    - destruct (existsb (fun x => x =? k) seen) eqn:E'; [|reflexivity].
      apply existsb_exists in E' as (x & Hx & Hk).
      assert (existsb (fun x => x =? k) seen' = true) as E''
        by (apply existsb_exists; exists x; split; [now apply H | assumption]).
      congruence. }
  destruct (existsb (fun x => x =? k) seen'); [now apply IH|].
  f_equal. apply IH. intros x. simpl. now rewrite H.
Qed.

Lemma keys_set_all (nodes : list JsVal) (map : Map) :
  keys (set_all nodes map)
  = keys map ++ first_occurrences (keys map) (List.map section_key nodes).
Proof.
  revert map. induction nodes as [|n rest IH]; intros map; simpl.
  - now rewrite app_nil_r.
  - rewrite IH, keys_map_set, existsb_has.
    destruct (map_has (section_key n) map); [reflexivity|].
    rewrite <- app_assoc. simpl. do 2 f_equal.
    apply first_occurrences_ext. intros k. rewrite in_app_iff. simpl. tauto.
Qed.

Lemma map_set_fresh (k : string) (v : JsVal) (m : Map) :
  map_has k m = false -> map_set k v m = m ++ [(k, v)].
Proof.
  induction m as [|[k' v'] rest IH]; simpl; [reflexivity|].
  destruct (k' =? k); simpl; [discriminate|].
  intros H. now rewrite IH.
Qed.

Lemma set_all_distinct (nodes : list JsVal) (map : Map) :
  NoDup (keys map ++ List.map section_key nodes) ->
  set_all nodes map = map ++ List.map (fun n => (section_key n, n)) nodes.
Proof.
  revert map. induction nodes as [|n rest IH]; intros map Hnd; simpl.
  - now rewrite app_nil_r.
  - assert (map_has (section_key n) map = false) as Hfresh.
    { apply map_has_false. intros Hin.
      apply NoDup_remove_2 in Hnd. apply Hnd, in_app_iff. now left. }
    rewrite map_set_fresh by assumption.
    rewrite IH.
    + now rewrite <- app_assoc.
    + unfold keys in *. rewrite map_app, <- app_assoc. exact Hnd.
Qed.

(** X15: a flattened map iterates in document order.  The keys of the
    map are the identifier strings of the indexed nodes in the order in
    which the walk first meets them (a node before its children, children
    from first to last); when those strings are pairwise distinct, the
    entries of the map are exactly the indexed nodes in that order, each
    under its identifier string.  Whatever the room on the call stack,
    the flattener returns unless an identifier does not convert to a
    string or the stack has no room for the walk. *)
Theorem flattened_in_document_order (stack : option nat) (root : JsVal) :
  match buildSectionMap stack root with
  | Ok map =>
      Forall (fun n => StringOf (opt_member n "identifier") = Ok (section_key n))
             (sections_of root) /\
      keys map = first_occurrences [] (List.map section_key (sections_of root)) /\
      (NoDup (List.map section_key (sections_of root)) ->
       entries map = List.map (fun n => (section_key n, n)) (sections_of root))
  | Throw m => flatten_failure stack root m
  end.
Proof.
  pose proof (buildSectionMap_cases stack root) as Hcases.
  destruct (buildSectionMap stack root) as [map|m]; [|exact Hcases].
  destruct Hcases as (-> & Hc & _).
  split; [|split].
  - unfold converts in Hc. rewrite forallb_forall in Hc.
    apply Forall_forall. intros n Hn. apply StringOf_key. now apply Hc.
  - apply keys_set_all.
  - intros Hnd. apply (set_all_distinct (sections_of root) new_Map Hnd).
Qed.

(** ** The date utilities together *)

(** X16: overlap does not depend on which range is the filter.
    rangesOverlap(a, b, c, d) and rangesOverlap(c, d, a, b) agree for all
    bounds, present or absent, parseable or not. *)
Theorem rangesOverlap_symmetric (other_parse : string -> option Z)
    (a b c d : option string) :
  rangesOverlap other_parse a b c d = rangesOverlap other_parse c d a b.
Proof.
  unfold rangesOverlap. cbv zeta.
  destruct (toDate other_parse a) as [ta|] eqn:Ea;
    [apply toDate_range in Ea|];
  (destruct (toDate other_parse b) as [tb|] eqn:Eb;
    [apply toDate_range in Eb|]);
  (destruct (toDate other_parse c) as [tc|] eqn:Ec;
    [apply toDate_range in Ec|]);
  (destruct (toDate other_parse d) as [td|] eqn:Ed;
    [apply toDate_range in Ed|]);
  unfold Calendar.minTime, Calendar.maxTime in *;
  repeat match goal with
         | |- context [(?x <? ?y)%Z] => destruct (Z.ltb_spec x y)
         | |- context [(?x >? ?y)%Z] =>
             rewrite (Z.gtb_ltb x y); destruct (Z.ltb_spec y x)
         end; try reflexivity; lia.
Qed.

(** X17: a date is within a range exactly when the range overlaps the
    one-day range of that date, provided the date can be read; a target
    that cannot be read (absent, empty or malformed) is within no range,
    although as an item bound it would count as open. *)
Theorem isWithinRange_as_overlap (other_parse : string -> option Z)
    (target start end_ : option string) :
  isWithinRange other_parse target start end_
  = match toDate other_parse target with
    | Some _ => rangesOverlap other_parse start end_ target target
    | None => false
    end.
Proof.
  unfold isWithinRange, rangesOverlap. cbv zeta.
  destruct (toDate other_parse target) as [t|]; [|reflexivity].
  destruct (toDate other_parse start) as [s|],
           (toDate other_parse end_) as [e|]; reflexivity.
Qed.

(** ** Dates as strings and as instants *)

Lemma leap_facts (y : Z) :
  Calendar.is_leap y = true ->
  (y mod 4 = 0 /\ (y mod 100 <> 0 \/ y mod 400 = 0))%Z.
Proof.
  unfold Calendar.is_leap.
  rewrite andb_true_iff, orb_true_iff, negb_true_iff, !Z.eqb_eq, Z.eqb_neq.
  tauto.
Qed.

Lemma no_leap_facts (y : Z) :
  Calendar.is_leap y = false ->
  (y mod 4 <> 0 \/ (y mod 100 = 0 /\ y mod 400 <> 0))%Z.
Proof.
  unfold Calendar.is_leap.
  rewrite andb_false_iff, orb_false_iff, negb_false_iff, !Z.eqb_neq, Z.eqb_eq.
  tauto.
Qed.

Lemma year_length (y : Z) :
  (year_start (y + 1) - year_start y
   = if Calendar.is_leap y then 366 else 365)%Z.
Proof.
  unfold year_start, Calendar.days_from_civil.
  change (1 <=? 2)%Z with true. change (1 >? 2)%Z with false. cbv iota zeta.
  replace (y + 1 - 1)%Z with y by lia.
  destruct (Calendar.is_leap y) eqn:E;
    [apply leap_facts in E | apply no_leap_facts in E];
    Z.div_mod_to_equations; lia.
Qed.

Ltac month_cases m Hd :=
  let Hcases := fresh "Hcases" in
  assert (m = 1 \/ m = 2 \/ m = 3 \/ m = 4 \/ m = 5 \/ m = 6 \/ m = 7 \/ m = 8
          \/ m = 9 \/ m = 10 \/ m = 11 \/ m = 12)%Z as Hcases by lia;
  repeat (destruct Hcases as [Hcases|Hcases]);
  rewrite Hcases in Hd; simpl in Hd.

Lemma within_year (y m d : Z) :
  valid_date y m d ->
  (year_start y <= Calendar.days_from_civil y m d < year_start (y + 1))%Z.
Proof.
  intros [Hm Hd]. pose proof (year_length y) as Hlen.
  unfold year_start, Calendar.days_from_civil in *.
  change (1 <=? 2)%Z with true in *. change (1 >? 2)%Z with false in *.
  cbv iota zeta in *.
  replace (y + 1 - 1)%Z with y in * by lia.
  unfold Calendar.days_in_month in Hd.
  destruct (Z.leb_spec m 2); destruct (Z.gtb_spec m 2); try lia;
  (destruct (Calendar.is_leap y) eqn:E;
    [pose proof (leap_facts y E) as F | pose proof (no_leap_facts y E) as F];
    clear E);
  month_cases m Hd; try lia;
  Z.div_mod_to_equations; lia.
Qed.

Lemma same_year_order (y m d m' d' : Z) :
  valid_date y m d -> valid_date y m' d' ->
  (m < m' \/ (m = m' /\ d < d'))%Z ->
  (Calendar.days_from_civil y m d < Calendar.days_from_civil y m' d')%Z.
Proof.
  intros [Hm Hd] [Hm' Hd'] Hlt.
  assert (1 <= d')%Z as Hd1 by lia. clear Hd'.
  pose proof (year_length y) as Hlen.
  unfold year_start, Calendar.days_from_civil in *.
  change (1 <=? 2)%Z with true in *. change (1 >? 2)%Z with false in *.
  cbv iota zeta in *.
  replace (y + 1 - 1)%Z with y in * by lia.
  unfold Calendar.days_in_month in Hd.
  destruct (Z.leb_spec m 2); destruct (Z.gtb_spec m 2); try lia;
  destruct (Z.leb_spec m' 2); destruct (Z.gtb_spec m' 2); try lia;
  (destruct (Calendar.is_leap y) eqn:E;
    [pose proof (leap_facts y E) as F | pose proof (no_leap_facts y E) as F];
    clear E);
  month_cases m Hd; try lia;
  Z.div_mod_to_equations; lia.
Qed.

Lemma year_start_mono (a b : Z) : (a <= b -> year_start a <= year_start b)%Z.
Proof.
  intros Hab. replace b with (a + Z.of_nat (Z.to_nat (b - a)))%Z by lia.
  induction (Z.to_nat (b - a)) as [|n IH].
  - replace (a + Z.of_nat 0)%Z with a by lia. lia.
  - replace (a + Z.of_nat (S n))%Z with (a + Z.of_nat n + 1)%Z by lia.
    pose proof (year_length (a + Z.of_nat n)) as Hlen.
    destruct (Calendar.is_leap (a + Z.of_nat n)); lia.
Qed.

Lemma civil_order (y m d y' m' d' : Z) :
  valid_date y m d -> valid_date y' m' d' ->
  (y < y' \/ (y = y' /\ (m < m' \/ (m = m' /\ d < d'))))%Z ->
  (Calendar.days_from_civil y m d < Calendar.days_from_civil y' m' d')%Z.
Proof.
  intros Hv Hv' [Hy|[-> Hmd]].
  - pose proof (within_year y m d Hv). pose proof (within_year y' m' d' Hv').
    pose proof (year_start_mono (y + 1) y'). lia.
  - now apply same_year_order.
Qed.

Lemma civil_compare (y m d y' m' d' : Z) :
  valid_date y m d -> valid_date y' m' d' ->
  (Calendar.days_from_civil y m d ?= Calendar.days_from_civil y' m' d')%Z
  = match (y ?= y')%Z with
    | Eq => match (m ?= m')%Z with
            | Eq => (d ?= d')%Z
            | c => c
            end
    | c => c
    end.
Proof.
  intros Hv Hv'.
  destruct (Z.compare_spec y y') as [Hy|Hy|Hy];
    destruct (Z.compare_spec m m') as [Hm|Hm|Hm];
    destruct (Z.compare_spec d d') as [Hd|Hd|Hd]; subst;
    try apply Z.compare_refl;
    try (apply Z.compare_lt_iff, civil_order; [assumption | assumption | lia]);
    (apply Z.compare_gt_iff, civil_order; [assumption | assumption | lia]).
Qed.

Lemma digit_compare (c c' : ascii) (x x' : Z) :
  Calendar.digit c = Some x -> Calendar.digit c' = Some x' ->
  Ascii.compare c c' = (x ?= x')%Z.
Proof.
  unfold Calendar.digit, Ascii.compare.
  destruct (_ && _); [|discriminate]. intros [= <-].
  destruct (_ && _); [|discriminate]. intros [= <-].
  unfold nat_of_ascii. rewrite !N_nat_Z, <- N2Z.inj_compare.
  destruct (Z.compare_spec (Z.of_N (N_of_ascii c)) (Z.of_N (N_of_ascii c')));
    symmetry; [apply Z.compare_eq_iff | apply Z.compare_lt_iff
               | apply Z.compare_gt_iff]; lia.
Qed.

Lemma iso_date_parts (s : string) (t : Z) :
  Calendar.iso_date s = Some t -> iso_parts s t.
Proof.
  unfold Calendar.iso_date. intros H.
  rewrite <- (string_of_list_ascii_of_string s).
  destruct (list_ascii_of_string s) as [|y1 l]; [discriminate|].
  destruct l as [|y2 l]; [discriminate|].
  destruct l as [|y3 l]; [discriminate|].
  destruct l as [|y4 l]; [discriminate|].
  destruct l as [|sep1 l]; [discriminate|].
  destruct l as [|m1 l]; [discriminate|].
  destruct l as [|m2 l]; [discriminate|].
  destruct l as [|sep2 l]; [discriminate|].
  destruct l as [|d1 l]; [discriminate|].
  destruct l as [|d2 l]; [discriminate|].
  destruct l; [|discriminate].
  destruct (Ascii.eqb sep1 "-") eqn:E1; [|discriminate].
  destruct (Ascii.eqb sep2 "-") eqn:E2; [|discriminate].
  apply Ascii.eqb_eq in E1, E2. subst sep1 sep2.
  cbn [andb Calendar.number_of] in H.
  destruct (Calendar.digit y1) as [a1|] eqn:D1; [|discriminate].
  destruct (Calendar.digit y2) as [a2|] eqn:D2; [|discriminate].
  destruct (Calendar.digit y3) as [a3|] eqn:D3; [|discriminate].
  destruct (Calendar.digit y4) as [a4|] eqn:D4; [|discriminate].
  destruct (Calendar.digit m1) as [a5|] eqn:D5; [|discriminate].
  destruct (Calendar.digit m2) as [a6|] eqn:D6; [|discriminate].
  destruct (Calendar.digit d1) as [a7|] eqn:D7; [|discriminate].
  destruct (Calendar.digit d2) as [a8|] eqn:D8; [|discriminate].
  unfold Calendar.civil_time in H.
  destruct (_ && _)%Z eqn:V in H; [|discriminate]. injection H as <-.
  rewrite !andb_true_iff, !Z.leb_le in V.
  apply (iso_parts_intro _ _ y1 y2 y3 y4 m1 m2 d1 d2 a1 a2 a3 a4 a5 a6 a7 a8).
  - reflexivity.
  - repeat split; assumption.
  - unfold valid_date. tauto.
  - reflexivity.
Qed.

Lemma scale_compare (x y : Z) :
  (x * Calendar.msPerDay ?= y * Calendar.msPerDay)%Z = (x ?= y)%Z.
Proof.
  unfold Calendar.msPerDay.
  destruct (Z.compare_spec x y);
    [apply Z.compare_eq_iff | apply Z.compare_lt_iff | apply Z.compare_gt_iff];
    lia.
Qed.

(** Two calendar dates written YYYY-MM-DD compare as strings the way
    they compare as dates. *)
Lemma iso_dates_compare (a b : string) :
  match Calendar.iso_date a, Calendar.iso_date b with
  | Some ta, Some tb => String.compare a b = (ta ?= tb)%Z
  | _, _ => True
  end.
Proof.
  destruct (Calendar.iso_date a) as [ta|] eqn:Ea; [|trivial].
  destruct (Calendar.iso_date b) as [tb|] eqn:Eb; [|trivial].
  destruct (iso_date_parts a ta Ea)
    as [c1 c2 c3 c4 c5 c6 c7 c8 x1 x2 x3 x4 x5 x6 x7 x8 -> Hd Hv ->].
  destruct (iso_date_parts b tb Eb)
    as [e1 e2 e3 e4 e5 e6 e7 e8 z1 z2 z3 z4 z5 z6 z7 z8 -> Hd' Hv' ->].
  destruct Hd as (D1 & D2 & D3 & D4 & D5 & D6 & D7 & D8).
  destruct Hd' as (F1 & F2 & F3 & F4 & F5 & F6 & F7 & F8).
  cbn [String.compare].
  rewrite (digit_compare _ _ _ _ D1 F1), (digit_compare _ _ _ _ D2 F2),
          (digit_compare _ _ _ _ D3 F3), (digit_compare _ _ _ _ D4 F4),
          (digit_compare _ _ _ _ D5 F5), (digit_compare _ _ _ _ D6 F6),
          (digit_compare _ _ _ _ D7 F7), (digit_compare _ _ _ _ D8 F8).
  change (Ascii.compare "-" "-") with Eq. cbv iota.
  rewrite scale_compare.
  rewrite (civil_compare _ _ _ _ _ _ Hv Hv').
  apply digit_range in D1, D2, D3, D4, D5, D6, D7, D8,
                        F1, F2, F3, F4, F5, F6, F7, F8.
  clear Hv Hv' Ea Eb.
  repeat match goal with
         | |- context [(?x ?= ?y)%Z] => destruct (Z.compare_spec x y)
         end; try reflexivity; lia.
Qed.

(** X18: between well-formed dates the clamp picks the earlier day.
    When the requested end date and the latest issue date are both
    calendar dates written YYYY-MM-DD, comparing them as strings is
    comparing them as dates, and the effective end date is the earlier
    of the two days. *)
Theorem clamp_picks_earlier_date (requested latest : string) :
  match Calendar.iso_date requested, Calendar.iso_date latest with
  | Some tr, Some tl =>
      String.compare requested latest = (tr ?= tl)%Z /\
      Calendar.iso_date (clampEndDate requested (Some latest))
      = Some (Z.min tr tl)
  | _, _ => True
  end.
Proof.
  pose proof (iso_dates_compare requested latest) as Hcmp.
  destruct (Calendar.iso_date requested) as [tr|] eqn:Er; [|trivial].
  destruct (Calendar.iso_date latest) as [tl|] eqn:El; [|trivial].
  split; [exact Hcmp|].
  unfold clampEndDate, lex_greater, is_known. rewrite Hcmp.
  assert ((latest =? "") = false) as ->.
  { destruct latest; [discriminate El | reflexivity]. }
  cbn [negb andb].
  destruct (Z.compare_spec tr tl) as [->|Hlt|Hgt].
  - now rewrite Z.min_id.
  - now rewrite Z.min_l by lia.
  - now rewrite Z.min_r by lia.
Qed.


(** ** Fields the differ does not look at *)

(** X19: only four fields can make a section modified.  When the two
    payloads index the same identifiers and, for each of them, the two
    nodes hold the same primitive values (or nothing) in label_description,
    reserved, received_on and size, the differ reports no change, whatever
    else differs between the nodes: label, hierarchy, children or position
    in the tree. *)
Theorem unread_fields_are_ignored (title : Z) (end_date : string)
    (part : option string) (change_types : option (list string))
    (startStructure endStructure : JsVal) (startMap endMap : Map) :
  Exact.buildSectionMap startStructure = Ok startMap ->
  Exact.buildSectionMap endStructure = Ok endMap ->
  (forall id, map_has id startMap = map_has id endMap) ->
  (forall id k,
     map_has id endMap = true ->
     In k ["label_description"; "reserved"; "received_on"; "size"] ->
     is_primitive (opt_member (map_get id endMap) k) = true /\
     opt_member (map_get id endMap) k = opt_member (map_get id startMap) k) ->
  Exact.diffStructures title end_date part change_types
    startStructure endStructure
  = Ok {| summary := {| total_changes := 0; sections_added := 0;
                        sections_removed := 0; sections_modified := 0 |};
          changes := [] |}.
Proof.
  intros Hs He Hkeys Hfields.
  rewrite exact_buildSectionMap in Hs, He. rewrite exact_diffStructures.
  destruct (converts startStructure); [|discriminate Hs].
  destruct (converts endStructure); [|discriminate He].
  injection Hs as Hs. injection He as He. cbn [andb]. f_equal.
  destruct (comparison_spec title end_date part change_types
              startStructure endStructure)
    as (sm & em & Hs' & He' & _ & [Hnde _] & Hdiff).
  rewrite Hs in Hs'. rewrite He in He'. subst sm em.
  cbv zeta in Hdiff. rewrite Hdiff. clear Hdiff.
  assert (added_records title end_date part startMap endMap = []) as ->.
  { unfold added_records, entries.
    rewrite (filter_ext_in _ (fun _ => false)); [now rewrite filter_false|].
    intros [k n] Hin. unfold is_added. simpl.
    now rewrite Hkeys, (In_has k n). }
  assert (removed_records title end_date part startMap endMap = []) as ->.
  { unfold removed_records, entries.
    rewrite (filter_ext_in _ (fun _ => false)); [now rewrite filter_false|].
    intros [k n] Hin. unfold is_removed. simpl.
    now rewrite <- Hkeys, (In_has k n). }
  assert (modified_records title end_date part startMap endMap = []) as ->.
  { unfold modified_records, entries.
    rewrite (filter_ext_in _ (fun _ => false)); [now rewrite filter_false|].
    intros [k n] Hin. unfold is_modified. cbn [fst snd].
    pose proof (In_has k n endMap Hin) as Hhas.
    assert (n = map_get k endMap) as ->
      by (unfold map_get; now rewrite (lookup_In k n endMap Hnde Hin)).
    unfold metadata_differs.
    destruct (Hfields k "label_description" Hhas) as [P1 <-]; [simpl; tauto|].
    destruct (Hfields k "reserved" Hhas) as [P2 <-]; [simpl; tauto|].
    destruct (Hfields k "received_on" Hhas) as [P3 <-]; [simpl; tauto|].
    destruct (Hfields k "size" Hhas) as [P4 <-]; [simpl; tauto|].
    rewrite !strict_neq_same by assumption. apply andb_false_r. }
  simpl. destruct change_types; reflexivity.
Qed.

Lemma relabelled_maps :
  (forall id, map_has id [("1306.04", section_node "1306.04" "first")]
              = map_has id [("1306.04", section_node "1306.04" "second")]) /\
  (forall id k,
     map_has id [("1306.04", section_node "1306.04" "second")] = true ->
     In k ["label_description"; "reserved"; "received_on"; "size"] ->
     is_primitive
       (opt_member (map_get id [("1306.04", section_node "1306.04" "second")]) k)
     = true /\
     opt_member (map_get id [("1306.04", section_node "1306.04" "second")]) k
     = opt_member (map_get id [("1306.04", section_node "1306.04" "first")]) k).
Proof.
  split; [reflexivity|].
  intros id k Hid Hk. unfold map_get. cbn [map_has lookup] in *.
  destruct ("1306.04" =? id); [|discriminate Hid].
  destruct Hk as [<-|[<-|[<-|[<-|[]]]]]; split; reflexivity.
Qed.

Lemma relabelled_section_is_unreported :
  Exact.diffStructures 21 "2025-01-01" None None
    (title_of [section_node "1306.04" "first"])
    (title_of [section_node "1306.04" "second"])
  = Ok {| summary := {| total_changes := 0; sections_added := 0;
                        sections_removed := 0; sections_modified := 0 |};
          changes := [] |}.
Proof.
  apply (unread_fields_are_ignored 21 "2025-01-01" None None
           (title_of [section_node "1306.04" "first"])
           (title_of [section_node "1306.04" "second"])
           [("1306.04", section_node "1306.04" "first")]
           [("1306.04", section_node "1306.04" "second")]
           eq_refl eq_refl (proj1 relabelled_maps) (proj2 relabelled_maps)).
Defined.

(** ** When a comparison fails *)

(** X21: a comparison fails with the flattener, before any record is
    built.  Whatever the room on the call stack, the differ returns
    exactly when the identifiers of the indexed nodes of both payloads
    convert to strings and the stack has room for the walk of each;
    otherwise it throws what the first failing flattener throws, the
    start payload being flattened first: a TypeError "Cannot convert
    object to primitive value" only if an identifier does not convert, a
    RangeError "Maximum call stack size exceeded" only if the stack has no
    room. *)
Theorem comparison_fails_with_flattener (stack : option nat) (title : Z)
    (end_date : string) (part : option string)
    (change_types : option (list string)) (startStructure endStructure : JsVal) :
  ((exists r, diffStructures stack title end_date part change_types
                startStructure endStructure = Ok r) <->
   (converts startStructure = true /\ fits stack startStructure = true) /\
   (converts endStructure = true /\ fits stack endStructure = true)) /\
  match buildSectionMap stack startStructure,
        buildSectionMap stack endStructure with
  | Throw m, _ | Ok _, Throw m =>
      diffStructures stack title end_date part change_types
        startStructure endStructure = Throw m /\
      ((m = "Cannot convert object to primitive value" /\
        converts startStructure && converts endStructure = false) \/
       (m = "Maximum call stack size exceeded" /\
        fits stack startStructure && fits stack endStructure = false))
  | Ok _, Ok _ =>
      exists r, diffStructures stack title end_date part change_types
                  startStructure endStructure = Ok r
  end.
Proof.
  pose proof (diffStructures_cases stack title end_date part change_types
                startStructure endStructure) as Hcases.
  split.
  - split.
    + intros [r Hr]. rewrite Hr in Hcases.
      destruct Hcases as (_ & Hc & Hf).
      apply andb_true_iff in Hc, Hf. tauto.
    + intros [[Hcs Hfs] [Hce Hfe]]. eexists.
      apply diffStructures_returns; now rewrite ?Hcs, ?Hce, ?Hfs, ?Hfe.
  - pose proof (buildSectionMap_cases stack startStructure) as Hs.
    pose proof (buildSectionMap_cases stack endStructure) as He.
    unfold diffStructures in *.
    destruct (buildSectionMap stack startStructure) as [startMap|m];
      cbn [bind] in *; [|split; [reflexivity | exact Hcases]].
    destruct (buildSectionMap stack endStructure) as [endMap|m];
      cbn [bind] in *; [|split; [reflexivity | exact Hcases]].
    destruct Hs as (-> & _), He as (-> & _).
    rewrite compareMaps_spec by apply flat_flattened. cbn [bind].
    eexists. reflexivity.
Qed.

(** * The resolution of a section and the build script *)

(** ** Locating the content of a section *)

(** The loop stops at the first query whose first match carries a truthy
    index, runs to the end when there is none, and fails at the first
    query whose search fails. *)
Lemma search_loop_spec (fetch : string -> result Adapter.Response)
    (href : string -> list (string * string) -> string)
    (title : Z) (section : string) (part : option string)
    (queries : list string) :
  forall targetIndex matchedResult,
    truthy targetIndex = false ->
    match Content.search_loop fetch href title section part queries
            targetIndex matchedResult with
    | Ok (found, matched) =>
        if truthy found
        then exists before q after others,
               queries = before ++ q :: after /\
               Forall (fun q' => offers_no_index
                                   (Content.search fetch href title section part q'))
                      before /\
               Content.search fetch href title section part q
               = Ok (matched :: others) /\
               found = opt_member matched "structure_index"
        else Forall (fun q' => offers_no_index
                                 (Content.search fetch href title section part q'))
                    queries
    | Throw m =>
        exists before q after,
          queries = before ++ q :: after /\
          Forall (fun q' => offers_no_index
                              (Content.search fetch href title section part q'))
                 before /\
          Content.search fetch href title section part q = Throw m
    end.
Proof.
  induction queries as [|q rest IH]; intros targetIndex matchedResult Hfalsy.
  - simpl. rewrite Hfalsy. constructor.
  - cbn [Content.search_loop].
    destruct (Content.search fetch href title section part q)
      as [[|first others]|m] eqn:Hq; cbn [bind].
    + specialize (IH targetIndex matchedResult Hfalsy).
      destruct (Content.search_loop fetch href title section part rest
                  targetIndex matchedResult) as [[found matched]|m].
      * destruct (truthy found).
        -- destruct IH as (before & q' & after & others & -> & Hb & Hs & Hf).
           exists (q :: before), q', after, others.
           split; [reflexivity|]. split; [|now split].
           constructor; [now rewrite Hq | exact Hb].
        -- constructor; [now rewrite Hq | exact IH].
      * destruct IH as (before & q' & after & -> & Hb & Hs).
        exists (q :: before), q', after.
        split; [reflexivity|]. split; [|exact Hs].
        constructor; [now rewrite Hq | exact Hb].
    + cbv zeta.
      destruct (truthy (opt_member first "structure_index")) eqn:Hidx.
      * rewrite Hidx. exists [], q, rest, others.
        split; [reflexivity|]. split; [constructor|]. now split.
      * specialize (IH (opt_member first "structure_index") first Hidx).
        destruct (Content.search_loop fetch href title section part rest
                    (opt_member first "structure_index") first)
          as [[found matched]|m].
        -- destruct (truthy found).
           ++ destruct IH as (before & q' & after & others' & -> & Hb & Hs & Hf).
              exists (q :: before), q', after, others'.
              split; [reflexivity|]. split; [|now split].
              constructor; [now rewrite Hq | exact Hb].
           ++ constructor; [now rewrite Hq | exact IH].
        -- destruct IH as (before & q' & after & -> & Hb & Hs).
           exists (q :: before), q', after.
           split; [reflexivity|]. split; [|exact Hs].
           constructor; [now rewrite Hq | exact Hb].
    + exists [], q, rest. split; [reflexivity|]. split; [constructor | exact Hq].
Qed.

Lemma queries_shape (title : Z) (section : string) (part : option string) :
  section <> "" ->
  Content.queries title section part
  = [(string_of_Z title ++ " CFR " ++ section)%string; section]
    ++ match part with
       | Some p => if p =? "" then [] else [(p ++ " " ++ section)%string]
       | None => []
       end.
Proof.
  intros Hs. unfold Content.queries. cbn [List.flat_map truthy].
  apply String.eqb_neq in Hs. rewrite Hs. cbn [negb].
  assert (((string_of_Z title ++ " CFR " ++ section)%string =? "") = false) as ->.
  { apply String.eqb_neq.
    unfold string_of_Z, NilZero.string_of_int.
    destruct (Z.to_int title) as [d|d]; [|discriminate].
    unfold NilZero.string_of_uint. destruct d; discriminate. }
  cbn [negb app]. do 2 f_equal.
  destruct part as [p|]; [|reflexivity].
  destruct (p =? "") eqn:Hp; cbn [negb]; [reflexivity|].
  assert (((p ++ " " ++ section)%string =? "") = false) as ->.
  { apply String.eqb_neq. destruct p; [discriminate Hp | discriminate]. }
  reflexivity.
Qed.

(** X22: how ecfr_get_section_content finds its index.  A given
    structure_index other than zero is used as it is and nothing is
    searched.  Otherwise a section is required, and the queries
    "<title> CFR <section>", "<section>" and, with a part, "<part>
    <section>" are searched in this order: the index is the
    structure_index of the first match of the first query whose first
    match has a truthy one; later matches of a query are never looked at.
    The answer is an error when no locator is given, when no query offers
    an index, or when a search fails before one does. *)
Theorem section_index_resolution (fetch : string -> result Adapter.Response)
    (href : string -> list (string * string) -> string)
    (title : Z) (section part : option string)
    (structure_index : option string) :
  (forall s, s <> "" ->
     Content.queries title s part
     = [(string_of_Z title ++ " CFR " ++ s)%string; s]
       ++ match part with
          | Some p => if p =? "" then [] else [(p ++ " " ++ s)%string]
          | None => []
          end) /\
  match Content.locate fetch href title section part structure_index with
  | Content.request_content found matched =>
      truthy found = true /\
      ((exists n, structure_index = Some n /\ found = JNum n /\
                  matched = JUndef) \/
       (no_index structure_index /\
        exists s before q after others,
          given section s /\
          Content.queries title s part = before ++ q :: after /\
          Forall (fun q' => offers_no_index
                              (Content.search fetch href title s part q'))
                 before /\
          Content.search fetch href title s part q = Ok (matched :: others) /\
          found = opt_member matched "structure_index"))
  | Content.respond message =>
      no_index structure_index /\
      ((omitted section /\
        message
        = "Provide either structure_index or a section number to locate content.")
       \/
       exists s,
         given section s /\
         ((Forall (fun q => offers_no_index
                              (Content.search fetch href title s part q))
                  (Content.queries title s part) /\
           message = "Unable to resolve structure_index for requested section.")
          \/
          exists cause before q after,
            Content.queries title s part = before ++ q :: after /\
            Forall (fun q' => offers_no_index
                                (Content.search fetch href title s part q'))
                   before /\
            Content.search fetch href title s part q = Throw cause /\
            message = ("Error fetching eCFR section content: " ++ cause)%string))
  end.
Proof.
  split; [intros s Hs; now apply queries_shape|].
  unfold Content.locate. cbv zeta.
  assert (forall n, truthy (JNum n) = false -> n = "0") as Hzero.
  { intros n H. simpl in H. apply negb_false_iff in H.
    now apply String.eqb_eq. }
  destruct structure_index as [n|].
  - destruct (truthy (JNum n)) eqn:Hn; cbn [negb fst snd].
    + rewrite Hn. cbn [negb]. split; [exact Hn|]. left. now exists n.
    + apply Hzero in Hn. subst n.
      assert (no_index (Some "0")) as Hno by now right.
      destruct section as [s|].
      * destruct (truthy (JStr s)) eqn:Hs; cbn [negb].
        -- assert (given (Some s) s) as Hgiven.
           { split; [reflexivity|]. intros ->. discriminate Hs. }
           pose proof (search_loop_spec fetch href title s part
                         (Content.queries title s part) (JNum "0") JUndef eq_refl)
             as Hloop.
           destruct (Content.search_loop fetch href title s part
                       (Content.queries title s part) (JNum "0") JUndef)
             as [[found matched]|m]; cbn [fst snd].
           ++ destruct (truthy found) eqn:Hf; cbn [negb].
              ** split; [exact Hf|]. right. split; [exact Hno|].
                 destruct Hloop as (before & q & after & others & H).
                 now exists s, before, q, after, others.
              ** split; [exact Hno|]. right. exists s. split; [exact Hgiven|].
                 left. now split.
           ++ split; [exact Hno|]. right. exists s. split; [exact Hgiven|].
              right. destruct Hloop as (before & q & after & H1 & H2 & H3).
              now exists m, before, q, after.
        -- split; [exact Hno|]. left. split; [|reflexivity].
           right. f_equal. simpl in Hs. apply negb_false_iff in Hs.
           now apply String.eqb_eq in Hs.
      * split; [exact Hno|]. left. split; [now left | reflexivity].
  - change (truthy JUndef) with false. cbn [negb].
    assert (no_index None) as Hno by now left.
    destruct section as [s|].
    + destruct (truthy (JStr s)) eqn:Hs; cbn [negb].
      * assert (given (Some s) s) as Hgiven.
        { split; [reflexivity|]. intros ->. discriminate Hs. }
        pose proof (search_loop_spec fetch href title s part
                      (Content.queries title s part) JUndef JUndef eq_refl)
          as Hloop.
        destruct (Content.search_loop fetch href title s part
                    (Content.queries title s part) JUndef JUndef)
          as [[found matched]|m]; cbn [fst snd].
        -- destruct (truthy found) eqn:Hf; cbn [negb].
           ++ split; [exact Hf|]. right. split; [exact Hno|].
              destruct Hloop as (before & q & after & others & H).
              now exists s, before, q, after, others.
           ++ split; [exact Hno|]. right. exists s. split; [exact Hgiven|].
              left. now split.
        -- split; [exact Hno|]. right. exists s. split; [exact Hgiven|].
           right. destruct Hloop as (before & q & after & H1 & H2 & H3).
           now exists m, before, q, after.
      * split; [exact Hno|]. left. split; [|reflexivity].
        right. f_equal. simpl in Hs. apply negb_false_iff in Hs.
        now apply String.eqb_eq in Hs.
    + split; [exact Hno|]. left. split; [now left | reflexivity].
Qed.




(** ** The shebang script *)

(** X24: the script adds the line once.  When build/index.js exists,
    the script leaves it starting with "#!/usr/bin/env node": unchanged
    if it already did, and otherwise with that line and a line feed put
    before its contents; no other file is touched, and running the script
    again changes nothing.  When the file does not exist the script fails
    and writes nothing. *)
Theorem add_shebang_once (fs : Shebang.Files) :
  match Shebang.add_shebang fs with
  | Ok fs' =>
      exists contents contents',
        fs Shebang.file = Some contents /\
        fs' Shebang.file = Some contents' /\
        prefix Shebang.line contents' = true /\
        contents' = (if prefix Shebang.line contents then contents
                     else Shebang.line ++ String (ascii_of_nat 10) ""
                          ++ contents)%string /\
        (forall p, p <> Shebang.file -> fs' p = fs p) /\
        match Shebang.add_shebang fs' with
        | Ok fs'' => forall p, fs'' p = fs' p
        | Throw _ => False
        end
  | Throw _ => fs Shebang.file = None
  end.
Proof.
  unfold Shebang.add_shebang at 1. unfold Shebang.readFileSync.
  destruct (fs Shebang.file) as [contents|] eqn:Hfile; cbn [bind];
    [|reflexivity].
  destruct (prefix Shebang.line contents) eqn:Hp; cbn [negb].
  - exists contents, contents. rewrite Hfile.
    split; [reflexivity|]. split; [reflexivity|]. split; [exact Hp|].
    split; [now rewrite Hp|]. split; [reflexivity|].
    unfold Shebang.add_shebang, Shebang.readFileSync.
    rewrite Hfile. cbn [bind]. rewrite Hp. cbn [negb]. intros p. reflexivity.
  - exists contents, (Shebang.line ++ String (ascii_of_nat 10) "" ++ contents)%string.
    assert (prefix Shebang.line
              (Shebang.line ++ String (ascii_of_nat 10) "" ++ contents)%string
            = true) as Hnew by reflexivity.
    assert (Shebang.writeFileSync fs Shebang.file
              (Shebang.line ++ String (ascii_of_nat 10) "" ++ contents)%string
              Shebang.file
            = Some (Shebang.line ++ String (ascii_of_nat 10) "" ++ contents)%string)
      as Hwritten.
    { unfold Shebang.writeFileSync. now rewrite String.eqb_refl. }
    split; [reflexivity|]. split; [exact Hwritten|]. split; [exact Hnew|].
    split; [now rewrite Hp|]. split.
    + intros p Hne. unfold Shebang.writeFileSync.
      apply String.eqb_neq in Hne. now rewrite Hne.
    + unfold Shebang.add_shebang, Shebang.readFileSync.
      rewrite Hwritten. cbn [bind]. rewrite Hnew. cbn [negb]. intros p. reflexivity.
Qed.
